(** * LensTools ray-tracing scripts: a shallow embedding

    This development embeds the two orchestration scripts of
    [lenstools/scripts/raytracing.py] ([singleRedshift] and
    [simulatedCatalog]) together with [_subdirectories], and the header
    translation [FastPMSnapshot.getHeader] of
    [lenstools/simulations/fastpm.py].  It also embeds
    [FastPMSnapshot.setLimits] and, from
    [lenstools/pipeline/simulation.py], the directory names of the models
    and collections ([cosmo_id], [available], [geometry_id]) and the
    initial conditions of a collection ([newInitialCondition], [ics]).

    Python integers are [Z]; Python strings are [string]; lists and tuples
    are [list]; dictionaries are [gmap string _].  Floating-point numbers
    are an abstract carrier [F] with the operations the scripts use, so
    that every statement holds for IEEE doubles as well as for the exact
    rationals used in the examples.  The scripts are effectful (global
    random generator, file writes, calls into the ray tracer, exceptions):
    they are written in a small monad [M] that threads the generator
    state, collects the externally visible events in order, and stops at
    the first exception.  Logging and timing calls are left out: they
    neither raise nor influence any value. *)

From Stdlib Require Import ZArith QArith Qround Lia Ascii String.
From stdpp Require Import base list strings gmap pretty.

Open Scope string_scope.
Open Scope list_scope.
Open Scope Z_scope.

(** ** Python built-ins used by the scripts *)

Module Py.

(** Exceptions that the scripts can raise or let through. *)
Inductive Exn :=
| AssertionError (msg : string)
| ValueError (msg : string)
| TypeError (msg : string)
| IndexError
| KeyError (key : string)
| AttributeError (name : string)
| UnboundLocalError (name : string)
| ZeroDivisionError
| IOError (path : string)
| SystemExit (code : Z)
| TracerError (msg : string).

Definition Res (A : Type) : Type := Exn + A.

(** [s.split(sep)] for a one-character separator: never the empty list. *)
Fixpoint split (sep : ascii) (s : string) : list string :=
  match s with
  | EmptyString => [EmptyString]
  | String c s' =>
      if Ascii.eqb c sep then EmptyString :: split sep s'
      else match split sep s' with
           | [] => [String c EmptyString]
           | w :: ws => String c w :: ws
           end
  end.

(** [l[i]] with Python's negative indices. *)
Definition index {A} (l : list A) (i : Z) : Res A :=
  let n := Z.of_nat (length l) in
  let j := if i <? 0 then i + n else i in
  if (0 <=? j) && (j <? n)
  then match l !! Z.to_nat j with Some x => inr x | None => inl IndexError end
  else inl IndexError.

(** Bounds of the slice [l[a:b]] on a sequence of length [n]. *)
Definition clip (n : nat) (i : Z) : nat :=
  let zn := Z.of_nat n in
  Z.to_nat (if i <? 0 then Z.max 0 (i + zn) else Z.min i zn).

(** [l[a:b]] *)
Definition slice {A} (l : list A) (a b : Z) : list A :=
  let lo := clip (length l) a in
  let hi := clip (length l) b in
  take (hi - lo) (drop lo l).

(** [l[:n]] *)
Definition slice_to {A} (l : list A) (n : Z) : list A := slice l 0 n.

(** numpy's [arr[a:b] = src] on a one-dimensional array: the source must
    have the length of the target slice or length one (broadcast). *)
Definition slice_assign {A} (arr : list A) (a b : Z) (src : list A) : Res (list A) :=
  let lo := clip (length arr) a in
  let hi := clip (length arr) b in
  let k := (hi - lo)%nat in
  if (length src =? k)%nat then inr (take lo arr ++ src ++ drop (lo + k) arr)
  else match src with
       | [x] => inr (take lo arr ++ replicate k x ++ drop (lo + k) arr)
       | _ => inl (ValueError "could not broadcast input array")
       end.

(** [reduce(add, l)] without an initial value. *)
Definition reduce_add (l : list Z) : Res Z :=
  match l with
  | [] => inl (TypeError "reduce() of empty sequence with no initial value")
  | x :: xs => inr (fold_left Z.add xs x)
  end.

(** [range(a, b)] *)
Definition range (a b : Z) : list Z := seqZ a (b - a).

(** [a % b] and [a // b] are [Z.modulo] and [Z.div] (floor convention),
    except that a zero divisor raises. *)
Definition mod_ (a b : Z) : Res Z :=
  if b =? 0 then inl ZeroDivisionError else inr (a mod b).

Definition floordiv (a b : Z) : Res Z :=
  if b =? 0 then inl ZeroDivisionError else inr (a / b).

(** [s.startswith("/")], [s.endswith("/")] *)
Definition starts_with_slash (s : string) : bool :=
  match s with String c _ => Ascii.eqb c "/" | EmptyString => false end.

Fixpoint ends_with_slash (s : string) : bool :=
  match s with
  | EmptyString => false
  | String c EmptyString => Ascii.eqb c "/"
  | String _ s' => ends_with_slash s'
  end.

(** [os.path.join(a, b)] (posixpath) and its n-ary form. *)
Definition path_join2 (path b : string) : string :=
  if starts_with_slash b then b
  else if String.eqb path "" || ends_with_slash path then path +:+ b
  else path +:+ "/" +:+ b.

Definition path_join (a : string) (p : list string) : string :=
  fold_left path_join2 p a.

(** [os.path.basename(p)]: what follows the last slash. *)
Fixpoint basename (p : string) : string :=
  match p with
  | EmptyString => EmptyString
  | String c p' =>
      if existsb (Ascii.eqb "/") (list_ascii_of_string p') then basename p'
      else if Ascii.eqb c "/" then p' else p
  end.

(** ["{0}".format(n)] for an integer. *)
Definition str_int (n : Z) : string := pretty n.

(** ["{0:04d}".format(n)]: sign-aware zero padding to width four. *)
Definition zfill (width : nat) (digits : string) : string :=
  string_of_list_ascii
    (replicate (width - String.length digits) "0"%char) +:+ digits.

Definition fmt_04d (n : Z) : string :=
  if n <? 0 then "-" +:+ zfill 3 (pretty (Z.abs n)) else zfill 4 (pretty n).

(** [int(s)] on a string: surrounding blanks, an optional sign, digits. *)
Definition is_blank (c : ascii) : bool :=
  Ascii.eqb c " " || Ascii.eqb c "009" || Ascii.eqb c "010" || Ascii.eqb c "013".

Fixpoint lstrip (s : list ascii) : list ascii :=
  match s with
  | c :: s' => if is_blank c then lstrip s' else s
  | [] => []
  end.

Definition strip (s : list ascii) : list ascii :=
  rev (lstrip (rev (lstrip s))).

Definition digit_val (c : ascii) : option Z :=
  let n := Z.of_nat (nat_of_ascii c) in
  if (48 <=? n) && (n <=? 57) then Some (n - 48) else None.

Fixpoint digits_val (acc : Z) (s : list ascii) : option Z :=
  match s with
  | [] => Some acc
  | c :: s' => match digit_val c with
               | Some d => digits_val (10 * acc + d) s'
               | None => None
               end
  end.

Definition int_of_str (s : string) : Res Z :=
  let bad := inl (ValueError "invalid literal for int()") in
  let unsigned (ds : list ascii) : option Z :=
    match ds with [] => None | _ => digits_val 0 ds end in
  match strip (list_ascii_of_string s) with
  | c :: ds =>
      if Ascii.eqb c "-" then
        match unsigned ds with Some n => inr (- n) | None => bad end
      else if Ascii.eqb c "+" then
        match unsigned ds with Some n => inr n | None => bad end
      else match unsigned (c :: ds) with Some n => inr n | None => bad end
  | [] => bad
  end.

End Py.

(** ** Collaborators, at their interface *)

(** Double-precision numbers with the operations the scripts apply to
    them.  A literal such as [0.5] or [-0.5] is [flit] of its decimal
    value (Python folds the sign into the constant). *)
Class PyFloat (F : Type) := {
  flit : Q -> F;
  fadd : F -> F -> F;
  fsub : F -> F -> F;
  fmul : F -> F -> F;
  fge : F -> F -> bool;
  float_of_str : string -> option F;
  fmt_2f : F -> string
}.

Declare Scope float_scope.
Delimit Scope float_scope with flt.
Infix "⊕" := fadd (at level 50, left associativity) : float_scope.
Infix "⊖" := fsub (at level 50, left associativity) : float_scope.
Infix "⊗" := fmul (at level 40, left associativity) : float_scope.

(** Element-wise arithmetic of numpy on arrays of one shape, and the
    product of a scalar with an array. *)
Definition arr_add `{PyFloat F} (a b : list F) : list F := zip_with fadd a b.
Definition arr_sub `{PyFloat F} (a b : list F) : list F := zip_with fsub a b.
Definition arr_scale `{PyFloat F} (c : F) (a : list F) : list F := fmul c <$> a.
Definition arr_rsub `{PyFloat F} (c : F) (a : list F) : list F := fsub c <$> a.

(** [astropy.units]: attribute lookup on the module, and [to_string]. *)
Class Units (U : Type) := {
  units_getattr : string -> option U;
  unit_to_string : U -> string
}.

(** numpy's global generator: the state after [np.random.seed(n)] and one
    draw of [np.random.randint(low=0, high=h)]. *)
Class Rng (G : Type) := {
  seed_state : Z -> G;
  next_int : Z -> G -> Z * G
}.


(** A value with a unit. *)
Record Quantity (F U : Type) := mkQuantity { value : F; unit : U }.
Arguments mkQuantity {F U}.
Arguments value {F U}.
Arguments unit {F U}.

Module Pool.
(** [MPIWhirlPool]: [rank], [size] and [is_master()]. *)
Record t := mk { rank : Z; size : Z; is_master : bool }.
End Pool.

Module MapSet.
Record t := mk { storage : string; home : string }.
End MapSet.

Module PositionCatalog.
(** A table with columns [x], [y], [z] and the [AUNIT] entry of its
    metadata; [len] is the number of rows. *)
Record t (F : Type) := mk { AUNIT : option string; rows : list (F * F * F) }.
Arguments mk {F}.
Arguments AUNIT {F}.
Arguments rows {F}.
Definition len {F} (c : t F) : Z := Z.of_nat (length (rows c)).
Definition x {F} (c : t F) : list F := (fun r => r.1.1) <$> rows c.
Definition y {F} (c : t F) : list F := (fun r => r.1.2) <$> rows c.
Definition z {F} (c : t F) : list F := (fun r => r.2) <$> rows c.
End PositionCatalog.

Module Collection.
Record t := mk {
  storage : string;
  getMapSet : string -> MapSet.t;
  getCatalog : string -> MapSet.t
}.
End Collection.

Module TelescopicMapSet.
Record t (F : Type) := mk {
  storage : string;
  home : string;
  mapcollections : list Collection.t;
  redshifts : list F
}.
Arguments mk {F}.
Arguments storage {F}.
Arguments home {F}.
Arguments mapcollections {F}.
Arguments redshifts {F}.
End TelescopicMapSet.

Module Model.
(** [getCollection] is called with a geometry id by [singleRedshift] and
    with a box size and a side by [simulatedCatalog]. *)
Record t (F U : Type) := mk {
  Mpc_over_h : U;
  getCollection : string -> Collection.t;
  getCollection_box : Quantity F U -> string -> Collection.t;
  getTelescopicMapSet : string -> TelescopicMapSet.t F
}.
Arguments mk {F U}.
Arguments Mpc_over_h {F U}.
Arguments getCollection {F U}.
Arguments getCollection_box {F U}.
Arguments getTelescopicMapSet {F U}.
End Model.

Module Batch.
Record t (F U : Type) := mk { getModel : string -> Model.t F U }.
Arguments mk {F U}.
Arguments getModel {F U}.
End Batch.

(** The settings classes.  [MapSettings] and [TelescopicMapSettings] carry
    the same attributes except for the plane choice, which is one value
    per attribute in the first and one per collection in the second; the
    class of a settings object is the constructor of its [planes]. *)
Inductive PlaneChoice :=
| OneCollection (plane_set : string)
    (mix_nbody_realizations mix_cut_points mix_normals : list Z)
| PerCollection (plane_set : list string)
    (mix_nbody_realizations mix_cut_points mix_normals : list (list Z)).

Module MapSettings.
Record t (F U : Type) := mk {
  directory_name : string;
  override_with_local : bool;
  seed : Z;
  map_angle : Quantity F U;
  source_redshift : F;
  map_resolution : Z;
  planes : PlaneChoice;
  lens_map_realizations : Z;
  (** [None]: the attribute is absent or is [None]. *)
  plane_info_file : option string;
  convergence : bool;
  shear : bool;
  omega : bool;
  format : string
}.
Arguments mk {F U}.
Arguments directory_name {F U}.
Arguments override_with_local {F U}.
Arguments seed {F U}.
Arguments map_angle {F U}.
Arguments source_redshift {F U}.
Arguments map_resolution {F U}.
Arguments planes {F U}.
Arguments lens_map_realizations {F U}.
Arguments plane_info_file {F U}.
Arguments convergence {F U}.
Arguments shear {F U}.
Arguments omega {F U}.
Arguments format {F U}.
End MapSettings.

Module CatalogSettings.
Record t (U : Type) := mk {
  directory_name : string;
  override_with_local : bool;
  seed : Z;
  total_num_galaxies : Z;
  catalog_angle_unit : U;
  input_files : list string;
  plane_set : string;
  mix_nbody_realizations : list Z;
  mix_cut_points : list Z;
  mix_normals : list Z;
  lens_catalog_realizations : Z;
  (** [None]: the attribute is absent. *)
  realizations_per_subdirectory : option Z;
  format : string
}.
Arguments mk {U}.
Arguments directory_name {U}.
Arguments override_with_local {U}.
Arguments seed {U}.
Arguments total_num_galaxies {U}.
Arguments catalog_angle_unit {U}.
Arguments input_files {U}.
Arguments plane_set {U}.
Arguments mix_nbody_realizations {U}.
Arguments mix_cut_points {U}.
Arguments mix_normals {U}.
Arguments lens_catalog_realizations {U}.
Arguments realizations_per_subdirectory {U}.
Arguments format {U}.
End CatalogSettings.

(** What the scripts read from disk: text files by lines (without their
    line terminators), pickled settings, position catalogs, and which
    directories exist. *)
Record Disk (F U : Type) := mkDisk {
  read_lines : string -> option (list string);
  load_map_settings : string -> option (MapSettings.t F U);
  load_catalog_settings : string -> option (CatalogSettings.t U);
  read_catalog : string -> option (PositionCatalog.t F);
  path_exists : string -> bool
}.
Arguments mkDisk {F U}.
Arguments read_lines {F U}.
Arguments load_map_settings {F U}.
Arguments load_catalog_settings {F U}.
Arguments read_catalog {F U}.
Arguments path_exists {F U}.

(** ** The ray tracer and the events of a run *)

(** A lens as handed to [tracer.addLens]: plane file, distance, redshift. *)
Definition Lens (F U : Type) : Type := string * Quantity F U * F.

(** The rays handed to [tracer.shoot]: the regular grid of a map (built
    from the map angle and the resolution), or the galaxies of a catalog. *)
Inductive Rays (F U : Type) :=
| GridRays (map_angle : Quantity F U) (resolution : Z) (z : F)
| GalaxyRays (x y : list F) (angle_unit : U) (z : list F).
Arguments GridRays {F U}.
Arguments GalaxyRays {F U}.

(** [RayTracer]: [reorderLenses] may advance the global generator;
    [shoot(..., kind="jacobians")] returns the array of shape [(4, ...)],
    here its four rows, or raises. *)
Record RayTracer (F U G : Type) := mkRayTracer {
  reorderLenses : list (Lens F U) -> G -> G;
  shoot : list (Lens F U) -> Rays F U -> G -> Py.Res (list (list F)) * G
}.
Arguments mkRayTracer {F U G}.
Arguments reorderLenses {F U G}.
Arguments shoot {F U G}.

(** What a run does to the outside, in order. *)
Inductive Event (F U : Type) :=
| ESeed (n : Z)
| ERandint (high value : Z)
| EWritePositions (path : string)
| EMkdir (path : string)
| EBarrier
| ENewTracer (realization : Z)
| EAddLens (lens : Lens F U)
| EReorder
| EShoot (rays : Rays F U)
| ESaveConvergence (savename : string) (data : list F)
| ESaveShear (savename : string) (shear1 shear2 : list F)
| ESaveOmega (savename : string) (data : list F)
| ESaveCatalog (savename : string) (rows : list (F * F)).
Arguments ESeed {F U}.
Arguments ERandint {F U}.
Arguments EWritePositions {F U}.
Arguments EMkdir {F U}.
Arguments EBarrier {F U}.
Arguments ENewTracer {F U}.
Arguments EAddLens {F U}.
Arguments EReorder {F U}.
Arguments EShoot {F U}.
Arguments ESaveConvergence {F U}.
Arguments ESaveShear {F U}.
Arguments ESaveOmega {F U}.
Arguments ESaveCatalog {F U}.

(** The outcome of a computation: its result or exception, the generator
    state it leaves, and the events it caused. *)
Record Out (F U G A : Type) := mkOut {
  res : Py.Res A;
  rng : G;
  evs : list (Event F U)
}.
Arguments mkOut {F U G A}.
Arguments res {F U G A}.
Arguments rng {F U G A}.
Arguments evs {F U G A}.

Definition M (F U G A : Type) : Type := G -> Out F U G A.

#[export] Instance M_ret {F U G} : MRet (M F U G) :=
  fun A (a : A) g => mkOut (inr a) g [].

#[export] Instance M_bind {F U G} : MBind (M F U G) :=
  fun A B (f : A -> M F U G B) (m : M F U G A) g =>
    let o := m g in
    match res o with
    | inl e => mkOut (inl e) (rng o) (evs o)
    | inr a => let o' := f a (rng o) in
               mkOut (res o') (rng o') (evs o ++ evs o')
    end.

#[export] Instance Res_ret : MRet Py.Res := fun A (a : A) => inr a.

#[export] Instance Res_bind : MBind Py.Res :=
  fun A B (f : A -> Py.Res B) (m : Py.Res A) =>
    match m with inl e => inl e | inr a => f a end.

Definition lift {F U G A} (r : Py.Res A) : M F U G A := fun g => mkOut r g [].

Definition raise {F U G A} (e : Py.Exn) : M F U G A := lift (inl e).

Definition emit {F U G} (e : Event F U) : M F U G () :=
  fun g => mkOut (inr ()) g [e].

(** [assert cond, msg] *)
Definition assert_ (cond : bool) (msg : string) : Py.Res () :=
  if cond then inr () else inl (Py.AssertionError msg).

(** [np.random.seed(n)]: the seed must fit in 32 bits. *)
Definition np_random_seed {F U G} `{Rng G} (n : Z) : M F U G () :=
  if (0 <=? n) && (n <? 2 ^ 32)
  then fun _ => mkOut (inr ()) (seed_state n) [ESeed n]
  else raise (Py.ValueError "Seed must be between 0 and 2**32 - 1").

(** [np.random.randint(low=0, high=h)] *)
Definition randint {F U G} `{Rng G} (high : Z) : M F U G Z :=
  if 0 <? high
  then fun g => let vg := next_int high g in
                mkOut (inr vg.1) vg.2 [ERandint high vg.1]
  else raise (Py.ValueError "low >= high").

(** [np.random.randint(low=0, high=h, size=(rows, cols))], filled in row
    order. *)
Fixpoint randint_row {F U G} `{Rng G} (high : Z) (cols : nat) : M F U G (list Z) :=
  match cols with
  | O => mret []
  | S n => v ← randint high; vs ← randint_row high n; mret (v :: vs)
  end.

Fixpoint randint_rows {F U G} `{Rng G} (high : Z) (rows cols : nat)
  : M F U G (list (list Z)) :=
  match rows with
  | O => mret []
  | S n => r ← randint_row high cols; rs ← randint_rows high n cols; mret (r :: rs)
  end.

Definition randint_table {F U G} `{Rng G} (high : Z) (rows cols : nat)
  : M F U G (list (list Z)) :=
  if 0 <? high then randint_rows high rows cols
  else raise (Py.ValueError "low >= high").

(** A [for] loop over a list, threading the variables the body rebinds. *)
Fixpoint for_ {F U G A S} (xs : list A) (body : A -> S -> M F U G S) (s : S)
  : M F U G S :=
  match xs with
  | [] => mret s
  | x :: xs' => s' ← body x s; for_ xs' body s'
  end.

(** ** [lenstools/scripts/raytracing.py] *)

Section Scripts.
Context {F U G : Type} `{!PyFloat F} `{!Units U} `{!Rng G}.

Local Open Scope float_scope.

(** [_subdirectories(num_realizations, realizations_in_subdir)] *)
Definition _subdirectories (num_realizations realizations_in_subdir : Z)
  : Py.Res (list string) :=
  m ← Py.mod_ num_realizations realizations_in_subdir;
  _ ← assert_ (m =? 0)
        "The number of realizations in each subdirectory must be the same!";
  if num_realizations =? realizations_in_subdir then mret []
  else
    q ← Py.floordiv num_realizations realizations_in_subdir;
    mret ((fun c => Py.str_int (c * realizations_in_subdir + 1) +:+ "-"
                    +:+ Py.str_int ((c + 1) * realizations_in_subdir))
          <$> Py.range 0 q).

(** The realizations of one task (lines 158-168 and 450-460): the bounds
    of the half-open range [first, last). *)
Definition task_realizations (pool : option Pool.t) (realizations : Z)
    (msg : string) : Py.Res (Z * Z) :=
  match pool with
  | None => mret (0, realizations)
  | Some p =>
      m ← Py.mod_ realizations (Pool.size p + 1);
      _ ← assert_ (m =? 0) msg;
      realizations_per_task ← Py.floordiv realizations (Pool.size p + 1);
      mret (realizations_per_task * Pool.rank p,
            realizations_per_task * (Pool.rank p + 1))
  end.

(** [(pool is None) or (pool.is_master())] *)
Definition is_master (pool : option Pool.t) : bool :=
  match pool with None => true | Some p => Pool.is_master p end.

(** [settings.seed + pool.rank], or [settings.seed] without a pool
    (lines 108-112 and 364-368). *)
Definition task_seed (pool : option Pool.t) (seed : Z) : Z :=
  match pool with Some p => seed + Pool.rank p | None => seed end.

(** [float(s)] *)
Definition float (s : string) : Py.Res F :=
  match float_of_str s with
  | Some x => inr x
  | None => inl (Py.ValueError "could not convert string to float")
  end.

(** [getattr(u, name)] on the units module. *)
Definition getattr_u (name : string) : Py.Res U :=
  match units_getattr name with
  | Some x => inr x
  | None => inl (Py.AttributeError name)
  end.

(** [a, b = s.split(sep)] *)
Definition unpack2 (l : list string) : Py.Res (string * string) :=
  match l with
  | [a; b] => inr (a, b)
  | _ => inl (Py.ValueError "wrong number of values to unpack")
  end.

(** One line of [info.txt] (lines 224-235 and 512-521): the snapshot
    number, the distance with its unit, the redshift. *)
Definition parse_info_line (model : Model.t F U) (line : string)
  : Py.Res (Z * Quantity F U * F) :=
  let line := Py.split "," line in
  field0 ← Py.index line 0;
  text0 ← Py.index (Py.split "=" field0) 1;
  snapshot_number ← Py.int_of_str text0;
  field1 ← Py.index line 1;
  text1 ← Py.index (Py.split "=" field1) 1;
  '(distance, unit) ← unpack2 (Py.split " " text1);
  distance ←
    (if String.eqb unit "Mpc/h" then
       d ← float distance;
       mret (mkQuantity d (Model.Mpc_over_h model))
     else
       d ← float distance;
       u ← getattr_u "unit";
       mret (mkQuantity d u));
  field2 ← Py.index line 2;
  text2 ← Py.index (Py.split "=" field2) 1;
  lens_redshift ← float text2;
  mret (snapshot_number, distance, lens_redshift).

(** [os.path.join("{0}","ic{1}","{2}").format(storage, ic, plane_set)] *)
Definition plane_path (storage : string) (ic : Z) (plane_set : string) : string :=
  storage +:+ "/ic" +:+ Py.str_int ic +:+ "/" +:+ plane_set.

(** ["snap{0}_potentialPlane{1}_normal{2}.fits".format(...)] *)
Definition plane_file (snapshot_number cut_point normal : Z) : string :=
  "snap" +:+ Py.str_int snapshot_number +:+ "_potentialPlane"
  +:+ Py.str_int cut_point +:+ "_normal" +:+ Py.str_int normal +:+ ".fits".

(** Lines 238-240: the last collection whose cut redshift the lens
    reaches; [c] keeps its value when there is none. *)
Definition select_collection (cut_redshifts : list F) (lens_redshift : F)
    (c : option nat) : option nat :=
  fold_left (fun c nz => if fge lens_redshift nz.2 then Some nz.1 else c)
            (imap pair cut_redshifts) c.

(** Reading a local variable that may not have been bound yet. *)
Definition read_local (name : string) (c : option nat) : Py.Res Z :=
  match c with
  | Some n => inr (Z.of_nat n)
  | None => inl (Py.UnboundLocalError name)
  end.

(** The local variables of [singleRedshift] once the settings are read
    (lines 56-154). *)
Record MapRun := mkMapRun {
  run_model : Model.t F U;
  run_collection : list Collection.t;
  run_map_batch : MapSet.t;
  run_cut_redshifts : list F;
  run_plane_set : list string;
  run_nbody_realizations : list (list Z);
  run_cut_points : list (list Z);
  run_normals : list (list Z)
}.

(** Lines 215-253 of [singleRedshift]: the snapshot loop of one
    realization.  It returns the lenses added and the last value of the
    local [c]. *)
Fixpoint add_lenses (run : MapRun) (lines : list string)
    (c : option nat) (lenses : list (Lens F U))
  : M F U G (option nat * list (Lens F U)) :=
  match lines with
  | [] => mret (c, lenses)
  | line :: rest =>
      if String.eqb line "" then mret (c, lenses)
      else
        '(snapshot_number, distance, lens_redshift) ←
          lift (parse_info_line (run_model run) line);
        let c := select_collection (run_cut_redshifts run) lens_redshift c in
        ci ← lift (read_local "c" c);
        nb ← lift (Py.index (run_nbody_realizations run) ci);
        nbody ← randint (Z.of_nat (length nb));
        cp ← lift (Py.index (run_cut_points run) ci);
        cut ← randint (Z.of_nat (length cp));
        nm ← lift (Py.index (run_normals run) ci);
        normal ← randint (Z.of_nat (length nm));
        coll ← lift (Py.index (run_collection run) ci);
        ic ← lift (Py.index nb nbody);
        ps ← lift (Py.index (run_plane_set run) ci);
        cut_point ← lift (Py.index cp cut);
        normal_axis ← lift (Py.index nm normal);
        let plane_name :=
          Py.path_join (plane_path (Collection.storage coll) ic ps)
                       [plane_file snapshot_number cut_point normal_axis] in
        let lens := (plane_name, distance, lens_redshift) in
        _ ← emit (EAddLens lens);
        add_lenses run rest c (lenses ++ [lens])
  end.

(** The maps of lines 284, 293 and 302, from the four rows of the
    Jacobian. *)
Definition convergence_of (j0 j3 : list F) : list F :=
  arr_rsub (flit 1) (arr_scale (flit (1 # 2)) (arr_add j0 j3)).

Definition shear1_of (j0 j3 : list F) : list F :=
  arr_scale (flit (1 # 2)) (arr_sub j3 j0).

Definition shear2_of (j1 j2 : list F) : list F :=
  arr_scale (flit (- (1 # 2))) (arr_add j1 j2).

Definition omega_of (j1 j2 : list F) : list F :=
  arr_scale (flit (- (1 # 2))) (arr_sub j2 j1).

(** ["WL<kind>_z{0:.2f}_{1:04d}r.{2}".format(source_redshift, r+1, format)]
    joined to the save path. *)
Definition map_savename (save_path kind : string) (source_redshift : F)
    (r : Z) (format : string) : string :=
  Py.path_join save_path
    ["WL" +:+ kind +:+ "_z" +:+ fmt_2f source_redshift +:+ "_"
     +:+ Py.fmt_04d (r + 1) +:+ "r." +:+ format].

(** Lines 281-305: the maps saved for realization [r]. *)
Definition save_maps (settings : MapSettings.t F U) (save_path : string)
    (r : Z) (jacobian : list (list F)) : M F U G () :=
  let name kind :=
    map_savename save_path kind (MapSettings.source_redshift settings) r
                 (MapSettings.format settings) in
  _ ← (if MapSettings.convergence settings then
         j0 ← lift (Py.index jacobian 0);
         j3 ← lift (Py.index jacobian 3);
         emit (ESaveConvergence (name "conv") (convergence_of j0 j3))
       else mret ());
  _ ← (if MapSettings.shear settings then
         j3 ← lift (Py.index jacobian 3);
         j0 ← lift (Py.index jacobian 0);
         j1 ← lift (Py.index jacobian 1);
         j2 ← lift (Py.index jacobian 2);
         emit (ESaveShear (name "shear") (shear1_of j0 j3) (shear2_of j1 j2))
       else mret ());
  if MapSettings.omega settings then
    j2 ← lift (Py.index jacobian 2);
    j1 ← lift (Py.index jacobian 1);
    emit (ESaveOmega (name "omega") (omega_of j1 j2))
  else mret ().

(** [tracer.reorderLenses()] and [tracer.shoot(...)] *)
Definition call_reorder (tracer : RayTracer F U G) (lenses : list (Lens F U))
  : M F U G () :=
  fun g => mkOut (inr ()) (reorderLenses tracer lenses g) [EReorder].

Definition call_shoot (tracer : RayTracer F U G) (lenses : list (Lens F U))
    (rays : Rays F U) : M F U G (list (list F)) :=
  fun g => let rg := shoot tracer lenses rays g in
           mkOut rg.1 rg.2 [EShoot rays].

(** Lines 199-309: one realization of [singleRedshift]. *)
Definition map_realization (tracer : RayTracer F U G)
    (settings : MapSettings.t F U) (run : MapRun) (lines : list string)
    (r : Z) (c : option nat) : M F U G (option nat) :=
  _ ← emit (ENewTracer r);
  '(c, lenses) ← add_lenses run lines c [];
  _ ← call_reorder tracer lenses;
  jacobian ← call_shoot tracer lenses
               (GridRays (MapSettings.map_angle settings)
                         (MapSettings.map_resolution settings)
                         (MapSettings.source_redshift settings));
  _ ← save_maps settings (MapSet.storage (run_map_batch run)) r jacobian;
  mret c.

(** Lines 56-89: the id and the handles.  The two map settings classes
    are the two constructors of [PlaneChoice]; a settings object of the
    class that does not fit the id fails the [isinstance] assertion. *)
Record MapHandles := mkMapHandles {
  h_model : Model.t F U;
  h_collection : list Collection.t;
  h_map_batch : MapSet.t;
  h_cut_redshifts : list F
}.

Definition read_handles (batch : Batch.t F U) (settings : MapSettings.t F U)
    (id : string) : Py.Res MapHandles :=
  match Py.split "|" id with
  | [cosmo_id; geometry_id] =>
      match MapSettings.planes settings with
      | OneCollection _ _ _ _ =>
          let model := Batch.getModel batch cosmo_id in
          let collection := Model.getCollection model geometry_id in
          mret (mkMapHandles model [collection]
                  (Collection.getMapSet collection
                     (MapSettings.directory_name settings))
                  [flit 0])
      | PerCollection _ _ _ _ =>
          inl (Py.AssertionError "isinstance(settings,MapSettings)")
      end
  | [cosmo_id] =>
      match MapSettings.planes settings with
      | PerCollection _ _ _ _ =>
          let model := Batch.getModel batch cosmo_id in
          let map_batch :=
            Model.getTelescopicMapSet model (MapSettings.directory_name settings) in
          mret (mkMapHandles model (TelescopicMapSet.mapcollections map_batch)
                  (MapSet.mk (TelescopicMapSet.storage map_batch)
                             (TelescopicMapSet.home map_batch))
                  (TelescopicMapSet.redshifts map_batch))
      | OneCollection _ _ _ _ =>
          inl (Py.AssertionError "isinstance(settings,TelescopicMapSettings)")
      end
  | _ => inl (Py.SystemExit 1)
  end.

(** Lines 92-102: the settings pickled in the map batch replace the given
    ones when these ask for it. *)
Definition override_map_settings (disk : Disk F U) (home : string)
    (settings : MapSettings.t F U) : Py.Res (MapSettings.t F U) :=
  if MapSettings.override_with_local settings then
    let local_settings_file := Py.path_join home ["settings.p"] in
    match load_map_settings disk local_settings_file with
    | Some s => inr s
    | None => inl (Py.IOError local_settings_file)
    end
  else inr settings.

(** Lines 119-154: the plane choice of the settings in force, one entry
    per collection; in telescopic mode every per-collection setting must
    have as many entries as there are collections.  Pickled settings of
    the class that does not fit the id are outside this typed model and
    are rejected. *)
Definition read_plane_choice (id : string) (h : MapHandles)
    (settings : MapSettings.t F U) : Py.Res MapRun :=
  let run := mkMapRun (h_model h) (h_collection h) (h_map_batch h)
                      (h_cut_redshifts h) in
  match Py.split "|" id, MapSettings.planes settings with
  | [_; _], OneCollection plane_set mix_nbody_realizations mix_cut_points mix_normals =>
      mret (run [plane_set] [mix_nbody_realizations] [mix_cut_points] [mix_normals])
  | [_], PerCollection plane_set mix_nbody_realizations mix_cut_points mix_normals =>
      let n := length (h_collection h) in
      if negb (length plane_set =? n)%nat
         || negb (length mix_nbody_realizations =? n)%nat
         || negb (length mix_cut_points =? n)%nat
         || negb (length mix_normals =? n)%nat
      then inl (Py.SystemExit 1)
      else mret (run plane_set mix_nbody_realizations mix_cut_points mix_normals)
  | _, _ => inl (Py.TypeError "settings of the other class")
  end.

(** Lines 177-181: the plane summary file. *)
Definition map_info_filename (settings : MapSettings.t F U) (run : MapRun)
  : Py.Res string :=
  match MapSettings.plane_info_file settings with
  | Some f => inr f
  | None =>
      coll ← Py.index (run_collection run) 0;
      nb ← Py.index (run_nbody_realizations run) 0;
      ic ← Py.index nb 0;
      ps ← Py.index (run_plane_set run) 0;
      mret (Py.path_join (plane_path (Collection.storage coll) ic ps) ["info.txt"])
  end.

(** [open(path).readlines()] *)
Definition open_lines (disk : Disk F U) (path : string) : Py.Res (list string) :=
  match read_lines disk path with
  | Some ls => inr ls
  | None => inl (Py.IOError path)
  end.

(** The value of the local [c] when the realization loop starts: the
    master's loop of lines 173-175 leaves the last collection index in
    it, the other tasks have not bound it. *)
Definition initial_c (pool : option Pool.t) (collection : list Collection.t)
  : option nat :=
  if is_master pool then
    match collection with [] => None | _ => Some (length collection - 1)%nat end
  else None.

Definition barrier (pool : option Pool.t) : M F U G () :=
  match pool with Some _ => emit EBarrier | None => mret () end.

(** [singleRedshift(pool, batch, settings, id)] *)
Definition singleRedshift (tracer : RayTracer F U G) (disk : Disk F U)
    (pool : option Pool.t) (batch : Batch.t F U)
    (settings : MapSettings.t F U) (id : string) : M F U G () :=
  handles ← lift (read_handles batch settings id);
  settings ← lift (override_map_settings disk
                     (MapSet.home (h_map_batch handles)) settings);
  _ ← np_random_seed (task_seed pool (MapSettings.seed settings));
  run ← lift (read_plane_choice id handles settings);
  '(first_map_realization, last_map_realization) ←
    lift (task_realizations pool (MapSettings.lens_map_realizations settings)
            "Perfect load-balancing enforced, map_realizations must be a multiple of the number of MPI tasks!");
  info_filename ← lift (map_info_filename settings run);
  lines ← lift (open_lines disk info_filename);
  _ ← for_ (Py.range first_map_realization last_map_realization)
        (map_realization tracer settings run lines)
        (initial_c pool (run_collection run));
  barrier pool.

(** *** Catalog mode *)

(** Lines 334-346: the id, the model, the collection and the catalog
    handle. *)
Definition read_catalog_handles (batch : Batch.t F U)
    (settings : CatalogSettings.t U) (id : string)
  : Py.Res (Model.t F U * Collection.t * MapSet.t) :=
  '(cosmo_id, geometry_id) ← unpack2 (Py.split "|" id);
  let model := Batch.getModel batch cosmo_id in
  '(nside, box_size) ← unpack2 (Py.split "b" geometry_id);
  box ← float box_size;
  let box_size := mkQuantity box (Model.Mpc_over_h model) in
  let collection := Model.getCollection_box model box_size nside in
  mret (model, collection,
        Collection.getCatalog collection (CatalogSettings.directory_name settings)).

(** Lines 348-358. *)
Definition override_catalog_settings (disk : Disk F U) (home : string)
    (settings : CatalogSettings.t U) : Py.Res (CatalogSettings.t U) :=
  if CatalogSettings.override_with_local settings then
    let local_settings_file := Py.path_join home ["settings.p"] in
    match load_catalog_settings disk local_settings_file with
    | Some s => inr s
    | None => inl (Py.IOError local_settings_file)
    end
  else inr settings.

(** The arrays filled by the loop over the input files, and the list
    [galaxies_in_catalog]. *)
Record Galaxies := mkGalaxies {
  initial_positions_x : list F;
  initial_positions_y : list F;
  galaxy_redshift : list F;
  galaxies_in_catalog : list Z
}.

(** [try: reduce(add, l) except TypeError: 0] *)
Definition galaxies_before_of (counts : list Z) : Z :=
  match Py.reduce_add counts with inr n => n | inl _ => 0 end.

Definition catalog_read (disk : Disk F U) (file : string)
  : Py.Res (PositionCatalog.t F) :=
  match read_catalog disk file with
  | Some c => inr c
  | None => inl (Py.IOError file)
  end.

Definition meta_AUNIT (c : PositionCatalog.t F) : Py.Res string :=
  match PositionCatalog.AUNIT c with
  | Some a => inr a
  | None => inl (Py.KeyError "AUNIT")
  end.

(** Lines 386-415: one input file.  The unit found under the name [AUNIT]
    is the unit of the settings by the assertion on its name, so the
    values are stored as they are. *)
Definition load_catalog_file (disk : Disk F U) (pool : option Pool.t)
    (settings : CatalogSettings.t U) (catalog_save_path : string)
    (galaxy_position_file : string) (st : Galaxies) : M F U G Galaxies :=
  let galaxies_before := galaxies_before_of (galaxies_in_catalog st) in
  position_catalog ← lift (catalog_read disk galaxy_position_file);
  aunit ← lift (meta_AUNIT position_catalog);
  _ ← lift (assert_
        (String.eqb aunit
           (unit_to_string (CatalogSettings.catalog_angle_unit settings)))
        "Catalog angle units do not match with the ones privided in the settings");
  let counts := galaxies_in_catalog st ++ [PositionCatalog.len position_catalog] in
  _ ← (if is_master pool then
         emit (EWritePositions
                 (Py.path_join catalog_save_path
                               [Py.basename galaxy_position_file]))
       else mret ());
  let last := galaxies_before + PositionCatalog.len position_catalog in
  _ ← lift (getattr_u aunit);
  xs ← lift (Py.slice_assign (initial_positions_x st) galaxies_before last
               (PositionCatalog.x position_catalog));
  _ ← lift (getattr_u aunit);
  ys ← lift (Py.slice_assign (initial_positions_y st) galaxies_before last
               (PositionCatalog.y position_catalog));
  zs ← lift (Py.slice_assign (galaxy_redshift st) galaxies_before last
               (PositionCatalog.z position_catalog));
  mret (mkGalaxies xs ys zs counts).

(** [np.zeros(n)] *)
Definition np_zeros (n : Z) : Py.Res (list F) :=
  if n <? 0 then inl (Py.ValueError "negative dimensions are not allowed")
  else inr (replicate (Z.to_nat n) (flit 0)).

(** Lines 376-418: the galaxies are loaded and their number is checked
    against the settings. *)
Definition load_galaxies (disk : Disk F U) (pool : option Pool.t)
    (settings : CatalogSettings.t U) (catalog_save_path : string)
  : M F U G Galaxies :=
  let total_num_galaxies := CatalogSettings.total_num_galaxies settings in
  zeros ← lift (np_zeros total_num_galaxies);
  st ← for_ (CatalogSettings.input_files settings)
         (load_catalog_file disk pool settings catalog_save_path)
         (mkGalaxies zeros zeros zeros []);
  sum ← lift (Py.reduce_add (galaxies_in_catalog st));
  _ ← lift (assert_ (sum =? total_num_galaxies)
        "The total number of galaxies in the catalogs does not match the number provided in the settings");
  mret st.

(** Lines 430-444: the subdirectories, made by the master when missing. *)
Definition realizations_in_subdir_of (settings : CatalogSettings.t U) : Z :=
  match CatalogSettings.realizations_per_subdirectory settings with
  | Some k => k
  | None => CatalogSettings.lens_catalog_realizations settings
  end.

Definition make_subdirectories (disk : Disk F U) (pool : option Pool.t)
    (catalog_save_path : string) (catalog_subdirectory : list string)
  : M F U G () :=
  if is_master pool then
    for_ catalog_subdirectory
      (fun d _ =>
         let dir_to_make := Py.path_join catalog_save_path [d] in
         if path_exists disk dir_to_make then mret ()
         else emit (EMkdir dir_to_make))
      ()
  else mret ().

(** [os.path.join(collection.storage,"ic{0}",settings.plane_set).format(ic)]:
    the placeholder sits in a component of its own, so filling it before
    or after the join gives the same path. *)
Definition catalog_plane_path (storage plane_set : string) (ic : Z) : string :=
  Py.path_join storage ["ic" +:+ Py.str_int ic; plane_set].

(** Lines 474-478: the randomization matrix, of shape
    [(catalog_realizations, num_snapshots, 3)]. *)
Definition zeros3 (rows cols : nat) : list (list (list Z)) :=
  replicate rows (replicate cols [0; 0; 0]).

(** [randomizer[:,:,k] = table] *)
Definition assign_component (k : nat) (table : list (list Z))
    (randomizer : list (list (list Z))) : list (list (list Z)) :=
  zip_with (zip_with (fun v cell => <[k := v]> cell)) table randomizer.

Definition draw_randomizer (settings : CatalogSettings.t U)
    (catalog_realizations : Z) (num_snapshots : nat)
  : M F U G (list (list (list Z))) :=
  _ ← lift (if catalog_realizations <? 0
            then inl (Py.ValueError "negative dimensions are not allowed")
            else inr ());
  let rows := Z.to_nat catalog_realizations in
  t0 ← randint_table
         (Z.of_nat (length (CatalogSettings.mix_nbody_realizations settings)))
         rows num_snapshots;
  t1 ← randint_table
         (Z.of_nat (length (CatalogSettings.mix_cut_points settings)))
         rows num_snapshots;
  t2 ← randint_table
         (Z.of_nat (length (CatalogSettings.mix_normals settings)))
         rows num_snapshots;
  mret (assign_component 2 t2
          (assign_component 1 t1
             (assign_component 0 t0 (zeros3 rows num_snapshots)))).

(** [randomizer[r,s,k]] *)
Definition index3 (randomizer : list (list (list Z))) (r s k : Z) : Py.Res Z :=
  row ← Py.index randomizer r;
  cell ← Py.index row s;
  Py.index cell k.

(** Line 527: the plane of realization [r] and snapshot line [s]. *)
Definition catalog_plane_name (settings : CatalogSettings.t U)
    (storage : string) (randomizer : list (list (list Z)))
    (r s snapshot_number : Z) : Py.Res string :=
  i0 ← index3 randomizer r s 0;
  ic ← Py.index (CatalogSettings.mix_nbody_realizations settings) i0;
  i1 ← index3 randomizer r s 1;
  cut_point ← Py.index (CatalogSettings.mix_cut_points settings) i1;
  i2 ← index3 randomizer r s 2;
  normal ← Py.index (CatalogSettings.mix_normals settings) i2;
  mret (Py.path_join
          (catalog_plane_path storage (CatalogSettings.plane_set settings) ic)
          [plane_file snapshot_number cut_point normal]).

(** Lines 503-528: the snapshot loop of one catalog realization, from
    line [s] of the plane summary on. *)
Fixpoint add_catalog_lenses (model : Model.t F U)
    (settings : CatalogSettings.t U) (storage : string)
    (randomizer : list (list (list Z))) (r : Z)
    (s : Z) (lines : list string) (lenses : list (Lens F U))
  : M F U G (list (Lens F U)) :=
  match lines with
  | [] => mret lenses
  | line :: rest =>
      if String.eqb line "" then mret lenses
      else
        '(snapshot_number, distance, lens_redshift) ←
          lift (parse_info_line model line);
        plane_name ← lift (catalog_plane_name settings storage randomizer
                             r s snapshot_number);
        let lens := (plane_name, distance, lens_redshift) in
        _ ← emit (EAddLens lens);
        add_catalog_lenses model settings storage randomizer r (s + 1) rest
                           (lenses ++ [lens])
  end.

(** Line 552: the combined shear catalog, one row per galaxy. *)
Definition shear_catalog_of (jacobian : list (list F)) : Py.Res (list (F * F)) :=
  j3 ← Py.index jacobian 3;
  j0 ← Py.index jacobian 0;
  j1 ← Py.index jacobian 1;
  j2 ← Py.index jacobian 2;
  mret (zip (shear1_of j0 j3) (shear2_of j1 j2)).

(** Lines 561-565: where the shear catalog of one input file is saved. *)
Definition shear_catalog_savename (catalog_save_path : string)
    (catalog_subdirectory : list string) (realizations_in_subdir : Z)
    (galaxy_position_file : string) (r : Z) (format : string) : Py.Res string :=
  let name (_ : ()) : Py.Res string :=
    stem ← Py.index (Py.split "." galaxy_position_file) 0;
    mret ("WLshear_" +:+ Py.basename stem +:+ "_" +:+ Py.fmt_04d (r + 1)
          +:+ "r." +:+ format) in
  if negb (length catalog_subdirectory =? 0)%nat then
    c ← Py.floordiv r realizations_in_subdir;
    d ← Py.index catalog_subdirectory c;
    n ← name ();
    mret (Py.path_join catalog_save_path [d; n])
  else
    n ← name ();
    mret (Py.path_join catalog_save_path [n]).

(** Lines 554-568: the part of the shear catalog that belongs to input
    file [n] is written under its name. *)
Definition save_file_catalog (settings : CatalogSettings.t U)
    (catalog_save_path : string) (catalog_subdirectory : list string)
    (realizations_in_subdir : Z) (counts : list Z)
    (shear_catalog : list (F * F)) (r : Z)
    (n : Z) (galaxy_position_file : string) : M F U G () :=
  let galaxies_before := galaxies_before_of (Py.slice_to counts n) in
  savename ← lift (shear_catalog_savename catalog_save_path
                     catalog_subdirectory realizations_in_subdir
                     galaxy_position_file r (CatalogSettings.format settings));
  count ← lift (Py.index counts n);
  emit (ESaveCatalog savename
          (Py.slice shear_catalog galaxies_before (galaxies_before + count))).

(** [for n, x in enumerate(xs)] *)
Fixpoint for_enumerate {A} (n : Z) (xs : list A) (body : Z -> A -> M F U G ())
  : M F U G () :=
  match xs with
  | [] => mret ()
  | x :: xs' => _ ← body n x; for_enumerate (n + 1) xs' body
  end.

Definition save_catalogs (settings : CatalogSettings.t U)
    (catalog_save_path : string) (catalog_subdirectory : list string)
    (realizations_in_subdir : Z) (counts : list Z)
    (shear_catalog : list (F * F)) (r : Z) : M F U G () :=
  for_enumerate 0 (CatalogSettings.input_files settings)
    (save_file_catalog settings catalog_save_path catalog_subdirectory
       realizations_in_subdir counts shear_catalog r).

(** Lines 487-572: one realization of [simulatedCatalog]. *)
Definition catalog_realization (tracer : RayTracer F U G)
    (model : Model.t F U) (settings : CatalogSettings.t U)
    (storage catalog_save_path : string)
    (catalog_subdirectory : list string) (realizations_in_subdir : Z)
    (galaxies : Galaxies) (randomizer : list (list (list Z)))
    (lines : list string) (r : Z) (_ : ()) : M F U G () :=
  _ ← emit (ENewTracer r);
  lenses ← add_catalog_lenses model settings storage randomizer r 0 lines [];
  _ ← call_reorder tracer lenses;
  jacobian ← call_shoot tracer lenses
               (GalaxyRays (initial_positions_x galaxies)
                           (initial_positions_y galaxies)
                           (CatalogSettings.catalog_angle_unit settings)
                           (galaxy_redshift galaxies));
  shear_catalog ← lift (shear_catalog_of jacobian);
  save_catalogs settings catalog_save_path catalog_subdirectory
    realizations_in_subdir (galaxies_in_catalog galaxies) shear_catalog r.

(** Lines 470-471: the plane summary of the first N-body realization. *)
Definition catalog_info_filename (settings : CatalogSettings.t U)
    (storage : string) : Py.Res string :=
  ic ← Py.index (CatalogSettings.mix_nbody_realizations settings) 0;
  mret (Py.path_join
          (catalog_plane_path storage (CatalogSettings.plane_set settings) ic)
          ["info.txt"]).

(** [simulatedCatalog(pool, batch, settings, id)] *)
Definition simulatedCatalog (tracer : RayTracer F U G) (disk : Disk F U)
    (pool : option Pool.t) (batch : Batch.t F U)
    (settings : CatalogSettings.t U) (id : string) : M F U G () :=
  '(model, collection, catalog) ← lift (read_catalog_handles batch settings id);
  settings ← lift (override_catalog_settings disk (MapSet.home catalog) settings);
  _ ← np_random_seed (task_seed pool (CatalogSettings.seed settings));
  let catalog_save_path := MapSet.storage catalog in
  galaxies ← load_galaxies disk pool settings catalog_save_path;
  let catalog_realizations := CatalogSettings.lens_catalog_realizations settings in
  let realizations_in_subdir := realizations_in_subdir_of settings in
  catalog_subdirectory ←
    lift (_subdirectories catalog_realizations realizations_in_subdir);
  _ ← make_subdirectories disk pool catalog_save_path catalog_subdirectory;
  _ ← barrier pool;
  '(first_realization, last_realization) ←
    lift (task_realizations pool catalog_realizations
            "Perfect load-balancing enforced, catalog_realizations must be a multiple of the number of MPI tasks!");
  let storage := Collection.storage collection in
  info_filename ← lift (catalog_info_filename settings storage);
  lines ← lift (open_lines disk info_filename);
  randomizer ← draw_randomizer settings catalog_realizations (length lines);
  _ ← for_ (Py.range first_realization last_realization)
        (catalog_realization tracer model settings storage catalog_save_path
           catalog_subdirectory realizations_in_subdir galaxies randomizer lines)
        ();
  barrier pool.

End Scripts.

(** ** Vocabulary of the statements *)

(** The realizations one task loops over. *)
Definition task_range (pool : option Pool.t) (realizations : Z) (msg : string)
  : list Z :=
  match task_realizations pool realizations msg with
  | inr (first, last) => Py.range first last
  | inl _ => []
  end.

Definition is_seed {F U} (e : Event F U) : bool :=
  match e with ESeed _ => true | _ => false end.


Definition is_new_tracer {F U} (e : Event F U) : bool :=
  match e with ENewTracer _ => true | _ => false end.

Definition is_shoot {F U} (e : Event F U) : bool :=
  match e with EShoot _ => true | _ => false end.

(** The realizations begun, in order. *)
Definition realizations_begun {F U} (l : list (Event F U)) : list Z :=
  omap (fun e => match e with ENewTracer r => Some r | _ => None end) l.

(** The shear catalogs written, in order. *)
Definition saved_catalogs {F U} (l : list (Event F U))
  : list (string * list (F * F)) :=
  omap (fun e => match e with
                 | ESaveCatalog savename rows => Some (savename, rows)
                 | _ => None
                 end) l.

(** Every event of a computation satisfies [P], from any generator state. *)
Definition emits {F U G A} (P : Event F U -> Prop) (m : M F U G A) : Prop :=
  forall g, Forall P (evs (m g)).

(** The settings a run works with once lines 92-102 (348-358) have
    looked at [override_with_local]; [None] when the run stops before. *)
Definition map_settings_in_force {F U} `{!PyFloat F} (disk : Disk F U)
    (batch : Batch.t F U) (settings : MapSettings.t F U) (id : string)
  : option (MapSettings.t F U) :=
  match read_handles batch settings id with
  | inr h =>
      match override_map_settings disk (MapSet.home (h_map_batch h)) settings with
      | inr s => Some s
      | inl _ => None
      end
  | inl _ => None
  end.

Definition catalog_settings_in_force {F U} `{!PyFloat F} (disk : Disk F U)
    (batch : Batch.t F U) (settings : CatalogSettings.t U) (id : string)
  : option (CatalogSettings.t U) :=
  match read_catalog_handles batch settings id with
  | inr (_, _, catalog) =>
      match override_catalog_settings disk (MapSet.home catalog) settings with
      | inr s => Some s
      | inl _ => None
      end
  | inl _ => None
  end.

(** Where a catalog run saves: [catalog.storage]. *)
Definition catalog_save_path_of {F U} `{!PyFloat F} (batch : Batch.t F U)
    (settings : CatalogSettings.t U) (id : string) : option string :=
  match read_catalog_handles batch settings id with
  | inr (_, _, catalog) => Some (MapSet.storage catalog)
  | inl _ => None
  end.


(** A computation that raises from every generator state, all its events
    satisfying [P]. *)
Definition fails_with {F U G A} (P : Event F U -> Prop) (m : M F U G A) : Prop :=
  forall g, (exists e, res (m g) = inl e) /\ Forall P (evs (m g)).

(** The arrays of [st] all have [n] entries. *)
Definition filled {F} (n : nat) (st : Galaxies (F:=F)) : Prop :=
  length (initial_positions_x st) = n
  /\ length (initial_positions_y st) = n
  /\ length (galaxy_redshift st) = n.



(** The events of a computation come in two phases: first events that
    satisfy [P], then events that satisfy [Q]. *)
Definition two_phases {F U G A} (P Q : Event F U -> Prop) (m : M F U G A)
  : Prop :=
  forall g, exists before after,
    evs (m g) = before ++ after /\ Forall P before /\ Forall Q after.

(** The name of a file without its directories and without its
    extension, as the specification words it: what follows the last
    slash, up to the last dot. *)
Definition without_extension (name : string) : string :=
  match rev (Py.split "." name) with
  | _ :: (_ :: _) as front => String.concat "." (rev front)
  | _ => name
  end.

Definition basename_without_extension (file : string) : string :=
  without_extension (Py.basename file).

(** [sum(counts)] *)
Definition sum_counts (counts : list Z) : Z := foldr Z.add 0 counts.

(** The subdirectory label of bucket [c]. *)
Definition subdirectory_label (realizations_in_subdir c : Z) : string :=
  Py.str_int (c * realizations_in_subdir + 1) +:+ "-"
  +:+ Py.str_int ((c + 1) * realizations_in_subdir).

(** ** [lenstools/simulations/fastpm.py] *)

Module FastPM.

(** An attribute of the bigfile header block: an array of integers or of
    floating-point numbers. *)
Inductive Attr (F : Type) :=
| IntAttr (a : list Z)
| FloatAttr (a : list F).
Arguments IntAttr {F}.
Arguments FloatAttr {F}.

(** A value of the lenstools header dictionary. *)
Inductive HeaderValue (F : Type) :=
| HInt (n : Z)
| HFloat (x : F)
| HArray (a : list F).
Arguments HInt {F}.
Arguments HFloat {F}.
Arguments HArray {F}.

Section Header.
Context {F : Type} `{!PyFloat F}.
Local Open Scope float_scope.

(** [bf_header[name][0]] for an integer and for a floating-point
    attribute. *)
Definition attr_int (bf_header : gmap string (Attr F)) (name : string)
  : Py.Res Z :=
  match bf_header !! name with
  | None => inl (Py.KeyError name)
  | Some (IntAttr a) => Py.index a 0
  | Some (FloatAttr _) => inl (Py.TypeError "integer attribute expected")
  end.

Definition attr_float (bf_header : gmap string (Attr F)) (name : string)
  : Py.Res F :=
  match bf_header !! name with
  | None => inl (Py.KeyError name)
  | Some (FloatAttr a) => Py.index a 0
  | Some (IntAttr _) => inl (Py.TypeError "float attribute expected")
  end.

(** [FastPMSnapshot.getHeader], on the attributes of [self.fp["."]].  The
    particle number is the integer power; the width of the stored integer
    is the file's and is not fixed by the source. *)
Definition getHeader (bf_header : gmap string (Attr F))
  : Py.Res (gmap string (HeaderValue F)) :=
  let header : gmap string (HeaderValue F) := ∅ in
  nc ← attr_int bf_header "NC";
  let num_particles_file := nc ^ 3 in
  let header := <["num_particles_file" := HInt num_particles_file]> header in
  let header := <["num_particles_total" := HInt num_particles_file]> header in
  let header := <["num_files" := HInt 1]> header in
  om0 ← attr_float bf_header "OmegaM";
  let header := <["Om0" := HFloat om0]> header in
  let header := <["Ode0" := HFloat (flit 1 ⊖ om0)]> header in
  let header := <["w0" := HFloat (flit (-1))]> header in
  let header := <["wa" := HFloat (flit 0)]> header in
  let h := flit (72 # 100) in
  let header := <["h" := HFloat h]> header in
  box_size ← attr_float bf_header "BoxSize";
  let header := <["box_size" := HFloat (box_size ⊗ flit 1000)]> header in
  m0 ← attr_float bf_header "M0";
  let header :=
    <["masses" := HArray [flit 0; m0 ⊗ h; flit 0; flit 0; flit 0; flit 0]]>
      header in
  mret header.

End Header.
End FastPM.

(** ** A concrete instance, to run the scripts on examples *)

Module Demo.

(** Exact rationals in lowest terms stand for the floating-point numbers;
    [float] reads plain decimals. *)
Definition Q_of_str (s : string) : option Q :=
  let digits (t : string) : option (Z * nat) :=
    match list_ascii_of_string t with
    | [] => None
    | ds => n ← Py.digits_val 0 ds; Some (n, length ds)
    end in
  match Py.split "." s with
  | [ip] => '(n, _) ← digits ip; Some (inject_Z n)
  | [ip; fp] =>
      '(n, _) ← digits ip;
      '(m, k) ← digits fp;
      Some (Qred (Qmake (n * 10 ^ Z.of_nat k + m) (Z.to_pos (10 ^ Z.of_nat k))))
  | _ => None
  end.

Definition Q_fmt_2f (x : Q) : string :=
  let n := Qfloor (x * 100 + (1 # 2))%Q in
  pretty (n / 100) +:+ "." +:+ Py.zfill 2 (pretty (n mod 100)).

#[global] Instance Q_float : PyFloat Q := {|
  flit := Qred;
  fadd x y := Qred (x + y);
  fsub x y := Qred (x - y);
  fmul x y := Qred (x * y);
  fge x y := Qle_bool y x;
  float_of_str := Q_of_str;
  fmt_2f := Q_fmt_2f
|}.

(** Units are their names; the module knows a handful of them. *)
#[global] Instance named_units : Units string := {|
  units_getattr name :=
    if bool_decide (name ∈ ["Mpc"; "kpc"; "deg"; "arcmin"; "rad"])
    then Some name else None;
  unit_to_string u := u
|}.

(** A linear congruential generator. *)
#[global] Instance lcg : Rng Z := {|
  seed_state n := n;
  next_int h g :=
    let g' := (1103515245 * g + 12345) mod 2 ^ 31 in (g' mod h, g')
|}.

(** A tracer through empty space: the Jacobian is the identity at every
    ray. *)
Definition rays_count (rays : Rays Q string) : nat :=
  match rays with
  | GridRays _ resolution _ => Z.to_nat (resolution * resolution)
  | GalaxyRays x _ _ _ => length x
  end.

Definition free_tracer : RayTracer Q string Z := {|
  reorderLenses lenses g := (g + Z.of_nat (length lenses)) mod 2 ^ 31;
  shoot lenses rays g :=
    let n := rays_count rays in
    (inr [replicate n 1%Q; replicate n 0%Q; replicate n 0%Q; replicate n 1%Q], g)
|}.

Definition collection (storage : string) : Collection.t := {|
  Collection.storage := storage;
  Collection.getMapSet d := MapSet.mk (storage +:+ "/" +:+ d) (storage +:+ "/" +:+ d);
  Collection.getCatalog d := MapSet.mk (storage +:+ "/" +:+ d) (storage +:+ "/" +:+ d)
|}.

Definition model : Model.t Q string := {|
  Model.Mpc_over_h := "Mpc/h";
  Model.getCollection geometry_id := collection ("/sim/" +:+ geometry_id);
  Model.getCollection_box box_size nside := collection ("/sim/" +:+ nside);
  Model.getTelescopicMapSet d :=
    TelescopicMapSet.mk ("/sim/" +:+ d) ("/sim/" +:+ d)
      [collection "/sim/near"; collection "/sim/far"] [0%Q; 1%Q]
|}.

Definition batch : Batch.t Q string := {| Batch.getModel _ := model |}.

Definition info_txt : list string :=
  ["snapshot=58,distance=120.5 Mpc/h,redshift=0.04";
   "snapshot=46,distance=2240.25 Mpc/h,redshift=1.0"].

Definition galaxies (n : nat) : PositionCatalog.t Q :=
  PositionCatalog.mk (Some "deg") (replicate n (1 # 2, 1 # 4, 1)%Q).

(** Three position catalogs with 100, 250 and 50 galaxies, and the plane
    summary of the first N-body realization. *)
Definition disk : Disk Q string := {|
  read_lines path :=
    if String.eqb path "/sim/512/ic1/Planes/info.txt" then Some info_txt
    else if String.eqb path "/sim/near/ic1/Wide/info.txt" then Some info_txt
    else if String.eqb path "/sim/512b240/ic1/Planes/info.txt" then Some info_txt
    else None;
  load_map_settings _ := None;
  load_catalog_settings _ := None;
  read_catalog path :=
    if String.eqb path "in/a.fits" then Some (galaxies 100)
    else if String.eqb path "in/b.fits" then Some (galaxies 250)
    else if String.eqb path "in/c.fits" then Some (galaxies 50)
    else None;
  path_exists _ := false
|}.

Definition catalog_settings (total : Z) (realizations : Z) (per_subdir : option Z)
  : CatalogSettings.t string := {|
  CatalogSettings.directory_name := "Catalog";
  CatalogSettings.override_with_local := false;
  CatalogSettings.seed := 7;
  CatalogSettings.total_num_galaxies := total;
  CatalogSettings.catalog_angle_unit := "deg";
  CatalogSettings.input_files := ["in/a.fits"; "in/b.fits"; "in/c.fits"];
  CatalogSettings.plane_set := "Planes";
  CatalogSettings.mix_nbody_realizations := [1; 2; 3];
  CatalogSettings.mix_cut_points := [0; 1];
  CatalogSettings.mix_normals := [0; 1; 2];
  CatalogSettings.lens_catalog_realizations := realizations;
  CatalogSettings.realizations_per_subdirectory := per_subdir;
  CatalogSettings.format := "fits"
|}.

Definition map_settings (realizations : Z) : MapSettings.t Q string := {|
  MapSettings.directory_name := "Maps";
  MapSettings.override_with_local := false;
  MapSettings.seed := 11;
  MapSettings.map_angle := mkQuantity (7 # 2)%Q "deg";
  MapSettings.source_redshift := 1%Q;
  MapSettings.map_resolution := 2;
  MapSettings.planes := OneCollection "Planes" [1; 2] [0; 1; 2] [0; 1; 2];
  MapSettings.lens_map_realizations := realizations;
  MapSettings.plane_info_file := None;
  MapSettings.convergence := true;
  MapSettings.shear := true;
  MapSettings.omega := true;
  MapSettings.format := "fits"
|}.

(** Telescopic settings: one plane choice for each of the two collections
    of the demo model, cut at redshifts 0 and 1. *)
Definition telescopic_settings (realizations : Z) : MapSettings.t Q string := {|
  MapSettings.directory_name := "Tele";
  MapSettings.override_with_local := false;
  MapSettings.seed := 11;
  MapSettings.map_angle := mkQuantity (7 # 2)%Q "deg";
  MapSettings.source_redshift := 1%Q;
  MapSettings.map_resolution := 2;
  MapSettings.planes :=
    PerCollection ["Wide"; "Deep"] [[1; 2]; [5]] [[0; 1]; [2]] [[0]; [1; 2]];
  MapSettings.lens_map_realizations := realizations;
  MapSettings.plane_info_file := None;
  MapSettings.convergence := true;
  MapSettings.shear := false;
  MapSettings.omega := false;
  MapSettings.format := "fits"
|}.

(** The plane files and the maps of a run, in order. *)
Definition files_of (l : list (Event Q string)) : list string :=
  omap (fun e => match e with
                 | EAddLens lens => Some lens.1.1
                 | ESaveConvergence n _ | ESaveShear n _ _ | ESaveOmega n _
                 | ESaveCatalog n _ | EMkdir n | EWritePositions n => Some n
                 | _ => None
                 end) l.

End Demo.

(** ** The rest of [FastPMSnapshot] *)

Module FastPMSnapshot.

(** The class attribute [_header_keys]. *)
Definition _header_keys : list string :=
  ["masses"; "num_particles_file"; "num_particles_total"; "box_size";
   "num_files"; "Om0"; "Ode0"; "h"].

(** [buildFilename(root, pool)] and [int2root(name, n)] *)
Definition buildFilename (root : string) (pool : option Pool.t) : string := root.

Definition int2root (name : string) (n : Z) : string := name.

(** [setLimits]: [Np] is the number of particles of the file,
    [bigfile.BigData(self.fp).size]; the result is
    [(self._first, self._last)]. *)
Definition setLimits (pool : option Pool.t) (Np : Z)
  : Py.Res (option Z * option Z) :=
  match pool with
  | None => mret (None, None)
  | Some p =>
      let Nt := Pool.size p + 1 in
      part_per_task ← Py.floordiv Np Nt;
      let first := part_per_task * Pool.rank p in
      let last := part_per_task * (Pool.rank p + 1) in
      remainder ← Py.mod_ Np Nt;
      if negb (remainder =? 0) && (Pool.rank p =? Nt - 1)
      then mret (Some first, Some (last + remainder))
      else mret (Some first, Some last)
  end.

(** The particles [data[first:last]] that [getPositions] reads with the
    limits of a task, as indices into the [Np] particles of the file;
    limits of [None] read them all. *)
Definition particles_read (limits : option Z * option Z) (Np : Z) : list Z :=
  match limits with
  | (Some first, Some last) => Py.slice (seqZ 0 Np) first last
  | _ => seqZ 0 Np
  end.

End FastPMSnapshot.

(** ** [lenstools/pipeline/simulation.py] *)

Module Simulation.

(** The module dictionary [name2attr]. *)
Definition name2attr : gmap string string :=
  <["ns" := "ns"]> (<["si" := "sigma8"]> (<["Ob" := "Ob0"]>
  (<["h" := "h"]> (<["wa" := "wa"]> (<["w" := "w0"]>
  (<["Ol" := "Ode0"]> (<["Om" := "Om0"]> ∅))))))).

(** [name2attr[p]] *)
Definition name2attr_get (p : string) : Py.Res string :=
  match name2attr !! p with
  | Some a => inr a
  | None => inl (Py.KeyError p)
  end.

(** Line 209: ["{0}b{1}".format(nside, int(box))], [box] being the box
    size in Mpc/h already cut to an integer. *)
Definition geometry_id (nside box : Z) : string :=
  Py.str_int nside +:+ "b" +:+ Py.str_int box.

(** Lines 181-185 of [collections]: the box size and the side that a
    directory name stands for; a name that is not of this form is passed
    over ([ValueError] is caught). *)
Definition collection_of_name {F} `{!PyFloat F} (name : string)
  : option (F * Z) :=
  match unpack2 (Py.split "b" name) with
  | inl _ => None
  | inr (nside, box) =>
      match float box with
      | inl _ => None
      | inr b =>
          match Py.int_of_str nside with
          | inl _ => None
          | inr n => Some (b, n)
          end
      end
  end.

(** [collections], on the base names of what the model directory holds. *)
Definition collections {F} `{!PyFloat F} (collection_names : list string)
  : list (F * Z) :=
  omap collection_of_name collection_names.

(** Lines 289-290: the directory of an initial condition. *)
Definition ic_subdir (collection_subdir : string) (ic_index : Z) : string :=
  Py.path_join collection_subdir ["ic" +:+ Py.str_int ic_index].

(** The character classes of the regular expression of [available]:
    [[a-zA-Z]] and [[0-9.-]]. *)
Definition is_letter (c : ascii) : bool :=
  let n := Z.of_nat (nat_of_ascii c) in
  (65 <=? n) && (n <=? 90) || (97 <=? n) && (n <=? 122).

Definition is_value_char (c : ascii) : bool :=
  let n := Z.of_nat (nat_of_ascii c) in
  (48 <=? n) && (n <=? 57) || Ascii.eqb c "." || Ascii.eqb c "-".

(** The longest prefix of characters of a class, and what follows it. *)
Fixpoint span (p : ascii -> bool) (s : list ascii) : list ascii * list ascii :=
  match s with
  | c :: s' => if p c then let '(a, b) := span p s' in (c :: a, b) else ([], s)
  | [] => ([], [])
  end.

(** [parmatch.match(parameter)] for
    [parmatch = re.compile(r"([a-zA-Z]+)([0-9.-]+)")]: [None] when the
    string does not start with letters followed by a digit, a dot or a
    dash, and the two groups otherwise.  Both groups are greedy and their
    classes are disjoint, so they are the longest runs. *)
Definition parmatch (parameter : string) : option (string * string) :=
  let '(par, rest) := span is_letter (list_ascii_of_string parameter) in
  let '(val, _) := span is_value_char rest in
  match par, val with
  | _ :: _, _ :: _ => Some (string_of_list_ascii par, string_of_list_ascii val)
  | _, _ => None
  end.

(** A [for] loop in code whose only effect is an exception. *)
Fixpoint for_res {A S} (xs : list A) (body : A -> S -> Py.Res S) (s : S)
  : Py.Res S :=
  match xs with
  | [] => mret s
  | x :: xs' => s' ← body x s; for_res xs' body s'
  end.

(** Lines 66-80 of [available]: the parameters that a directory name
    stands for.  On a piece that does not match, [match] returns [None],
    whose [groups] is an [AttributeError]; the [except TypeError] does not
    catch it.  In [parameters_dict[name2attr[par]] = float(val)] the
    right-hand side is evaluated first. *)
Definition parameters_of_dirname {F} `{!PyFloat F} (dirname : string)
  : Py.Res (list string * gmap string F) :=
  for_res (Py.split "_" dirname)
    (fun parameter '(parameters_list, parameters_dict) =>
       match parmatch parameter with
       | None => inl (Py.AttributeError "groups")
       | Some (par, val) =>
           v ← float val;
           attr ← name2attr_get par;
           mret (parameters_list ++ [par], <[attr := v]> parameters_dict)
       end)
    ([], ∅).

(** [available]: [dirnames] are the base names of what the home directory
    holds; [new_model parameters_dict parameters_list] stands for
    the model that [cls] builds from [Nicaea] called with the keyword
    arguments [parameters_dict], and from [parameters_list]; its
    [TypeError] is caught and the directory passed over. *)
Definition available {F A} `{!PyFloat F} (home_isdir storage_isdir : bool)
    (dirnames : list string)
    (new_model : gmap string F -> list string -> Py.Res A) : Py.Res (list A) :=
  if negb home_isdir || negb storage_isdir then mret []
  else
    for_res dirnames
      (fun dirname models =>
         '(parameters_list, parameters_dict) ← parameters_of_dirname dirname;
         match new_model parameters_dict parameters_list with
         | inr model => mret (models ++ [model])
         | inl (Py.TypeError _) => mret models
         | inl e => inl e
         end)
      [].

(** Line 134 of [SimulationModel.__init__]: the [cosmo_id].  [cosmology]
    holds the attributes of the cosmology that are there and are not
    [None]; [fmt_3f] is ["{0:.3f}".format]. *)
Definition cosmo_id {F} (fmt_3f : F -> string) (cosmology : gmap string F)
    (parameters : list string) : Py.Res string :=
  pieces ← for_res parameters
              (fun p pieces =>
                 attr ← name2attr_get p;
                 mret (match cosmology !! attr with
                       | Some v => pieces ++ [p +:+ fmt_3f v]
                       | None => pieces
                       end))
              [];
  mret (String.concat "_" pieces).

(** ** Initial conditions of a collection

    [newInitialCondition] and [ics] work on two directories of the
    collection, through [glob.glob], [os.mkdir] and [open]: the model
    keeps the names in them. *)

(** An entry of a directory: a file, or a directory with the names of
    its own entries. *)
Inductive Entry :=
| File
| Dir (names : gset string).

(** The two directories of a collection, which [newCollection] has made:
    the names in [home_subdir] and the entries of [storage_subdir]. *)
Record CollectionDirs := mkCollectionDirs {
  home_subdir : gset string;
  storage_subdir : gmap string Entry
}.

(** [os.mkdir] on a name that is there. *)
Inductive OSError := FileExists (name : string).

(** The names that [glob.glob(os.path.join(d, prefix + "*"))] finds among
    the names in [d], in the order of the listing. *)
Definition glob (prefix : string) (names : list string) : list string :=
  filter (fun name => String.prefix prefix name = true) names.

(** [s.strip(chars)] *)
Fixpoint lstrip_chars (set : list ascii) (s : list ascii) : list ascii :=
  match s with
  | c :: s' => if existsb (Ascii.eqb c) set then lstrip_chars set s' else s
  | [] => []
  end.

Definition strip_chars (set s : string) : string :=
  let set := list_ascii_of_string set in
  string_of_list_ascii
    (rev (lstrip_chars set (rev (lstrip_chars set (list_ascii_of_string s))))).

(** ["ic{0}".format(ic_index)] *)
Definition ic_name (ic_index : Z) : string := "ic" +:+ Py.str_int ic_index.

(** [SimulationCollection.newInitialCondition(seed)]: the index and the
    seed of the new initial condition, or the error of the [os.mkdir]
    that finds its directory made, and the directories as they are left. *)
Definition newInitialCondition (seed : Z) (st : CollectionDirs)
  : (OSError + Z * Z) * CollectionDirs :=
  let ics_present := glob "ic" (elements (dom (storage_subdir st))) in
  let new_ic_index := Z.of_nat (length ics_present) + 1 in
  let name := ic_name new_ic_index in
  if decide (name ∈ home_subdir st) then (inl (FileExists name), st)
  else
    let st := mkCollectionDirs ({[name]} ∪ home_subdir st) (storage_subdir st) in
    if decide (name ∈ dom (storage_subdir st)) then (inl (FileExists name), st)
    else
      (inr (new_ic_index, seed),
       mkCollectionDirs (home_subdir st)
         (<[name := Dir {["seed" +:+ Py.str_int seed]}]> (storage_subdir st))).

(** The property [ics]: index and seed of the initial conditions found
    in the storage directory. *)
Definition ics (st : CollectionDirs) : Py.Res (list (Z * Z)) :=
  let ic_numbers :=
    strip_chars "ic" <$> glob "ic" (elements (dom (storage_subdir st))) in
  for_res ic_numbers
    (fun ic ic_list =>
       let seed_files :=
         match storage_subdir st !! ("ic" +:+ ic) with
         | Some (Dir names) => glob "seed" (elements names)
         | _ => []
         end in
       seed_file ← Py.index seed_files 0;
       seed ← Py.int_of_str (strip_chars "seed" seed_file);
       ic_index ← Py.int_of_str ic;
       mret (ic_list ++ [(ic_index, seed)]))
    [].

(** One call of [newInitialCondition] for each seed, as long as they
    succeed. *)
Fixpoint newInitialConditions (seeds : list Z) (st : CollectionDirs)
  : (OSError + list (Z * Z)) * CollectionDirs :=
  match seeds with
  | [] => (inr [], st)
  | seed :: seeds' =>
      match newInitialCondition seed st with
      | (inr ic, st') =>
          let '(r, st'') := newInitialConditions seeds' st' in
          (match r with inr l => inr (ic :: l) | inl e => inl e end, st'')
      | (inl e, st') => (inl e, st')
      end
  end.

(** No name of the two directories starts with [ic]. *)
Definition without_ics (st : CollectionDirs) : Prop :=
  forall name,
    name ∈ home_subdir st \/ name ∈ dom (storage_subdir st) ->
    String.prefix "ic" name = false.

(** The initial conditions [first], [first + 1], ... with the given
    seeds. *)
Fixpoint numbered (first : Z) (seeds : list Z) : list (Z * Z) :=
  match seeds with
  | [] => []
  | seed :: seeds' => (first, seed) :: numbered (first + 1) seeds'
  end.

(** What has been created so far is what the directories show. *)
Definition tracks (created : list (Z * Z)) (st : CollectionDirs) : Prop :=
  created.*1 = seqZ 1 (Z.of_nat (length created))
  /\ glob "ic" (elements (dom (storage_subdir st)))
     ≡ₚ (fun ic => ic_name ic.1) <$> created
  /\ (forall ic, ic ∈ created ->
        storage_subdir st !! ic_name ic.1
        = Some (Dir {["seed" +:+ Py.str_int ic.2]}))
  /\ (forall name, name ∈ home_subdir st -> String.prefix "ic" name = true ->
        exists ic, ic ∈ created /\ name = ic_name ic.1).

End Simulation.

(** ** More vocabulary *)

Definition is_mkdir {F U} (e : Event F U) : bool :=
  match e with EMkdir _ => true | _ => false end.

Definition is_write_positions {F U} (e : Event F U) : bool :=
  match e with EWritePositions _ => true | _ => false end.

Definition is_save_catalog {F U} (e : Event F U) : bool :=
  match e with ESaveCatalog _ _ => true | _ => false end.

Definition is_barrier {F U} (e : Event F U) : bool :=
  match e with EBarrier => true | _ => false end.

Definition is_map_save {F U} (e : Event F U) : bool :=
  match e with
  | ESaveConvergence _ _ | ESaveShear _ _ _ | ESaveOmega _ _ => true
  | _ => false
  end.

(** The directories made, in order. *)
Definition directories_made {F U} (l : list (Event F U)) : list string :=
  omap (fun e => match e with EMkdir d => Some d | _ => None end) l.

(** The map files written, in order. *)
Definition map_files {F U} (l : list (Event F U)) : list string :=
  omap (fun e => match e with
                 | ESaveConvergence n _ | ESaveShear n _ _ | ESaveOmega n _ => Some n
                 | _ => None
                 end) l.

(** The names of the three maps of realization [r]. *)
Definition map_names {F U} `{!PyFloat F} (save_path : string)
    (settings : MapSettings.t F U) (r : Z) : list string :=
  (fun kind => map_savename save_path kind (MapSettings.source_redshift settings)
                 r (MapSettings.format settings))
  <$> ["conv"; "shear"; "omega"].

(** The characters of a string. *)
Definition chars (s : string) : list ascii := list_ascii_of_string s.

Definition is_digit (c : ascii) : bool :=
  match Py.digit_val c with Some _ => true | None => false end.

(** The character [sep] does not occur in [s]. *)
Definition free_of (sep : ascii) (s : string) : Prop :=
  Forall (fun c => Ascii.eqb c sep = false) (chars s).

(** A character the manifest uses to separate its fields, and a string
    without any. *)
Definition is_separator (c : ascii) : bool :=
  Ascii.eqb c "," || Ascii.eqb c "=" || Ascii.eqb c " ".

Definition plain (s : string) : Prop :=
  Forall (fun c => is_separator c = false) (chars s).

(** A line of [info.txt]: three fields [key=value] separated by commas,
    the second value a number and a unit separated by a blank. *)
Definition manifest_field (key value : string) : string := key +:+ "=" +:+ value.

Definition manifest_line (key0 key1 key2 : string) (snapshot_number : Z)
    (distance unit redshift : string) : string :=
  manifest_field key0 (Py.str_int snapshot_number) +:+ ","
  +:+ manifest_field key1 (distance +:+ " " +:+ unit) +:+ ","
  +:+ manifest_field key2 redshift.

(** The arrays of [st] hold the columns of the catalogs [loaded], in
    order, and zeros after them. *)
Definition holds {F} `{!PyFloat F} (n : nat) (loaded : list (PositionCatalog.t F))
    (st : Galaxies (F:=F)) : Prop :=
  let padded (col : PositionCatalog.t F -> list F) :=
    concat (col <$> loaded)
    ++ replicate (n - length (concat (col <$> loaded))) (flit 0) in
  initial_positions_x st = padded PositionCatalog.x
  /\ initial_positions_y st = padded PositionCatalog.y
  /\ galaxy_redshift st = padded PositionCatalog.z
  /\ galaxies_in_catalog st = PositionCatalog.len <$> loaded.

(** A plane file of collection [n] of a map run: its N-body realization,
    its cut point and its normal are among the candidates that the
    settings list for that collection. *)
Definition candidate_plane {F U} `{!PyFloat F} (run : MapRun (F:=F) (U:=U))
    (n : nat) (plane_name : string) : Prop :=
  exists coll plane_set nbody_realizations cut_points normals
         ic cut_point normal snapshot_number,
    run_collection run !! n = Some coll
    /\ run_plane_set run !! n = Some plane_set
    /\ run_nbody_realizations run !! n = Some nbody_realizations
    /\ run_cut_points run !! n = Some cut_points
    /\ run_normals run !! n = Some normals
    /\ ic ∈ nbody_realizations /\ cut_point ∈ cut_points /\ normal ∈ normals
    /\ plane_name
       = Py.path_join (plane_path (Collection.storage coll) ic plane_set)
           [plane_file snapshot_number cut_point normal].

(** The names of the shear catalogs written, in order. *)
Definition catalog_files {F U} (l : list (Event F U)) : list string :=
  (saved_catalogs l).*1.

(** The part of the name of an input file that goes into the names of
    its shear catalogs (lines 563 and 565). *)
Definition file_stem (galaxy_position_file : string) : string :=
  match Py.index (Py.split "." galaxy_position_file) 0 with
  | inr stem => Py.basename stem
  | inl _ => ""
  end.

(** The names of the shear catalogs of realization [r], one for each
    input file. *)
Definition catalog_names (save_path : string) (subdirs : list string) (k : Z)
    (format : string) (files : list string) (r : Z) : list string :=
  omap (fun file =>
          match shear_catalog_savename save_path subdirs k file r format with
          | inr name => Some name
          | inl _ => None
          end) files.

(** A string of digits, dots and dashes, not empty: what
    ["{0:.3f}".format] makes of a finite number. *)
Definition value_string (s : string) : Prop :=
  chars s <> [] /\ Forall (fun c => Simulation.is_value_char c = true) (chars s).

(** What [cosmo_id] writes for parameter [p]: its name and the value of
    its attribute, which reads back as a number. *)
Definition cosmo_piece {F} `{!PyFloat F} (fmt_3f : F -> string)
    (cosmology : gmap string F) (p piece : string) : Prop :=
  exists attr v,
    Simulation.name2attr !! p = Some attr /\ cosmology !! attr = Some v
    /\ piece = p +:+ fmt_3f v
    /\ value_string (fmt_3f v)
    /\ is_Some (float_of_str (F:=F) (fmt_3f v)).

(** ["{0:.3f}".format] on the rationals of the examples that are not
    negative. *)
Definition Q_fmt_3f (x : Q) : string :=
  let n := Qfloor (x * 1000 + (1 # 2))%Q in
  pretty (n / 1000) +:+ "." +:+ Py.zfill 3 (pretty (n mod 1000)).

(** The attributes of a snapshot with [NC = 128] in a box of 240 Mpc/h. *)
Definition snapshot_attrs : gmap string (FastPM.Attr Q) :=
  <["NC" := FastPM.IntAttr [128]]>
    (<["OmegaM" := FastPM.FloatAttr [(26 # 100)%Q]]>
       (<["BoxSize" := FastPM.FloatAttr [240%Q]]>
          (<["M0" := FastPM.FloatAttr [(5 # 1)%Q]]> ∅))).

(** A telescopic run whose nearest collection starts at redshift one
    half. *)
Definition deep_run : MapRun (F:=Q) (U:=string) := {|
  run_model := Demo.model;
  run_collection := [Demo.collection "/sim/near"; Demo.collection "/sim/far"];
  run_map_batch := MapSet.mk "/sim/Tele" "/sim/Tele";
  run_cut_redshifts := [(1 # 2)%Q; 1%Q];
  run_plane_set := ["Wide"; "Deep"];
  run_nbody_realizations := [[1; 2]; [5]];
  run_cut_points := [[0; 1]; [2]];
  run_normals := [[0]; [1; 2]]
|}.

(** Telescopic settings with one plane set for the two collections of
    the demo model. *)
Definition short_telescopic_settings : MapSettings.t Q string := {|
  MapSettings.directory_name := "Tele";
  MapSettings.override_with_local := false;
  MapSettings.seed := 11;
  MapSettings.map_angle := mkQuantity (7 # 2)%Q "deg";
  MapSettings.source_redshift := 1%Q;
  MapSettings.map_resolution := 2;
  MapSettings.planes :=
    PerCollection ["Wide"] [[1; 2]; [5]] [[0; 1]; [2]] [[0]; [1; 2]];
  MapSettings.lens_map_realizations := 4;
  MapSettings.plane_info_file := None;
  MapSettings.convergence := true;
  MapSettings.shear := false;
  MapSettings.omega := false;
  MapSettings.format := "fits"
|}.

(** * Properties *)

Example split_ex :
  Py.split "," "snapshot=3,distance=120.5 Mpc,redshift=0.4"
  = ["snapshot=3"; "distance=120.5 Mpc"; "redshift=0.4"].
Proof. reflexivity. Qed.

Example split_empty_ex : Py.split "|" "" = [""].
Proof. reflexivity. Qed.

Example basename_ex : Py.basename "/data/cat/positions.fits" = "positions.fits".
Proof. reflexivity. Qed.

Example basename_dir_ex : Py.basename "data/" = "".
Proof. reflexivity. Qed.

Example path_join_ex : Py.path_join "/a" ["b/"; "c"; "/d"; "e"] = "/d/e".
Proof. reflexivity. Qed.

Example fmt_04d_ex : Py.fmt_04d 7 = "0007" /\ Py.fmt_04d 12345 = "12345".
Proof. split; reflexivity. Qed.

Example int_of_str_ex :
  Py.int_of_str " 42" = inr 42 /\ Py.int_of_str "-7" = inr (-7)
  /\ Py.int_of_str "4x" = inl (Py.ValueError "invalid literal for int()").
Proof. repeat split; reflexivity. Qed.

Example slice_ex :
  Py.slice [1; 2; 3; 4; 5] 1 3 = [2; 3] /\ Py.slice [1; 2; 3] 2 9 = [3]
  /\ Py.slice [1; 2; 3] (-2) 3 = [2; 3].
Proof. repeat split; reflexivity. Qed.

Example slice_assign_ex :
  Py.slice_assign [0; 0; 0] 1 3 [7; 8] = inr [0; 7; 8]
  /\ Py.slice_assign [0; 0; 0] 2 4 [7; 8]
     = inl (Py.ValueError "could not broadcast input array")
  /\ Py.slice_assign [0; 0; 0] 3 4 [7] = inr [0; 0; 0].
Proof. repeat split; reflexivity. Qed.

Example subdirectories_ex :
  _subdirectories 6 2 = inr ["1-2"; "3-4"; "5-6"] /\ _subdirectories 6 6 = inr [].
Proof. split; reflexivity. Qed.

Example subdirectories_uneven_ex :
  _subdirectories 5 2
  = inl (Py.AssertionError
           "The number of realizations in each subdirectory must be the same!")
  /\ _subdirectories 4 0 = inl Py.ZeroDivisionError.
Proof. split; reflexivity. Qed.

Example parse_info_line_ex :
  parse_info_line Demo.model "snapshot=46,distance=2240.25 Mpc/h,redshift=1.0"
  = inr (46, mkQuantity (8961 # 4)%Q "Mpc/h", 1%Q)
  /\ parse_info_line Demo.model "snapshot=46,distance=2240.25Mpc/h,redshift=1.0"
     = inl (Py.ValueError "wrong number of values to unpack")
  /\ parse_info_line Demo.model "snapshot=46"
     = inl Py.IndexError.
Proof. repeat split; vm_compute; reflexivity. Qed.

(** One map realization from a single collection, without a pool. *)
Example singleRedshift_ex :
  let out := singleRedshift Demo.free_tracer Demo.disk None Demo.batch
               (Demo.map_settings 1) "cosmo|512b240" 0 in
  res out = inr ()
  /\ Demo.files_of (evs out)
     = ["/sim/512b240/ic1/Planes/snap58_potentialPlane0_normal0.fits";
        "/sim/512b240/ic2/Planes/snap46_potentialPlane0_normal0.fits";
        "/sim/512b240/Maps/WLconv_z1.00_0001r.fits";
        "/sim/512b240/Maps/WLshear_z1.00_0001r.fits";
        "/sim/512b240/Maps/WLomega_z1.00_0001r.fits"].
Proof. split; vm_compute; reflexivity. Qed.

(** Telescopic mode: the lens at redshift 0.04 comes from the first
    collection, the lens at redshift 1 from the second; a task that is
    not the master has not bound [c] before the loop, which shows only
    when a lens lies below every cut. *)
Example singleRedshift_telescopic_ex :
  let out := singleRedshift Demo.free_tracer Demo.disk
               (Some (Pool.mk 1 1 false)) Demo.batch
               (Demo.telescopic_settings 2) "cosmo" 0 in
  res out = inr ()
  /\ Demo.files_of (evs out)
     = ["/sim/near/ic2/Wide/snap58_potentialPlane0_normal0.fits";
        "/sim/far/ic5/Deep/snap46_potentialPlane2_normal1.fits";
        "/sim/Tele/WLconv_z1.00_0002r.fits"].
Proof. split; vm_compute; reflexivity. Qed.

Example singleRedshift_bad_id_ex :
  let out := singleRedshift Demo.free_tracer Demo.disk None Demo.batch
               (Demo.map_settings 1) "a|b|c" 0 in
  res out = inl (Py.SystemExit 1) /\ evs out = [].
Proof. split; reflexivity. Qed.

(** Two catalog realizations in buckets of one, run by the master. *)
Example simulatedCatalog_ex :
  let out := simulatedCatalog Demo.free_tracer Demo.disk None Demo.batch
               (Demo.catalog_settings 400 2 (Some 1)) "cosmo|512b240" 0 in
  res out = inr ()
  /\ Demo.files_of (evs out)
     = ["/sim/512/Catalog/a.fits"; "/sim/512/Catalog/b.fits";
        "/sim/512/Catalog/c.fits";
        "/sim/512/Catalog/1-1"; "/sim/512/Catalog/2-2";
        "/sim/512/ic1/Planes/snap58_potentialPlane0_normal0.fits";
        "/sim/512/ic1/Planes/snap46_potentialPlane1_normal0.fits";
        "/sim/512/Catalog/1-1/WLshear_a_0001r.fits";
        "/sim/512/Catalog/1-1/WLshear_b_0001r.fits";
        "/sim/512/Catalog/1-1/WLshear_c_0001r.fits";
        "/sim/512/ic2/Planes/snap58_potentialPlane0_normal0.fits";
        "/sim/512/ic1/Planes/snap46_potentialPlane1_normal2.fits";
        "/sim/512/Catalog/2-2/WLshear_a_0002r.fits";
        "/sim/512/Catalog/2-2/WLshear_b_0002r.fits";
        "/sim/512/Catalog/2-2/WLshear_c_0002r.fits"].
Proof. split; vm_compute; reflexivity. Qed.

(** ** The monad *)

Section Monad.
Context {F U G : Type}.
Implicit Types (g : G) (P : Event F U -> Prop).

Lemma bind_inl {A B} (m : M F U G A) (f : A -> M F U G B) g e :
  res (m g) = inl e ->
  (m ≫= f) g = mkOut (inl e) (rng (m g)) (evs (m g)).
Proof. intros E. unfold mbind, M_bind. cbn. now rewrite E. Qed.

Lemma bind_inr {A B} (m : M F U G A) (f : A -> M F U G B) g a :
  res (m g) = inr a ->
  (m ≫= f) g
  = mkOut (res (f a (rng (m g)))) (rng (f a (rng (m g))))
          (evs (m g) ++ evs (f a (rng (m g)))).
Proof. intros E. unfold mbind, M_bind. cbn. now rewrite E. Qed.

Lemma lift_inr_bind {A B} (a : A) (f : A -> M F U G B) g :
  (lift (inr a) ≫= f) g = f a g.
Proof. unfold mbind, M_bind, lift. cbn. now destruct (f a g). Qed.

Lemma lift_inl_bind {A B} e (f : A -> M F U G B) g :
  (lift (inl e) ≫= f) g = mkOut (inl e) g [].
Proof. reflexivity. Qed.

Lemma ret_bind {A B} (a : A) (f : A -> M F U G B) g :
  (mret a ≫= f) g = f a g.
Proof. apply (lift_inr_bind a f g). Qed.

(** A computation that fails makes the whole sequence fail, with the
    events seen so far. *)
Lemma bind_fails {A B} (m : M F U G A) (f : A -> M F U G B) g :
  (exists e, res (m g) = inl e) ->
  (exists e, res ((m ≫= f) g) = inl e) /\ evs ((m ≫= f) g) = evs (m g).
Proof. intros [e E]. rewrite (bind_inl _ _ _ _ E). eauto. Qed.

Lemma emits_ret {A} P (a : A) : emits P (mret a : M F U G A).
Proof. intros g. constructor. Qed.

Lemma emits_lift {A} P (r : Py.Res A) : emits P (lift r : M F U G A).
Proof. intros g. constructor. Qed.

Lemma emits_raise {A} P e : emits P (raise e : M F U G A).
Proof. apply emits_lift. Qed.

Lemma emits_emit P (e : Event F U) : P e -> emits P (emit e : M F U G ()).
Proof. intros HP g. cbn. auto. Qed.

Lemma emits_bind {A B} P (m : M F U G A) (f : A -> M F U G B) :
  emits P m -> (forall a, emits P (f a)) -> emits P (m ≫= f).
Proof.
  intros Hm Hf g. unfold mbind, M_bind. cbn.
  destruct (res (m g)) as [e|a] eqn:E; cbn.
  - apply Hm.
  - apply Forall_app. split; [apply Hm | apply Hf].
Qed.

Lemma emits_for {A S} P (xs : list A) (body : A -> S -> M F U G S) s :
  (forall x s', emits P (body x s')) -> emits P (for_ xs body s).
Proof.
  intros Hb. revert s. induction xs as [|x xs IH]; intros s; cbn.
  - apply emits_ret.
  - apply emits_bind; auto.
Qed.

Lemma emits_seed `{!Rng G} P n :
  P (ESeed n) -> emits P (np_random_seed n : M F U G ()).
Proof.
  intros HP g. unfold np_random_seed.
  destruct (_ && _); cbn; auto.
Qed.

Lemma emits_randint `{!Rng G} P high :
  (forall v, P (ERandint high v)) -> emits P (randint high : M F U G Z).
Proof.
  intros HP g. unfold randint. destruct (0 <? high); cbn; auto.
Qed.

Lemma emits_barrier P pool :
  P EBarrier -> emits P (barrier pool : M F U G ()).
Proof. intros HP. destruct pool; [now apply emits_emit | apply emits_ret]. Qed.

Lemma emits_call_reorder P (tracer : RayTracer F U G) lenses :
  P EReorder -> emits P (call_reorder tracer lenses).
Proof. intros HP g. cbn. auto. Qed.

Lemma emits_call_shoot P (tracer : RayTracer F U G) lenses rays :
  P (EShoot rays) -> emits P (call_shoot tracer lenses rays).
Proof. intros HP g. cbn. auto. Qed.

Lemma emit_bind {B} (e : Event F U) (k : () -> M F U G B) g :
  (emit e ≫= k) g = mkOut (res (k () g)) (rng (k () g)) (e :: evs (k () g)).
Proof. reflexivity. Qed.

Lemma seed_bind `{!Rng G} {B} (n : Z) (k : () -> M F U G B) g :
  (np_random_seed n ≫= k) g
  = if (0 <=? n) && (n <? 2 ^ 32)
    then let o := k () (seed_state n) in
         mkOut (res o) (rng o) (ESeed n :: evs o)
    else mkOut (inl (Py.ValueError "Seed must be between 0 and 2**32 - 1")) g [].
Proof.
  unfold np_random_seed, mbind, M_bind.
  now destruct ((0 <=? n) && (n <? 2 ^ 32)).
Qed.

Lemma fails_with_lift_inl {A B} P e (k : A -> M F U G B) :
  fails_with P (lift (inl e) ≫= k).
Proof. intros g. rewrite lift_inl_bind. cbn. eauto. Qed.

Lemma fails_with_bind_l {A B} P (m : M F U G A) (k : A -> M F U G B) :
  fails_with P m -> fails_with P (m ≫= k).
Proof.
  intros Hm g. destruct (Hm g) as [[e E] HP].
  rewrite (bind_inl _ _ _ _ E). cbn. eauto.
Qed.

Lemma fails_with_bind_r {A B} P (m : M F U G A) (k : A -> M F U G B) :
  emits P m -> (forall a, fails_with P (k a)) -> fails_with P (m ≫= k).
Proof.
  intros Hm Hk g. destruct (res (m g)) as [e|a] eqn:E.
  - rewrite (bind_inl _ _ _ _ E). cbn. split; [eauto|apply Hm].
  - rewrite (bind_inr _ _ _ _ E). cbn. destruct (Hk a (rng (m g))) as [He HP].
    split; [exact He|]. apply Forall_app. split; [apply Hm|exact HP].
Qed.

Lemma for_unit_ok {A} (xs : list A) (body : A -> () -> M F U G ()) g :
  (forall x g', res (body x () g') = inr ()) ->
  res (for_ xs body () g) = inr ().
Proof.
  intros Hb. revert g. induction xs as [|x xs IH]; intros g; cbn; [reflexivity|].
  rewrite (bind_inr _ _ _ () (Hb x g)). cbn. apply IH.
Qed.

Lemma make_subdirectories_ok (disk : Disk F U) pool save_path subdirs g :
  res (make_subdirectories (G:=G) disk pool save_path subdirs g) = inr ().
Proof.
  unfold make_subdirectories. destruct (is_master pool); [|reflexivity].
  apply for_unit_ok. intros d g'. now destruct (path_exists _ _).
Qed.

Lemma barrier_ok pool g : res (barrier (F:=F) (U:=U) pool g) = inr ().
Proof. now destruct pool. Qed.

End Monad.

Create HintDb emits.
#[local] Hint Resolve emits_ret emits_lift emits_raise emits_barrier
  emits_call_reorder emits_call_shoot : emits.

(** ** Convergence, shear and rotation from the Jacobian *)

Section Maps.
Context {F U G : Type} `{!PyFloat F} `{!Units U} `{!Rng G}.
Local Open Scope float_scope.








End Maps.

(** ** The realizations of the tasks *)

Section Partition.

Lemma task_realizations_even (p : Pool.t) (R : Z) (msg : string) :
  0 <= Pool.size p -> R mod (Pool.size p + 1) = 0 ->
  task_realizations (Some p) R msg
  = inr (R / (Pool.size p + 1) * Pool.rank p,
         R / (Pool.size p + 1) * (Pool.rank p + 1)).
Proof.
  intros Hs Hm. unfold task_realizations, Py.mod_, Py.floordiv.
  destruct (Z.eqb_spec (Pool.size p + 1) 0) as [E|_]; [lia|].
  cbn. rewrite Hm. reflexivity.
Qed.

Lemma task_realizations_uneven (p : Pool.t) (R : Z) (msg : string) :
  0 <= Pool.size p -> R mod (Pool.size p + 1) <> 0 ->
  task_realizations (Some p) R msg = inl (Py.AssertionError msg).
Proof.
  intros Hs Hm. unfold task_realizations, Py.mod_.
  destruct (Z.eqb_spec (Pool.size p + 1) 0) as [E|_]; [lia|].
  cbn. destruct (Z.eqb_spec (R mod (Pool.size p + 1)) 0); [contradiction|].
  reflexivity.
Qed.

Lemma task_range_even (p : Pool.t) (R : Z) (msg : string) :
  0 <= Pool.size p -> R mod (Pool.size p + 1) = 0 ->
  task_range (Some p) R msg
  = seqZ (R / (Pool.size p + 1) * Pool.rank p) (R / (Pool.size p + 1)).
Proof.
  intros Hs Hm. unfold task_range.
  rewrite task_realizations_even by assumption.
  unfold Py.range. f_equal. lia.
Qed.

(** Consecutive blocks of [per] integers, laid end to end. *)
Lemma concat_blocks (per : Z) (n : nat) :
  0 <= per ->
  concat ((fun k => seqZ (per * k) per) <$> seqZ 0 (Z.of_nat n))
  = seqZ 0 (per * Z.of_nat n).
Proof.
  intros Hper. induction n as [|n IH].
  - cbn. now rewrite Z.mul_0_r.
  - rewrite seqZ_S, fmap_app, concat_app, IH. cbn.
    rewrite app_nil_r, Z.add_0_l.
    replace (per * Z.of_nat (S n)) with (per * Z.of_nat n + per) by lia.
    rewrite seqZ_app by lia. now rewrite Z.add_0_l.
Qed.

(** C2. With [W = pool.size + 1] tasks and [R] realizations, [R % W == 0],
    task [rank] gets the range from [(R/W)*rank] to [(R/W)*(rank+1)]; the
    ranges of ranks [0 .. W-1] have [R/W] elements each, are pairwise
    disjoint, and laid end to end they are exactly [0, ..., R-1]; without
    a pool the single range is all of [0, ..., R-1].  Both scripts take
    their range from [task_realizations]. *)
Theorem partition_complete (R size : Z) (msg : string) (master : Z -> bool) :
  0 <= R -> 0 <= size -> R mod (size + 1) = 0 ->
  let W := size + 1 in
  let pool rank := Some (Pool.mk rank size (master rank)) in
  (forall rank,
      task_realizations (pool rank) R msg
      = inr (R / W * rank, R / W * (rank + 1))
      /\ Z.of_nat (length (task_range (pool rank) R msg)) = R / W)
  /\ concat ((fun rank => task_range (pool rank) R msg) <$> seqZ 0 W)
     = seqZ 0 R
  /\ (forall r, 0 <= r < R <->
                exists rank, 0 <= rank < W /\ r ∈ task_range (pool rank) R msg)
  /\ (forall rank1 rank2 r,
        rank1 <> rank2 ->
        r ∈ task_range (pool rank1) R msg ->
        r ∉ task_range (pool rank2) R msg)
  /\ task_realizations None R msg = inr (0, R)
  /\ task_range None R msg = seqZ 0 R.
Proof.
  intros HR Hsize Hmod W pool.
  assert (HW : 0 < W) by (unfold W; lia).
  assert (Hper : 0 <= R / W) by (apply Z.div_pos; lia).
  assert (HRW : R = R / W * W).
  { pose proof (Z.div_mod R W ltac:(lia)) as E. fold W in Hmod. lia. }
  assert (Hrange : forall rank,
             task_range (pool rank) R msg = seqZ (R / W * rank) (R / W)).
  { intros rank. unfold pool. now rewrite task_range_even. }
  repeat apply conj.
  - intros rank. split.
    + unfold pool. now rewrite task_realizations_even.
    + rewrite Hrange, length_seqZ. lia.
  - rewrite (list_fmap_ext _ (fun k => seqZ (R / W * k) (R / W)) (seqZ 0 W))
      by (intros; apply Hrange).
    replace (seqZ 0 W) with (seqZ 0 (Z.of_nat (Z.to_nat W))) by (f_equal; lia).
    rewrite concat_blocks by exact Hper.
    f_equal. lia.
  - intros r. split.
    + intros Hr. exists (r / (R / W)).
      assert (0 < R / W).
      { destruct (Z.eq_dec (R / W) 0) as [E0|]; [rewrite E0 in HRW; lia | lia]. }
      pose proof (Z.div_mod r (R / W) ltac:(lia)) as E.
      pose proof (Z.mod_pos_bound r (R / W) ltac:(lia)) as B.
      assert (0 <= r / (R / W)) by (apply Z.div_pos; lia).
      split.
      * split; [lia|]. apply Z.div_lt_upper_bound; [lia|]. nia.
      * rewrite Hrange. apply elem_of_seqZ. nia.
    + intros (rank & Hrank & Hin). rewrite Hrange in Hin.
      apply elem_of_seqZ in Hin. nia.
  - intros rank1 rank2 r Hne Hin1 Hin2.
    rewrite Hrange in Hin1, Hin2.
    apply elem_of_seqZ in Hin1. apply elem_of_seqZ in Hin2. nia.
  - reflexivity.
  - unfold task_range. cbn. unfold Py.range. f_equal. lia.
Qed.

End Partition.

(** One step of a run whose next statement is pure: either it raises,
    against the hypothesis that the run returned, or it returns. *)
Ltac step_lift :=
  match goal with
  | |- context [lift ?r ≫= _] =>
      destruct r eqn:?;
      [rewrite lift_inl_bind; cbn; discriminate | rewrite lift_inr_bind]
  end.

(** ** Which events the parts of the scripts can cause *)

Ltac emits_go :=
  repeat first
    [ progress intros
    | apply emits_ret | apply emits_lift | apply emits_raise
    | apply emits_bind
    | apply emits_emit
    | apply emits_randint | apply emits_seed | apply emits_barrier
    | apply emits_call_reorder | apply emits_call_shoot
    | apply emits_for
    | match goal with
      | |- emits _ (if ?b then _ else _) => destruct b
      | |- emits _ (match ?x with _ => _ end) => destruct x
      end
    | solve [auto with emits] ].

Section Events.
Context {F U G : Type} `{!PyFloat F} `{!Units U} `{!Rng G}.
Variable P : Event F U -> Prop.

Lemma emits_add_lenses (run : MapRun) lines c lenses :
  (forall h v, P (ERandint h v)) -> (forall l, P (EAddLens l)) ->
  emits P (add_lenses (G:=G) run lines c lenses).
Proof.
  intros Hr Hl. revert c lenses.
  induction lines as [|line rest IH]; intros c lenses; cbn.
  - apply emits_ret.
  - destruct (String.eqb line ""); [apply emits_ret|].
    emits_go.
Qed.

Lemma emits_save_maps (settings : MapSettings.t F U) save_path r jacobian :
  (forall n d, P (ESaveConvergence n d)) ->
  (forall n a b, P (ESaveShear n a b)) ->
  (forall n d, P (ESaveOmega n d)) ->
  emits P (save_maps (G:=G) settings save_path r jacobian).
Proof. intros. unfold save_maps. emits_go. Qed.


Lemma emits_load_galaxies disk pool (settings : CatalogSettings.t U) save_path :
  (forall p, P (EWritePositions p)) ->
  emits P (load_galaxies (F:=F) (G:=G) disk pool settings save_path).
Proof.
  intros. unfold load_galaxies.
  apply emits_bind; [apply emits_lift|intros zeros].
  apply emits_bind; [|emits_go].
  apply emits_for. intros file st. unfold load_catalog_file. emits_go.
Qed.

Lemma emits_make_subdirectories (disk : Disk F U) pool save_path subdirs :
  (forall p, P (EMkdir p)) ->
  emits P (make_subdirectories (G:=G) disk pool save_path subdirs).
Proof. intros. unfold make_subdirectories. emits_go. Qed.

Lemma emits_randint_row high cols :
  (forall h v, P (ERandint h v)) -> emits P (randint_row (G:=G) high cols).
Proof. intros. induction cols; cbn; emits_go. Qed.

Lemma emits_randint_table high rows cols :
  (forall h v, P (ERandint h v)) ->
  emits P (randint_table (G:=G) high rows cols).
Proof.
  intros. unfold randint_table. destruct (0 <? high); [|apply emits_raise].
  induction rows; cbn; [apply emits_ret|].
  apply emits_bind; [now apply emits_randint_row|intros].
  apply emits_bind; [assumption|intros]. apply emits_ret.
Qed.

Lemma emits_draw_randomizer (settings : CatalogSettings.t U) R S :
  (forall h v, P (ERandint h v)) ->
  emits P (draw_randomizer (F:=F) (G:=G) settings R S).
Proof.
  intros. unfold draw_randomizer.
  apply emits_bind; [apply emits_lift|intros].
  repeat (apply emits_bind; [now apply emits_randint_table|intros]).
  apply emits_ret.
Qed.

Lemma emits_add_catalog_lenses model (settings : CatalogSettings.t U)
    storage randomizer r s lines lenses :
  (forall l, P (EAddLens l)) ->
  emits P (add_catalog_lenses (G:=G) model settings storage randomizer r s
             lines lenses).
Proof.
  intros Hl. revert s lenses.
  induction lines as [|line rest IH]; intros s lenses; cbn.
  - apply emits_ret.
  - destruct (String.eqb line ""); [apply emits_ret|].
    emits_go.
Qed.

Lemma emits_save_catalogs (settings : CatalogSettings.t U) save_path subdirs k
    counts (shear_catalog : list (F * F)) r :
  (forall n rows, P (ESaveCatalog n rows)) ->
  emits P (save_catalogs (G:=G) settings save_path subdirs k counts
             shear_catalog r).
Proof.
  intros. unfold save_catalogs. generalize 0.
  induction (CatalogSettings.input_files settings) as [|f fs IH]; intros n; cbn.
  - apply emits_ret.
  - apply emits_bind; [|intros; apply IH].
    unfold save_file_catalog. emits_go.
Qed.

Lemma emits_catalog_realization tracer model (settings : CatalogSettings.t U)
    storage save_path subdirs k galaxies randomizer lines r u :
  P (ENewTracer r) -> (forall l, P (EAddLens l)) ->
  P EReorder -> (forall rays, P (EShoot rays)) ->
  (forall n rows, P (ESaveCatalog n rows)) ->
  emits P (catalog_realization (G:=G) tracer model settings storage save_path
             subdirs k galaxies randomizer lines r u).
Proof.
  intros. unfold catalog_realization.
  apply emits_bind; [now apply emits_emit|intros _].
  apply emits_bind; [now apply emits_add_catalog_lenses|intros lenses].
  apply emits_bind; [now apply emits_call_reorder|intros _].
  apply emits_bind; [now apply emits_call_shoot|intros jacobian].
  apply emits_bind; [apply emits_lift|intros shear_catalog].
  now apply emits_save_catalogs.
Qed.

End Events.

(** ** The realizations a run goes through *)

Section Realizations.
Context {F U G : Type} `{!PyFloat F} `{!Units U} `{!Rng G}.

Lemma realizations_begun_app (l1 l2 : list (Event F U)) :
  realizations_begun (l1 ++ l2) = realizations_begun l1 ++ realizations_begun l2.
Proof. apply omap_app. Qed.

Lemma realizations_begun_none (l : list (Event F U)) :
  Forall (fun e => is_new_tracer e = false) l -> realizations_begun l = [].
Proof.
  induction 1 as [|e l He _ IH]; [reflexivity|].
  destruct e; try discriminate; exact IH.
Qed.

(** A loop whose body begins realization [r] and no other begins the
    realizations of its range, all of them when it ends normally. *)
Lemma for_realizations {S} (body : Z -> S -> M F U G S) :
  (forall r s g, exists rest,
      evs (body r s g) = ENewTracer r :: rest
      /\ Forall (fun e => is_new_tracer e = false) rest) ->
  forall xs s g,
    realizations_begun (evs (for_ xs body s g)) `prefix_of` xs
    /\ (forall s', res (for_ xs body s g) = inr s' ->
                   realizations_begun (evs (for_ xs body s g)) = xs).
Proof.
  intros Hbody. induction xs as [|r xs IH]; intros s g; cbn [for_].
  - split; [apply prefix_nil|reflexivity].
  - destruct (Hbody r s g) as (rest & Hevs & Hrest).
    destruct (res (body r s g)) as [e|s1] eqn:E.
    + rewrite (bind_inl _ _ _ _ E). cbn [res evs]. rewrite Hevs.
      change (ENewTracer r :: rest) with ([ENewTracer r] ++ rest).
      rewrite realizations_begun_app, (realizations_begun_none rest Hrest).
      split; [|discriminate]. cbn. apply prefix_cons, prefix_nil.
    + rewrite (bind_inr _ _ _ _ E). cbn [res evs]. rewrite Hevs.
      change (ENewTracer r :: rest) with ([ENewTracer r] ++ rest).
      rewrite !realizations_begun_app, (realizations_begun_none rest Hrest).
      destruct (IH s1 (rng (body r s g))) as [Hpre Hall]. cbn. split.
      * now apply prefix_cons.
      * intros s' Hs'. f_equal. eauto.
Qed.

Lemma map_realization_begins tracer (settings : MapSettings.t F U) run lines
    r c (g : G) :
  exists rest,
    evs (map_realization tracer settings run lines r c g) = ENewTracer r :: rest
    /\ Forall (fun e => is_new_tracer e = false) rest.
Proof.
  unfold map_realization. rewrite emit_bind. cbn [evs].
  eexists. split; [reflexivity|].
  match goal with |- Forall _ (evs (?m g)) => enough (emits (fun e => is_new_tracer e = false) m) as Hm by apply Hm end.
  apply emits_bind; [now apply emits_add_lenses|intros [c' lenses]].
  apply emits_bind; [now apply emits_call_reorder|intros _].
  apply emits_bind; [now apply emits_call_shoot|intros jacobian].
  apply emits_bind; [now apply emits_save_maps|intros _].
  apply emits_ret.
Qed.

Lemma catalog_realization_begins tracer model (settings : CatalogSettings.t U)
    storage save_path subdirs k galaxies randomizer lines r u (g : G) :
  exists rest,
    evs (catalog_realization tracer model settings storage save_path subdirs k
           galaxies randomizer lines r u g) = ENewTracer r :: rest
    /\ Forall (fun e => is_new_tracer e = false) rest.
Proof.
  unfold catalog_realization. rewrite emit_bind. cbn [evs].
  eexists. split; [reflexivity|].
  match goal with |- Forall _ (evs (?m g)) => enough (emits (fun e => is_new_tracer e = false) m) as Hm by apply Hm end.
  apply emits_bind; [now apply emits_add_catalog_lenses|intros lenses].
  apply emits_bind; [now apply emits_call_reorder|intros _].
  apply emits_bind; [now apply emits_call_shoot|intros jacobian].
  apply emits_bind; [apply emits_lift|intros shear_catalog].
  now apply emits_save_catalogs.
Qed.

(** A map run that ends normally went through the realizations of its
    task, each once and in order. *)
Lemma singleRedshift_realizations tracer disk pool batch
    (settings s : MapSettings.t F U) id (g : G) :
  map_settings_in_force disk batch settings id = Some s ->
  let out := singleRedshift tracer disk pool batch settings id g in
  res out = inr () ->
  realizations_begun (evs out)
  = task_range pool (MapSettings.lens_map_realizations s)
      "Perfect load-balancing enforced, map_realizations must be a multiple of the number of MPI tasks!".
Proof.
  intros Hforce. cbn zeta. unfold map_settings_in_force in Hforce.
  unfold singleRedshift, task_range.
  destruct (read_handles batch settings id) as [e|h]; [discriminate|].
  destruct (override_map_settings _ _ _) as [e|s0] eqn:Hov; [discriminate|].
  injection Hforce as ->.
  rewrite !lift_inr_bind, Hov, !lift_inr_bind, seed_bind.
  destruct (_ && _); [cbn zeta; cbn [res evs]|discriminate].
  step_lift.
  destruct (task_realizations _ _ _) as [e|[first last]];
    [rewrite lift_inl_bind; discriminate|rewrite lift_inr_bind].
  do 2 step_lift.
  match goal with
  | |- context [for_ ?xs ?b ?c ≫= _] =>
      destruct (for_realizations b (map_realization_begins tracer s _ _) xs c
                  (seed_state (task_seed pool (MapSettings.seed s))))
        as [_ Hall];
      destruct (res (for_ xs b c
                  (seed_state (task_seed pool (MapSettings.seed s)))))
        as [e|c'] eqn:E
  end.
  - rewrite (bind_inl _ _ _ _ E). discriminate.
  - rewrite (bind_inr _ _ _ _ E). cbn [res evs]. intros _.
    change (ESeed ?n :: ?l) with ([ESeed (F:=F) (U:=U) n] ++ l).
    rewrite !realizations_begun_app, (Hall c' eq_refl).
    rewrite (realizations_begun_none (evs (barrier pool _)))
      by (apply emits_barrier; reflexivity).
    cbn. now rewrite app_nil_r.
Qed.

(** One step of a run whose next statement has effects. *)
Local Ltac step_run H :=
  match goal with
  | |- context [res ((?m ≫= _) ?g)] =>
      destruct (res (m g)) eqn:H;
      [rewrite (bind_inl _ _ _ _ H); discriminate
      |rewrite (bind_inr _ _ _ _ H); cbn [res evs rng]]
  end.

(** A catalog run that ends normally went through the realizations of
    its task, each once and in order. *)
Lemma simulatedCatalog_realizations tracer disk pool (batch : Batch.t F U)
    (settings s : CatalogSettings.t U) id (g : G) :
  catalog_settings_in_force disk batch settings id = Some s ->
  let out := simulatedCatalog tracer disk pool batch settings id g in
  res out = inr () ->
  realizations_begun (evs out)
  = task_range pool (CatalogSettings.lens_catalog_realizations s)
      "Perfect load-balancing enforced, catalog_realizations must be a multiple of the number of MPI tasks!".
Proof.
  intros Hforce. cbn zeta. unfold catalog_settings_in_force in Hforce.
  unfold simulatedCatalog, task_range.
  destruct (read_catalog_handles batch settings id) as [e|[[model coll] cat]];
    [discriminate|].
  destruct (override_catalog_settings _ _ _) as [e|s0] eqn:Hov; [discriminate|].
  injection Hforce as ->.
  rewrite !lift_inr_bind, Hov, !lift_inr_bind, seed_bind.
  destruct (_ && _); [cbn zeta; cbn [res evs]|discriminate].
  step_run Hload. step_lift. step_run Hmk. step_run Hbar.
  destruct (task_realizations _ _ _) as [e|[first last]];
    [rewrite lift_inl_bind; discriminate|rewrite lift_inr_bind].
  do 2 step_lift. step_run Hdraw.
  match goal with
  | |- context [res ((for_ ?xs ?b ?c ≫= _) ?g0)] =>
      destruct (for_realizations b
                  (fun r u g1 =>
                     catalog_realization_begins tracer _ s _ _ _ _ _ _ _ r u g1)
                  xs c g0) as [_ Hall]
  end.
  step_run Hfor. intros _.
  change (ESeed ?n :: ?l) with ([ESeed (F:=F) (U:=U) n] ++ l).
  rewrite !realizations_begun_app, (Hall _ eq_refl).
  rewrite (realizations_begun_none (evs (load_galaxies _ _ _ _ _)))
    by (now apply emits_load_galaxies).
  rewrite (realizations_begun_none (evs (make_subdirectories _ _ _ _ _)))
    by (now apply emits_make_subdirectories).
  rewrite !(realizations_begun_none (evs (barrier pool _)))
    by (apply emits_barrier; reflexivity).
  rewrite (realizations_begun_none (evs (draw_randomizer _ _ _ _)))
    by (now apply emits_draw_randomizer).
  cbn. now rewrite app_nil_r.
Qed.

End Realizations.

(** ** Seeding *)

Section Seeding.
Context {F U G : Type} `{!PyFloat F} `{!Units U} `{!Rng G}.





End Seeding.

(** ** Realizations that do not divide among the tasks *)

Section Uneven.
Context {F U G : Type} `{!PyFloat F} `{!Units U} `{!Rng G}.

Lemma singleRedshift_uneven tracer disk (p : Pool.t) batch
    (settings s : MapSettings.t F U) id (g : G) :
  0 <= Pool.size p ->
  map_settings_in_force disk batch settings id = Some s ->
  MapSettings.lens_map_realizations s mod (Pool.size p + 1) <> 0 ->
  let out := singleRedshift tracer disk (Some p) batch settings id g in
  (exists e, res out = inl e)
  /\ Forall (fun e => is_new_tracer e = false) (evs out)
  /\ (forall h run,
        read_handles batch settings id = inr h ->
        read_plane_choice id h s = inr run ->
        0 <= task_seed (Some p) (MapSettings.seed s) < 2 ^ 32 ->
        res out = inl (Py.AssertionError
          "Perfect load-balancing enforced, map_realizations must be a multiple of the number of MPI tasks!")).
Proof.
  intros Hsize Hforce Hmod. cbn zeta.
  unfold map_settings_in_force in Hforce. unfold singleRedshift.
  destruct (read_handles batch settings id) as [e|h]; [discriminate|].
  destruct (override_map_settings _ _ _) as [e|s0] eqn:Hov; [discriminate|].
  injection Hforce as ->.
  rewrite !lift_inr_bind, Hov, !lift_inr_bind.
  match goal with
  | |- context [res (?m g)] =>
      assert (Hfail : fails_with (fun e => is_new_tracer e = false) m)
  end.
  { apply fails_with_bind_r; [now apply emits_seed|intros _].
    apply fails_with_bind_r; [apply emits_lift|intros run].
    rewrite task_realizations_uneven by assumption.
    apply fails_with_lift_inl. }
  split; [apply Hfail|split; [apply Hfail|]].
  - intros h' run Hh Hrun Hseed. injection Hh as <-.
    rewrite seed_bind.
    replace ((0 <=? _) && (_ <? 2 ^ 32)) with true
      by (symmetry; apply andb_true_iff; split; [apply Z.leb_le|apply Z.ltb_lt]; lia).
    cbn zeta. cbn [res]. rewrite Hrun, lift_inr_bind.
    rewrite task_realizations_uneven by assumption.
    now rewrite lift_inl_bind.
Qed.

Lemma simulatedCatalog_uneven tracer disk (p : Pool.t) (batch : Batch.t F U)
    (settings s : CatalogSettings.t U) id (g : G) :
  0 <= Pool.size p ->
  catalog_settings_in_force disk batch settings id = Some s ->
  CatalogSettings.lens_catalog_realizations s mod (Pool.size p + 1) <> 0 ->
  let out := simulatedCatalog tracer disk (Some p) batch settings id g in
  (exists e, res out = inl e)
  /\ Forall (fun e => is_new_tracer e = false) (evs out)
  /\ (forall save_path galaxies subdirs,
        catalog_save_path_of batch settings id = Some save_path ->
        0 <= task_seed (Some p) (CatalogSettings.seed s) < 2 ^ 32 ->
        res (load_galaxies disk (Some p) s save_path
               (seed_state (task_seed (Some p) (CatalogSettings.seed s))))
        = inr galaxies ->
        _subdirectories (CatalogSettings.lens_catalog_realizations s)
                        (realizations_in_subdir_of s) = inr subdirs ->
        res out = inl (Py.AssertionError
          "Perfect load-balancing enforced, catalog_realizations must be a multiple of the number of MPI tasks!")).
Proof.
  intros Hsize Hforce Hmod. cbn zeta.
  unfold catalog_settings_in_force in Hforce.
  unfold simulatedCatalog, catalog_save_path_of.
  destruct (read_catalog_handles batch settings id) as [e|[[model coll] cat]];
    [discriminate|].
  destruct (override_catalog_settings _ _ _) as [e|s0] eqn:Hov; [discriminate|].
  injection Hforce as ->.
  rewrite !lift_inr_bind, Hov, !lift_inr_bind.
  match goal with
  | |- context [res (?m g)] =>
      assert (Hfail : fails_with (fun e => is_new_tracer e = false) m)
  end.
  2: { split; [apply Hfail|split; [apply Hfail|]].
       intros save_path galaxies subdirs [= <-] Hseed Hload Hsub.
       rewrite seed_bind.
       replace ((0 <=? _) && (_ <? 2 ^ 32)) with true
         by (symmetry; apply andb_true_iff; split;
             [apply Z.leb_le|apply Z.ltb_lt]; lia).
       cbn zeta. cbn [res].
       rewrite (bind_inr _ _ _ _ Hload). cbn [res].
       rewrite Hsub, lift_inr_bind.
       rewrite (bind_inr _ _ _ _ (make_subdirectories_ok _ _ _ _ _)). cbn [res].
       rewrite (bind_inr _ _ _ _ (barrier_ok _ _)). cbn [res].
       rewrite task_realizations_uneven by assumption.
       now rewrite lift_inl_bind. }
  apply fails_with_bind_r; [now apply emits_seed|intros _].
  apply fails_with_bind_r; [now apply emits_load_galaxies|intros galaxies].
  apply fails_with_bind_r; [apply emits_lift|intros subdirs].
  apply fails_with_bind_r; [now apply emits_make_subdirectories|intros _].
  apply fails_with_bind_r; [now apply emits_barrier|intros _].
  rewrite task_realizations_uneven by assumption.
  apply fails_with_lift_inl.
Qed.

(** C8. With a pool of [pool.size + 1] tasks and a realization count that
    is not a multiple of it, both scripts raise before the first
    realization is begun (no tracer is instantiated), and the exception
    is the load-balancing [AssertionError] whenever the steps before it
    went through.  The run ends there: nothing is attempted again. *)
Theorem uneven_realizations_are_fatal tracer disk (p : Pool.t)
    (batch : Batch.t F U) id (g : G) :
  0 <= Pool.size p ->
  (forall settings s : MapSettings.t F U,
      map_settings_in_force disk batch settings id = Some s ->
      MapSettings.lens_map_realizations s mod (Pool.size p + 1) <> 0 ->
      let out := singleRedshift tracer disk (Some p) batch settings id g in
      (exists e, res out = inl e)
      /\ Forall (fun e => is_new_tracer e = false) (evs out)
      /\ (forall h run,
            read_handles batch settings id = inr h ->
            read_plane_choice id h s = inr run ->
            0 <= task_seed (Some p) (MapSettings.seed s) < 2 ^ 32 ->
            res out = inl (Py.AssertionError
              "Perfect load-balancing enforced, map_realizations must be a multiple of the number of MPI tasks!")))
  /\ (forall settings s : CatalogSettings.t U,
        catalog_settings_in_force disk batch settings id = Some s ->
        CatalogSettings.lens_catalog_realizations s mod (Pool.size p + 1) <> 0 ->
        let out := simulatedCatalog tracer disk (Some p) batch settings id g in
        (exists e, res out = inl e)
        /\ Forall (fun e => is_new_tracer e = false) (evs out)
        /\ (forall save_path galaxies subdirs,
              catalog_save_path_of batch settings id = Some save_path ->
              0 <= task_seed (Some p) (CatalogSettings.seed s) < 2 ^ 32 ->
              res (load_galaxies disk (Some p) s save_path
                     (seed_state (task_seed (Some p) (CatalogSettings.seed s))))
              = inr galaxies ->
              _subdirectories (CatalogSettings.lens_catalog_realizations s)
                              (realizations_in_subdir_of s) = inr subdirs ->
              res out = inl (Py.AssertionError
                "Perfect load-balancing enforced, catalog_realizations must be a multiple of the number of MPI tasks!"))).
Proof.
  intros Hsize. split; intros settings s Hforce Hmod.
  - now apply singleRedshift_uneven.
  - now apply simulatedCatalog_uneven.
Qed.

End Uneven.

(** ** Loading the galaxies *)

Section Galaxies.
Context {F U G : Type} `{!PyFloat F} `{!Units U} `{!Rng G}.

Lemma fold_left_add (xs : list Z) (x : Z) :
  fold_left Z.add xs x = x + sum_counts xs.
Proof.
  unfold sum_counts. revert x.
  induction xs as [|y ys IH]; intros x; cbn; [lia|].
  rewrite IH. lia.
Qed.

Lemma galaxies_before_of_sum (counts : list Z) :
  galaxies_before_of counts = sum_counts counts.
Proof.
  destruct counts as [|x xs]; [reflexivity|].
  unfold galaxies_before_of. cbn. rewrite fold_left_add. reflexivity.
Qed.

Lemma reduce_add_sum (counts : list Z) :
  counts <> [] -> Py.reduce_add counts = inr (sum_counts counts).
Proof.
  destruct counts as [|x xs]; [congruence|]. intros _.
  cbn. now rewrite fold_left_add.
Qed.

Lemma sum_counts_app (xs ys : list Z) :
  sum_counts (xs ++ ys) = sum_counts xs + sum_counts ys.
Proof.
  unfold sum_counts. induction xs as [|x xs IH]; cbn; [reflexivity|].
  rewrite IH. lia.
Qed.

Lemma sum_counts_nonneg (xs : list Z) :
  Forall (fun x => 0 <= x) xs -> 0 <= sum_counts xs.
Proof. unfold sum_counts. induction 1; cbn; lia. Qed.

Lemma clip_inside (n : nat) (i : Z) :
  0 <= i <= Z.of_nat n -> Py.clip n i = Z.to_nat i.
Proof.
  intros Hi. unfold Py.clip.
  destruct (Z.ltb_spec i 0); [lia|]. f_equal. lia.
Qed.

(** Writing a source of the right length into a slice that lies inside the
    array succeeds and keeps the length of the array. *)
Lemma slice_assign_inside {A} (arr src : list A) (a : Z) :
  0 <= a -> a + Z.of_nat (length src) <= Z.of_nat (length arr) ->
  exists arr', Py.slice_assign arr a (a + Z.of_nat (length src)) src = inr arr'
               /\ length arr' = length arr.
Proof.
  intros Ha Hb. unfold Py.slice_assign.
  rewrite !clip_inside by lia.
  replace (Z.to_nat (a + Z.of_nat (length src)) - Z.to_nat a)%nat
    with (length src) by lia.
  rewrite Nat.eqb_refl. eexists. split; [reflexivity|].
  rewrite !length_app, length_take, length_drop. lia.
Qed.

Lemma len_nonneg (c : PositionCatalog.t F) : 0 <= PositionCatalog.len c.
Proof. unfold PositionCatalog.len. lia. Qed.

Lemma length_x (c : PositionCatalog.t F) :
  Z.of_nat (length (PositionCatalog.x c)) = PositionCatalog.len c.
Proof. unfold PositionCatalog.x, PositionCatalog.len. now rewrite length_fmap. Qed.

Lemma length_y (c : PositionCatalog.t F) :
  Z.of_nat (length (PositionCatalog.y c)) = PositionCatalog.len c.
Proof. unfold PositionCatalog.y, PositionCatalog.len. now rewrite length_fmap. Qed.

Lemma length_z (c : PositionCatalog.t F) :
  Z.of_nat (length (PositionCatalog.z c)) = PositionCatalog.len c.
Proof. unfold PositionCatalog.z, PositionCatalog.len. now rewrite length_fmap. Qed.

(** One well-formed file that fits in the arrays is loaded. *)
Lemma load_catalog_file_fits disk pool (settings : CatalogSettings.t U)
    save_path file (c : PositionCatalog.t F) (st : Galaxies) (n : nat) (g : G) :
  read_catalog disk file = Some c ->
  PositionCatalog.AUNIT c
  = Some (unit_to_string (CatalogSettings.catalog_angle_unit settings)) ->
  is_Some (units_getattr
             (unit_to_string (CatalogSettings.catalog_angle_unit settings))) ->
  filled n st ->
  Forall (fun x => 0 <= x) (galaxies_in_catalog st) ->
  sum_counts (galaxies_in_catalog st) + PositionCatalog.len c <= Z.of_nat n ->
  exists st',
    res (load_catalog_file disk pool settings save_path file st g) = inr st'
    /\ filled n st'
    /\ galaxies_in_catalog st'
       = galaxies_in_catalog st ++ [PositionCatalog.len c].
Proof.
  intros Hread Haunit [u Hu] (Hx & Hy & Hz) Hpos Hfit.
  pose proof (sum_counts_nonneg _ Hpos) as Hsum.
  unfold load_catalog_file. rewrite galaxies_before_of_sum.
  unfold catalog_read. rewrite Hread, lift_inr_bind.
  unfold meta_AUNIT. rewrite Haunit, lift_inr_bind.
  rewrite String.eqb_refl. cbn [assert_]. rewrite lift_inr_bind.
  unfold getattr_u. rewrite Hu.
  destruct (slice_assign_inside (initial_positions_x st) (PositionCatalog.x c)
              (sum_counts (galaxies_in_catalog st))) as (xs & Exs & Lxs);
    [lia | rewrite length_x; lia |].
  destruct (slice_assign_inside (initial_positions_y st) (PositionCatalog.y c)
              (sum_counts (galaxies_in_catalog st))) as (ys & Eys & Lys);
    [lia | rewrite length_y; lia |].
  destruct (slice_assign_inside (galaxy_redshift st) (PositionCatalog.z c)
              (sum_counts (galaxies_in_catalog st))) as (zs & Ezs & Lzs);
    [lia | rewrite length_z; lia |].
  rewrite length_x in Exs. rewrite length_y in Eys. rewrite length_z in Ezs.
  exists (mkGalaxies xs ys zs
            (galaxies_in_catalog st ++ [PositionCatalog.len c])).
  split; [|split; [unfold filled; cbn; lia | reflexivity]].
  destruct (is_master pool).
  - rewrite emit_bind. cbn [res].
    rewrite !lift_inr_bind, Exs, !lift_inr_bind, Eys, !lift_inr_bind, Ezs.
    now rewrite lift_inr_bind.
  - rewrite ret_bind.
    rewrite !lift_inr_bind, Exs, !lift_inr_bind, Eys, !lift_inr_bind, Ezs.
    now rewrite lift_inr_bind.
Qed.

(** Whatever a file holds, a successful load appends its length to
    [galaxies_in_catalog]. *)
Lemma load_catalog_file_count disk pool (settings : CatalogSettings.t U)
    save_path file (c : PositionCatalog.t F) (st st' : Galaxies) (g : G) :
  read_catalog disk file = Some c ->
  res (load_catalog_file disk pool settings save_path file st g) = inr st' ->
  galaxies_in_catalog st' = galaxies_in_catalog st ++ [PositionCatalog.len c].
Proof.
  intros Hread. unfold load_catalog_file, catalog_read.
  rewrite Hread, lift_inr_bind.
  repeat step_lift.
  destruct (is_master pool); [rewrite emit_bind; cbn [res]|rewrite ret_bind].
  all: repeat step_lift.
  all: cbn; intros [= <-]; reflexivity.
Qed.

Lemma load_loop_fits disk pool (settings : CatalogSettings.t U) save_path
    files (cats : list (PositionCatalog.t F)) (n : nat) :
  Forall2 (fun f c => read_catalog disk f = Some c) files cats ->
  Forall (fun c => PositionCatalog.AUNIT c
                   = Some (unit_to_string
                             (CatalogSettings.catalog_angle_unit settings)))
         cats ->
  is_Some (units_getattr
             (unit_to_string (CatalogSettings.catalog_angle_unit settings))) ->
  forall (st : Galaxies) (g : G),
    filled n st ->
    Forall (fun x => 0 <= x) (galaxies_in_catalog st) ->
    sum_counts (galaxies_in_catalog st)
    + sum_counts (PositionCatalog.len <$> cats) <= Z.of_nat n ->
    exists st',
      res (for_ files (load_catalog_file disk pool settings save_path) st g)
      = inr st'
      /\ filled n st'
      /\ galaxies_in_catalog st'
         = galaxies_in_catalog st ++ (PositionCatalog.len <$> cats).
Proof.
  intros Hread Haunit Hu.
  induction Hread as [|file c files cats Hc Hread IH];
    intros st g Hfilled Hpos Hfit.
  - exists st. cbn. rewrite app_nil_r. auto.
  - apply Forall_cons in Haunit as [Hac Haunit].
    pose proof (len_nonneg c) as Hlen.
    assert (0 <= sum_counts (PositionCatalog.len <$> cats)) as Hrest.
    { apply sum_counts_nonneg, Forall_fmap, Forall_forall.
      intros; apply len_nonneg. }
    cbn [fmap list_fmap] in Hfit. unfold sum_counts in Hfit at 2.
    cbn [foldr] in Hfit. fold (sum_counts (PositionCatalog.len <$> cats)) in Hfit.
    destruct (load_catalog_file_fits disk pool settings save_path file c st n g)
      as (st1 & E1 & Hf1 & Hc1); auto; [lia|].
    cbn [for_]. rewrite (bind_inr _ _ _ _ E1). cbn [res].
    destruct (IH Haunit st1 (rng (load_catalog_file disk pool settings
                                    save_path file st g)))
      as (st' & E' & Hf' & Hc'); auto.
    + rewrite Hc1. apply Forall_app. split; [assumption|]. now constructor.
    + rewrite Hc1, sum_counts_app. unfold sum_counts at 2. cbn [foldr]. lia.
    + exists st'. split; [exact E'|]. split; [exact Hf'|].
      rewrite Hc', Hc1, <- app_assoc. reflexivity.
Qed.

Lemma load_loop_count disk pool (settings : CatalogSettings.t U) save_path
    files (cats : list (PositionCatalog.t F)) :
  Forall2 (fun f c => read_catalog disk f = Some c) files cats ->
  forall (st st' : Galaxies) (g : G),
    res (for_ files (load_catalog_file disk pool settings save_path) st g)
    = inr st' ->
    galaxies_in_catalog st'
    = galaxies_in_catalog st ++ (PositionCatalog.len <$> cats).
Proof.
  induction 1 as [|file c files cats Hc Hread IH]; intros st st' g.
  - cbn. intros [= <-]. now rewrite app_nil_r.
  - cbn [for_].
    destruct (res (load_catalog_file disk pool settings save_path file st g))
      as [e|st1] eqn:E1.
    + rewrite (bind_inl _ _ _ _ E1). discriminate.
    + rewrite (bind_inr _ _ _ _ E1). cbn [res]. intros E'.
      apply IH in E'. rewrite E'.
      rewrite (load_catalog_file_count _ _ _ _ _ _ _ _ _ Hc E1).
      now rewrite <- app_assoc.
Qed.

(** A mismatch between the declared galaxies and the settings makes
    [load_galaxies] raise, from any state. *)
Lemma load_galaxies_mismatch disk pool (settings : CatalogSettings.t U)
    save_path (cats : list (PositionCatalog.t F)) (g : G) :
  Forall2 (fun f c => read_catalog disk f = Some c)
          (CatalogSettings.input_files settings) cats ->
  sum_counts (PositionCatalog.len <$> cats)
  <> CatalogSettings.total_num_galaxies settings ->
  exists e, res (load_galaxies disk pool settings save_path g) = inl e.
Proof.
  intros Hread Hne. unfold load_galaxies.
  destruct (np_zeros _) as [e|zeros]; [rewrite lift_inl_bind; cbn; eauto|].
  rewrite lift_inr_bind.
  match goal with
  | |- context [for_ ?fs ?b ?s ≫= _] =>
      destruct (res (for_ fs b s g)) as [e|st] eqn:E
  end.
  - rewrite (bind_inl _ _ _ _ E). cbn. eauto.
  - rewrite (bind_inr _ _ _ _ E). cbn [res].
    apply (load_loop_count _ _ _ _ _ _ Hread) in E. cbn in E.
    destruct (galaxies_in_catalog st) as [|x xs] eqn:Ec.
    + cbn [Py.reduce_add]. rewrite lift_inl_bind. cbn. eauto.
    + rewrite reduce_add_sum by discriminate. rewrite lift_inr_bind.
      rewrite E.
      destruct (Z.eqb_spec (sum_counts (PositionCatalog.len <$> cats))
                  (CatalogSettings.total_num_galaxies settings));
        [contradiction|].
      cbn [assert_]. rewrite lift_inl_bind. cbn. eauto.
Qed.

(** C6. When the galaxies declared by the input files add up to
    [total_num_galaxies] the validation of lines 376-418 passes (the
    files being catalogs in the angle unit of the settings, at least
    one of them); when they add up to anything else the loading raises,
    and so does the whole run, without the tracer having been asked to
    shoot. *)
Theorem galaxy_count_is_validated disk pool (s : CatalogSettings.t U)
    save_path (cats : list (PositionCatalog.t F)) (g : G) :
  Forall2 (fun f c => read_catalog disk f = Some c)
          (CatalogSettings.input_files s) cats ->
  let declared := sum_counts (PositionCatalog.len <$> cats) in
  let total := CatalogSettings.total_num_galaxies s in
  (declared = total -> cats <> [] ->
   Forall (fun c => PositionCatalog.AUNIT c
                    = Some (unit_to_string (CatalogSettings.catalog_angle_unit s)))
          cats ->
   is_Some (units_getattr (unit_to_string (CatalogSettings.catalog_angle_unit s))) ->
   exists galaxies,
     res (load_galaxies disk pool s save_path g) = inr galaxies
     /\ galaxies_in_catalog galaxies = PositionCatalog.len <$> cats
     /\ filled (Z.to_nat total) galaxies)
  /\ (declared <> total ->
      (exists e, res (load_galaxies disk pool s save_path g) = inl e)
      /\ forall tracer (batch : Batch.t F U) settings id,
           catalog_settings_in_force disk batch settings id = Some s ->
           let out := simulatedCatalog tracer disk pool batch settings id g in
           (exists e, res out = inl e)
           /\ Forall (fun e => is_shoot e = false) (evs out)).
Proof.
  intros Hread declared total. split.
  - intros Hsum Hne Haunit Hu.
    assert (0 <= declared) as Hdecl.
    { apply sum_counts_nonneg, Forall_fmap, Forall_forall.
      intros; apply len_nonneg. }
    unfold load_galaxies, np_zeros. fold total.
    destruct (Z.ltb_spec total 0); [lia|]. rewrite lift_inr_bind.
    destruct (load_loop_fits disk pool s save_path _ cats (Z.to_nat total)
                Hread Haunit Hu
                (mkGalaxies (replicate (Z.to_nat total) (flit 0))
                            (replicate (Z.to_nat total) (flit 0))
                            (replicate (Z.to_nat total) (flit 0)) []) g)
      as (st & E & Hf & Hc).
    + unfold filled. cbn. now rewrite !length_replicate.
    + constructor.
    + cbn. fold declared. lia.
    + cbn in Hc. rewrite (bind_inr _ _ _ _ E). cbn [res].
      rewrite Hc, reduce_add_sum by (destruct cats; [congruence|discriminate]).
      rewrite lift_inr_bind. fold declared. rewrite Hsum, Z.eqb_refl.
      cbn [assert_]. rewrite lift_inr_bind. cbn. eauto.
  - intros Hne. split; [now apply (load_galaxies_mismatch _ _ _ _ cats)|].
    intros tracer batch settings id Hforce. cbn zeta.
    unfold catalog_settings_in_force in Hforce. unfold simulatedCatalog.
    destruct (read_catalog_handles batch settings id) as [e|[[model coll] cat]];
      [discriminate|].
    destruct (override_catalog_settings _ _ _) as [e|s0] eqn:Hov; [discriminate|].
    injection Hforce as ->.
    rewrite !lift_inr_bind, Hov, !lift_inr_bind.
    match goal with
    | |- context [res (?m g)] =>
        assert (Hfail : fails_with (fun e => is_shoot e = false) m)
    end.
    { apply fails_with_bind_r; [now apply emits_seed|intros _].
      apply fails_with_bind_l. intros g'. split.
      - now apply (load_galaxies_mismatch _ _ _ _ cats).
      - now apply emits_load_galaxies. }
    split; apply Hfail.
Qed.

End Galaxies.

(** ** Saving the shear catalogs *)

Section Saving.
Context {F U G : Type} `{!PyFloat F} `{!Units U} `{!Rng G}.

Lemma index_lookup {A} (l : list A) (i : nat) (x : A) :
  l !! i = Some x -> Py.index l (Z.of_nat i) = inr x.
Proof.
  intros Hl. pose proof (lookup_lt_Some _ _ _ Hl) as Hlt.
  unfold Py.index.
  destruct (Z.ltb_spec (Z.of_nat i) 0); [lia|].
  destruct (Z.leb_spec 0 (Z.of_nat i)); [|lia].
  destruct (Z.ltb_spec (Z.of_nat i) (Z.of_nat (length l))); [|lia].
  cbn. now rewrite Nat2Z.id, Hl.
Qed.

Lemma split_cons (sep : ascii) (s : string) :
  exists w ws, Py.split sep s = w :: ws.
Proof.
  induction s as [|c s IH]; cbn; [eauto|].
  destruct (Ascii.eqb c sep); [eauto|].
  destruct IH as (w & ws & ->). eauto.
Qed.

(** The subdirectories are the labels of the buckets [0 .. R/k - 1], or
    none when one bucket holds every realization. *)
Lemma subdirectories_inv (R k : Z) (subdirs : list string) :
  _subdirectories R k = inr subdirs ->
  k <> 0 /\ R mod k = 0
  /\ ((R = k /\ subdirs = [])
      \/ (R <> k /\ subdirs = subdirectory_label k <$> seqZ 0 (R / k))).
Proof.
  unfold _subdirectories, Py.mod_, Py.floordiv.
  destruct (Z.eqb_spec k 0); [discriminate|]. cbn.
  destruct (Z.eqb_spec (R mod k) 0); [|discriminate]. cbn.
  destruct (Z.eqb_spec R k).
  - intros [= <-]. auto.
  - cbn. intros [= <-]. repeat split; auto. right. split; [assumption|].
    unfold Py.range. now rewrite Z.sub_0_r.
Qed.

(** Realization [r] is saved in the bucket [r // k]. *)
Lemma subdirectory_of_realization (R k r : Z) (subdirs : list string) :
  _subdirectories R k = inr subdirs -> subdirs <> [] -> 0 <= r < R ->
  Py.floordiv r k = inr (r / k)
  /\ Py.index subdirs (r / k) = inr (subdirectory_label k (r / k)).
Proof.
  intros Hsub Hne Hr.
  apply subdirectories_inv in Hsub as (Hk & Hmod & [[_ ->]|[HRk ->]]);
    [congruence|].
  assert (0 < R / k) as Hq.
  { destruct (Z.ltb_spec 0 (R / k)) as [|Hle]; [assumption|].
    rewrite seqZ_nil in Hne by lia. now contradiction Hne. }
  assert (R = k * (R / k)) as HR.
  { pose proof (Z.div_mod R k Hk). lia. }
  assert (0 < k) by nia.
  assert (0 <= r / k) by (apply Z.div_pos; lia).
  assert (r / k < R / k) by (apply Z.div_lt_upper_bound; lia).
  split.
  - unfold Py.floordiv. destruct (Z.eqb_spec k 0); [lia|reflexivity].
  - rewrite <- (Z2Nat.id (r / k)) at 1 by lia. apply index_lookup.
    rewrite list_lookup_fmap, lookup_seqZ_lt by lia. cbn.
    f_equal. f_equal. lia.
Qed.


Lemma slice_inside {A} (l : list A) (a c : Z) :
  0 <= a -> 0 <= c -> a + c <= Z.of_nat (length l) ->
  Py.slice l a (a + c) = take (Z.to_nat c) (drop (Z.to_nat a) l).
Proof.
  intros Ha Hc Hin. unfold Py.slice. rewrite !clip_inside by lia.
  f_equal. lia.
Qed.








Lemma length_shear_catalog_of (jacobian : list (list F)) (rows : list (F * F))
    (n : nat) :
  Forall (fun j => length j = n) jacobian ->
  shear_catalog_of jacobian = inr rows -> length rows = n.
Proof.
  intros Hshape. unfold shear_catalog_of.
  destruct (Py.index jacobian 3) as [|j3] eqn:E3; [discriminate|].
  destruct (Py.index jacobian 0) as [|j0] eqn:E0; [discriminate|].
  destruct (Py.index jacobian 1) as [|j1] eqn:E1; [discriminate|].
  destruct (Py.index jacobian 2) as [|j2] eqn:E2; [discriminate|].
  cbn. intros [= <-].
  assert (Hin : forall i j, Py.index jacobian i = inr j -> length j = n).
  { intros i j. unfold Py.index.
    destruct (_ && _); [|discriminate].
    destruct (jacobian !! _) as [x|] eqn:El; [|discriminate].
    intros [= <-]. rewrite Forall_forall in Hshape.
    eapply Hshape, list_elem_of_lookup_2, El. }
  unfold shear1_of, shear2_of, arr_scale, arr_sub, arr_add.
  rewrite length_zip_with, !length_fmap, !length_zip_with.
  rewrite (Hin _ _ E0), (Hin _ _ E1), (Hin _ _ E2), (Hin _ _ E3). lia.
Qed.


End Saving.

(** ** The randomization matrix *)

Section Randomizer.
Context {F U G : Type} `{!PyFloat F} `{!Units U} `{!Rng G}.



Section Draws.
Context `{!RngInRange G}.





End Draws.







Lemma two_phases_bind {A B} (P Q : Event F U -> Prop) (m : M F U G A)
    (k : A -> M F U G B) :
  emits P m -> (forall a, two_phases P Q (k a)) -> two_phases P Q (m ≫= k).
Proof.
  intros Hm Hk g. destruct (res (m g)) as [e|a] eqn:E.
  - rewrite (bind_inl _ _ _ _ E). cbn. exists (evs (m g)), [].
    rewrite app_nil_r. repeat split; [apply Hm|constructor].
  - rewrite (bind_inr _ _ _ _ E). cbn.
    destruct (Hk a (rng (m g))) as (before & after & -> & Hb & Ha).
    exists (evs (m g) ++ before), after. rewrite app_assoc.
    repeat split; [|assumption]. apply Forall_app. split; [apply Hm|assumption].
Qed.

Lemma two_phases_second {A} (P Q : Event F U -> Prop) (m : M F U G A) :
  emits Q m -> two_phases P Q m.
Proof. intros Hm g. exists [], (evs (m g)). repeat split; [constructor|apply Hm]. Qed.




End Randomizer.

(** ** The unit of a distance in the plane summary *)

(** Whatever unit name a line of [info.txt] carries, the units module is
    only ever asked for the attribute called ["unit"]: two units modules
    that agree on that one name parse every line alike. *)
Lemma parse_info_line_ignores_unit_name {F U} `{!PyFloat F}
    (u1 u2 : Units U) (model : Model.t F U) (line : string) :
  @units_getattr U u1 "unit" = @units_getattr U u2 "unit" ->
  @parse_info_line F U _ u1 model line = @parse_info_line F U _ u2 model line.
Proof.
  intros Hu. unfold parse_info_line, getattr_u. now rewrite Hu.
Qed.

(** C3. A line whose distance is given in [Mpc], a unit the units module
    knows, is not parsed into a distance in that unit: the module is
    asked for an attribute called ["unit"], which it does not have, and
    the line is rejected; the same happens for [kpc].  A line in [Mpc/h]
    gets the unit of the model. *)
Theorem manifest_unit_name_is_not_resolved :
  getattr_u (U:=string) "Mpc" = inr "Mpc"
  /\ parse_info_line Demo.model "snapshot=3,distance=120.5 Mpc,redshift=0.4"
     = inl (Py.AttributeError "unit")
  /\ parse_info_line Demo.model "snapshot=3,distance=120500 kpc,redshift=0.4"
     = inl (Py.AttributeError "unit")
  /\ parse_info_line Demo.model "snapshot=3,distance=120.5 Mpc/h,redshift=0.4"
     = inr (3, mkQuantity (241 # 2)%Q "Mpc/h", (2 # 5)%Q).
Proof. repeat split; vm_compute; reflexivity. Qed.

(** ** The names of the shear catalogs *)

(** Where the code saves: in the save path when one bucket holds all
    realizations, else in the bucket of the realization; under a name
    made of what precedes the first dot of the input path. *)
Lemma shear_catalog_savename_layout save_path (R k r : Z) subdirs file format :
  _subdirectories R k = inr subdirs -> 0 < k -> 0 <= r < R ->
  let stem := Py.basename (hd "" (Py.split "." file)) in
  let name := "WLshear_" +:+ stem +:+ "_" +:+ Py.fmt_04d (r + 1)
              +:+ "r." +:+ format in
  shear_catalog_savename save_path subdirs k file r format
  = inr (if R =? k then Py.path_join save_path [name]
         else Py.path_join save_path [subdirectory_label k (r / k); name]).
Proof.
  intros Hsub Hk Hr stem name. unfold shear_catalog_savename.
  destruct (split_cons "." file) as (w & ws & Ew).
  subst stem name. rewrite Ew. cbn [hd].
  change (Py.index (w :: ws) 0) with (Py.index (w :: ws) (Z.of_nat 0)).
  rewrite (index_lookup (w :: ws) 0 w eq_refl).
  pose proof Hsub as Hinv.
  apply subdirectories_inv in Hinv as (_ & Hmod & [[-> ->]|[HRk Hs]]).
  - rewrite Z.eqb_refl. reflexivity.
  - destruct (Z.eqb_spec R k); [contradiction|].
    assert (R = k * (R / k)) by (pose proof (Z.div_mod R k ltac:(lia)); lia).
    assert (0 < R / k) by nia.
    assert (subdirs <> []) as Hne.
    { rewrite Hs. replace (R / k) with (Z.succ (Z.pred (R / k))) by lia.
      rewrite seqZ_cons by lia. discriminate. }
    destruct (subdirectory_of_realization R k r subdirs Hsub Hne Hr) as [-> Hd].
    destruct subdirs as [|d ds]; [congruence|].
    cbn [length Nat.eqb negb]. cbn. rewrite Hd. reflexivity.
Qed.

(** C9. For the input file [./galaxies.fits] the catalog of the first
    realization is saved as [WLshear__0001r.fits], not under the name of
    the file without its extension, [galaxies]: the path is cut at its
    first dot before the directories are removed.  Two input files of one
    dotted directory are saved under one name. *)
Theorem shear_catalog_name_of_dotted_path :
  basename_without_extension "./galaxies.fits" = "galaxies"
  /\ shear_catalog_savename "/sim/Catalog" [] 4 "./galaxies.fits" 0 "fits"
     = inr "/sim/Catalog/WLshear__0001r.fits"
  /\ shear_catalog_savename "/sim/Catalog" ["1-2"; "3-4"] 2
       "run.v2/east.fits" 2 "fits"
     = inr "/sim/Catalog/3-4/WLshear_run_0003r.fits"
  /\ shear_catalog_savename "/sim/Catalog" ["1-2"; "3-4"] 2
       "run.v2/west.fits" 2 "fits"
     = inr "/sim/Catalog/3-4/WLshear_run_0003r.fits"
  /\ shear_catalog_savename "/sim/Catalog" ["1-2"; "3-4"] 2
       "in/east.fits" 2 "fits"
     = inr "/sim/Catalog/3-4/WLshear_east_0003r.fits".
Proof. repeat split; vm_compute; reflexivity. Qed.

(** ** The FastPM header *)


(** * The statements at work on the concrete instance *)



(** Twelve realizations on four tasks. *)
Lemma partition_complete_witness :
  (0 <= 12 /\ 0 <= 3 /\ 12 mod (3 + 1) = 0)
  /\ concat ((fun rank =>
                task_range (Some (Pool.mk rank 3 (rank =? 0))) 12 "uneven")
             <$> seqZ 0 4)
     = seqZ 0 12
  /\ task_range (Some (Pool.mk 2 3 false)) 12 "uneven" = [6; 7; 8].
Proof.
  split; [repeat split; try lia; reflexivity|].
  pose proof (partition_complete 12 3 "uneven" (fun rank => rank =? 0)
                ltac:(lia) ltac:(lia) eq_refl) as H.
  cbn zeta in H. destruct H as (_ & Hconcat & _).
  split; [exact Hconcat | reflexivity].
Defined.


(** Files of 100, 250 and 50 galaxies: 400 passes, 399 does not. *)
Lemma galaxy_count_is_validated_witness :
  let cats := [Demo.galaxies 100; Demo.galaxies 250; Demo.galaxies 50] in
  sum_counts (PositionCatalog.len <$> cats) = 400
  /\ (exists galaxies,
         res (load_galaxies Demo.disk None
                (Demo.catalog_settings 400 4 (Some 2)) "/sim/512/Catalog" 0)
         = inr galaxies
         /\ galaxies_in_catalog galaxies = [100; 250; 50])
  /\ (exists e,
         res (simulatedCatalog Demo.free_tracer Demo.disk None Demo.batch
                (Demo.catalog_settings 399 4 (Some 2)) "cosmo|512b240" 0)
         = inl e)
  /\ Forall (fun e => is_shoot e = false)
       (evs (simulatedCatalog Demo.free_tracer Demo.disk None Demo.batch
               (Demo.catalog_settings 399 4 (Some 2)) "cosmo|512b240" 0)).
Proof.
  cbn zeta. split; [reflexivity|].
  assert (Hread : forall total,
    Forall2 (fun f c => read_catalog Demo.disk f = Some c)
      (CatalogSettings.input_files (Demo.catalog_settings total 4 (Some 2)))
      [Demo.galaxies 100; Demo.galaxies 250; Demo.galaxies 50])
    by (intros; repeat constructor).
  pose proof (galaxy_count_is_validated (G:=Z) Demo.disk None
                (Demo.catalog_settings 400 4 (Some 2)) "/sim/512/Catalog"
                _ 0 (Hread 400)) as Hpass.
  pose proof (galaxy_count_is_validated (G:=Z) Demo.disk None
                (Demo.catalog_settings 399 4 (Some 2)) "/sim/512/Catalog"
                _ 0 (Hread 399)) as Hfail.
  cbn zeta in Hpass, Hfail.
  destruct Hpass as [Hpass _]. destruct Hfail as [_ Hfail].
  split.
  - destruct Hpass as (galaxies & Hres & Hcounts & _);
      [reflexivity | discriminate | repeat constructor | eexists; reflexivity |].
    exists galaxies. split; [exact Hres | exact Hcounts].
  - destruct Hfail as [_ Hrun]; [vm_compute; discriminate|].
    exact (Hrun Demo.free_tracer Demo.batch
             (Demo.catalog_settings 399 4 (Some 2)) "cosmo|512b240" eq_refl).
Defined.


(** Four realizations on three tasks. *)
Lemma uneven_realizations_are_fatal_witness :
  let p := Pool.mk 1 2 false in
  4 mod (Pool.size p + 1) <> 0
  /\ res (singleRedshift Demo.free_tracer Demo.disk (Some p) Demo.batch
            (Demo.map_settings 4) "cosmo|512b240" 0)
     = inl (Py.AssertionError
         "Perfect load-balancing enforced, map_realizations must be a multiple of the number of MPI tasks!")
  /\ Forall (fun e => is_new_tracer e = false)
       (evs (simulatedCatalog Demo.free_tracer Demo.disk (Some p) Demo.batch
               (Demo.catalog_settings 400 4 (Some 2)) "cosmo|512b240" 0)).
Proof.
  cbn zeta. split; [vm_compute; discriminate|].
  pose proof (uneven_realizations_are_fatal Demo.free_tracer Demo.disk
                (Pool.mk 1 2 false) Demo.batch "cosmo|512b240" 0
                ltac:(cbn; lia)) as [Hmap Hcat].
  split.
  - destruct (Hmap (Demo.map_settings 4) (Demo.map_settings 4) eq_refl
                ltac:(vm_compute; discriminate)) as (_ & _ & Hassert).
    eapply Hassert; [reflexivity | reflexivity | cbn; lia].
  - exact (proj1 (proj2 (Hcat (Demo.catalog_settings 400 4 (Some 2))
                           (Demo.catalog_settings 400 4 (Some 2)) eq_refl
                           ltac:(vm_compute; discriminate)))).
Defined.


(** * Further properties of the code *)

(** ** The particles of the tasks of a FastPM snapshot *)

Lemma slice_seqZ (n first last : Z) :
  0 <= first <= last -> last <= n ->
  Py.slice (seqZ 0 n) first last = seqZ first (last - first).
Proof.
  intros Hf Hl.
  replace last with (first + (last - first)) at 1 by lia.
  rewrite slice_inside by (rewrite ?length_seqZ; lia).
  replace n with (first + ((last - first) + (n - last))) by lia.
  rewrite seqZ_app, Z.add_0_l by lia.
  rewrite drop_app_length' by (rewrite length_seqZ; lia).
  rewrite seqZ_app by lia.
  apply take_app_length'. rewrite length_seqZ. lia.
Qed.

Lemma setLimits_rank (p : Pool.t) (Np : Z) :
  0 <= Pool.size p ->
  let Nt := Pool.size p + 1 in
  FastPMSnapshot.setLimits (Some p) Np
  = inr (Some (Np / Nt * Pool.rank p),
         Some (if Pool.rank p =? Pool.size p
               then Np / Nt * (Pool.rank p + 1) + Np mod Nt
               else Np / Nt * (Pool.rank p + 1))).
Proof.
  intros Hs Nt. unfold FastPMSnapshot.setLimits, Py.floordiv, Py.mod_.
  fold Nt. destruct (Z.eqb_spec Nt 0) as [E|_]; [unfold Nt in E; lia|].
  cbn. replace (Nt - 1) with (Pool.size p) by (unfold Nt; lia).
  destruct (Z.eqb_spec (Np mod Nt) 0) as [E|_]; cbn.
  - rewrite E, Z.add_0_r. now destruct (_ =? _).
  - now destruct (_ =? _).
Qed.

(** X1. [setLimits] divides the [Np] particles of a snapshot among the
    [pool.size + 1] tasks whatever [Np] is: every task gets [Np // Nt]
    particles, the last one the remainder as well, and the slices that
    the tasks read, taken in rank order, are the particles [0 .. Np-1]
    once each.  Without a pool the limits are [None] and everything is
    read. *)
Theorem setLimits_partition (Np size : Z) (master : Z -> bool) :
  0 <= Np -> 0 <= size ->
  let Nt := size + 1 in
  let pool rank := Some (Pool.mk rank size (master rank)) in
  let read rank :=
    match FastPMSnapshot.setLimits (pool rank) Np with
    | inr limits => FastPMSnapshot.particles_read limits Np
    | inl _ => []
    end in
  (forall rank, 0 <= rank < size -> read rank = seqZ (Np / Nt * rank) (Np / Nt))
  /\ read size = seqZ (Np / Nt * size) (Np / Nt + Np mod Nt)
  /\ concat (read <$> seqZ 0 Nt) = seqZ 0 Np
  /\ FastPMSnapshot.setLimits None Np = inr (None, None)
  /\ FastPMSnapshot.particles_read (None, None) Np = seqZ 0 Np.
Proof.
  intros HNp Hsize Nt pool read.
  assert (0 < Nt) as HNt by (unfold Nt; lia).
  pose proof (Z.div_mod Np Nt ltac:(lia)) as Hdm.
  pose proof (Z.mod_pos_bound Np Nt HNt) as Hmod.
  assert (0 <= Np / Nt) as Hq by (apply Z.div_pos; lia).
  assert (Hinner : forall rank, 0 <= rank < size ->
            read rank = seqZ (Np / Nt * rank) (Np / Nt)).
  { intros rank Hr. unfold read, pool.
    rewrite setLimits_rank by (cbn; lia). cbn [Pool.rank Pool.size].
    destruct (Z.eqb_spec rank size); [lia|].
    unfold FastPMSnapshot.particles_read. fold Nt.
    rewrite slice_seqZ by nia. f_equal. lia. }
  assert (Hlast : read size = seqZ (Np / Nt * size) (Np / Nt + Np mod Nt)).
  { unfold read, pool.
    rewrite setLimits_rank by (cbn; lia). cbn [Pool.rank Pool.size].
    rewrite Z.eqb_refl. unfold FastPMSnapshot.particles_read. fold Nt.
    rewrite slice_seqZ by (unfold Nt in *; nia). f_equal. lia. }
  repeat apply conj; try assumption; try reflexivity.
  replace (seqZ 0 Nt) with (seqZ 0 (Z.of_nat (S (Z.to_nat size))))
    by (f_equal; unfold Nt; lia).
  rewrite seqZ_S, fmap_app, concat_app. cbn [fmap list_fmap concat].
  rewrite app_nil_r, Z.add_0_l.
  replace (read (Z.of_nat (Z.to_nat size))) with (read size)
    by (f_equal; lia).
  rewrite Hlast.
  rewrite (list_fmap_ext read (fun k => seqZ (Np / Nt * k) (Np / Nt))
             (seqZ 0 (Z.of_nat (Z.to_nat size)))).
  - rewrite concat_blocks by assumption. rewrite Z2Nat.id by lia.
    replace (seqZ (Np / Nt * size) (Np / Nt + Np mod Nt))
      with (seqZ (0 + Np / Nt * size) (Np / Nt + Np mod Nt))
      by (f_equal; lia).
    rewrite <- seqZ_app by lia. f_equal. unfold Nt in *. lia.
  - intros i x Hx. apply lookup_seqZ in Hx. apply Hinner. lia.
Qed.

(** Ten particles on three tasks: 3, 3 and 4. *)
Lemma setLimits_partition_witness :
  FastPMSnapshot.setLimits (Some (Pool.mk 2 2 false)) 10 = inr (Some 6, Some 10)
  /\ concat ((fun rank =>
                match FastPMSnapshot.setLimits (Some (Pool.mk rank 2 (rank =? 0))) 10 with
                | inr limits => FastPMSnapshot.particles_read limits 10
                | inl _ => []
                end) <$> seqZ 0 3)
     = seqZ 0 10.
Proof.
  split; [reflexivity|].
  exact (proj1 (proj2 (proj2 (setLimits_partition 10 2 (fun rank => rank =? 0)
                                ltac:(lia) ltac:(lia))))).
Defined.

(** ** Strings and decimal numerals *)

Lemma chars_app (a b : string) : chars (a +:+ b) = chars a ++ chars b.
Proof.
  induction a as [|c a IH]; [reflexivity|].
  change (chars (String c (a +:+ b)) = c :: (chars a ++ chars b)).
  unfold chars in *. cbn. now rewrite IH.
Qed.

Lemma chars_inj (a b : string) : chars a = chars b -> a = b.
Proof.
  intros H. rewrite <- (string_of_list_ascii_of_string a),
    <- (string_of_list_ascii_of_string b). unfold chars in H. now rewrite H.
Qed.

Lemma chars_of_list (l : list ascii) : chars (string_of_list_ascii l) = l.
Proof. apply list_ascii_of_string_of_list_ascii. Qed.

Lemma app_inv_suffix (a b s : string) : a +:+ s = b +:+ s -> a = b.
Proof.
  intros H. apply chars_inj. apply (f_equal chars) in H.
  rewrite !chars_app in H. now apply app_inv_tail in H.
Qed.

Lemma split_free (sep : ascii) (s : string) :
  free_of sep s -> Py.split sep s = [s].
Proof.
  unfold free_of, chars. induction s as [|c s IH]; cbn; [reflexivity|].
  intros H. apply Forall_cons in H as [-> H]. now rewrite IH.
Qed.

Lemma split_app (sep : ascii) (a b : string) :
  free_of sep a -> Py.split sep (a +:+ String sep b) = a :: Py.split sep b.
Proof.
  unfold free_of, chars. induction a as [|c a IH]; intros H.
  - change ("" +:+ String sep b) with (String sep b).
    cbn. now rewrite Ascii.eqb_refl.
  - cbn in H. apply Forall_cons in H as [Hc H].
    change (String c a +:+ String sep b) with (String c (a +:+ String sep b)).
    cbn. now rewrite Hc, IH.
Qed.

Lemma free_of_app (sep : ascii) (a b : string) :
  free_of sep (a +:+ b) <-> free_of sep a /\ free_of sep b.
Proof. unfold free_of. rewrite chars_app. apply Forall_app. Qed.

(** Decimal digits *)

Lemma digit_val_pretty_N_char (d : N) :
  (d < 10)%N -> Py.digit_val (pretty_N_char d) = Some (Z.of_N d).
Proof.
  intros H.
  assert (d = 0 \/ d = 1 \/ d = 2 \/ d = 3 \/ d = 4 \/ d = 5 \/ d = 6
          \/ d = 7 \/ d = 8 \/ d = 9)%N as Hd by lia.
  repeat (destruct Hd as [->|Hd]; [reflexivity|]). now subst.
Qed.

Lemma pretty_N_go_digits (x : N) (s : string) :
  exists ds,
    chars (pretty_N_go x s) = ds ++ chars s
    /\ Forall (fun c => is_digit c = true) ds
    /\ ((0 < x)%N -> ds <> [])
    /\ forall acc rest,
         Py.digits_val acc (ds ++ rest)
         = Py.digits_val (acc * 10 ^ Z.of_nat (length ds) + Z.of_N x) rest.
Proof.
  revert s. induction (N.lt_wf_0 x) as [x _ IH]. intros s.
  destruct (N.eq_dec x 0%N) as [->|Hx].
  - exists []. rewrite pretty_N_go_0. repeat split; [constructor|lia|].
    intros acc rest. cbn. f_equal. lia.
  - rewrite pretty_N_go_step by lia.
    destruct (IH (x `div` 10)%N ltac:(apply N.div_lt; lia)
                (String (pretty_N_char (x `mod` 10)) s))
      as (ds & Hchars & Hdig & _ & Hval).
    pose proof (digit_val_pretty_N_char (x `mod` 10)
                  ltac:(apply N.mod_lt; lia)) as Hc.
    exists (ds ++ [pretty_N_char (x `mod` 10)]).
    split; [rewrite Hchars, <- app_assoc; reflexivity|].
    split.
    { apply Forall_app. split; [assumption|]. constructor; [|constructor].
      unfold is_digit. now rewrite Hc. }
    split; [intros _; now destruct ds|].
    intros acc rest. rewrite <- app_assoc. cbn [app].
    rewrite Hval. cbn [Py.digits_val]. rewrite Hc. f_equal.
    rewrite length_app. cbn [length].
    rewrite Nat2Z.inj_add, Z.pow_add_r by lia.
    pose proof (N.div_mod x 10%N ltac:(lia)) as Hdm.
    change (Z.of_nat 1) with 1. rewrite Z.pow_1_r. lia.
Qed.

Lemma pretty_N_digits (x : N) :
  exists ds,
    chars (pretty x) = ds /\ ds <> []
    /\ Forall (fun c => is_digit c = true) ds
    /\ Py.digits_val 0 ds = Some (Z.of_N x).
Proof.
  unfold pretty, pretty_N. destruct (decide (x = 0%N)) as [->|Hx].
  - exists ["0"%char]. split; [reflexivity|]. split; [discriminate|].
    split; [|reflexivity]. constructor; [reflexivity|constructor].
  - destruct (pretty_N_go_digits x "") as (ds & Hchars & Hdig & Hne & Hval).
    exists ds. change (chars "") with (@nil ascii) in Hchars.
    rewrite app_nil_r in Hchars.
    split; [assumption|]. split; [apply Hne; lia|]. split; [assumption|].
    rewrite <- (app_nil_r ds) at 1. rewrite Hval.
    cbn [Py.digits_val]. f_equal; lia.
Qed.

Lemma str_int_nonneg (n : Z) :
  0 <= n ->
  exists ds,
    chars (Py.str_int n) = ds /\ ds <> []
    /\ Forall (fun c => is_digit c = true) ds
    /\ Py.digits_val 0 ds = Some n.
Proof.
  intros Hn. unfold Py.str_int, pretty, pretty_Z.
  destruct n as [|p|p]; [| |lia].
  - exists ["0"%char]. split; [reflexivity|]. split; [discriminate|].
    split; [|reflexivity]. constructor; [reflexivity|constructor].
  - apply (pretty_N_digits (N.pos p)).
Qed.

Lemma str_int_neg (n : Z) :
  n < 0 -> chars (Py.str_int n) = "-"%char :: chars (Py.str_int (- n)).
Proof.
  intros Hn. destruct n as [|p|p]; [lia|lia|]. reflexivity.
Qed.

Lemma digit_not_blank (c : ascii) : is_digit c = true -> Py.is_blank c = false.
Proof.
  intros H. unfold Py.is_blank.
  repeat match goal with
         | |- context [Ascii.eqb c ?x] =>
             destruct (Ascii.eqb_spec c x) as [->|_]; [discriminate H|]
         end.
  reflexivity.
Qed.

Lemma lstrip_non_blank (l : list ascii) :
  Forall (fun c => Py.is_blank c = false) l -> Py.lstrip l = l.
Proof. intros H. destruct H as [|c l Hc _]; cbn; [reflexivity|now rewrite Hc]. Qed.

Lemma strip_non_blank (l : list ascii) :
  Forall (fun c => Py.is_blank c = false) l -> Py.strip l = l.
Proof.
  intros H. unfold Py.strip.
  rewrite (lstrip_non_blank l H), lstrip_non_blank, rev_involutive; [reflexivity|].
  now apply List.Forall_rev.
Qed.

Lemma int_of_str_digits (s : string) (n : Z) :
  chars s <> [] -> Forall (fun c => is_digit c = true) (chars s) ->
  Py.digits_val 0 (chars s) = Some n -> Py.int_of_str s = inr n.
Proof.
  intros Hne Hdig Hval. unfold Py.int_of_str. fold (chars s).
  rewrite strip_non_blank
    by (eapply Forall_impl; [exact Hdig|apply digit_not_blank]).
  destruct (chars s) as [|c ds]; [congruence|].
  apply Forall_cons in Hdig as [Hc _].
  destruct (Ascii.eqb_spec c "-") as [->|_]; [discriminate Hc|].
  destruct (Ascii.eqb_spec c "+") as [->|_]; [discriminate Hc|].
  now rewrite Hval.
Qed.

Lemma int_of_str_minus_digits (s : string) (ds : list ascii) (n : Z) :
  chars s = "-"%char :: ds ->
  ds <> [] -> Forall (fun c => is_digit c = true) ds ->
  Py.digits_val 0 ds = Some n -> Py.int_of_str s = inr (- n).
Proof.
  intros Hs Hne Hdig Hval. unfold Py.int_of_str. fold (chars s).
  rewrite Hs, strip_non_blank.
  - cbn [Ascii.eqb Bool.eqb]. cbn.
    destruct ds as [|d ds]; [congruence|]. now rewrite Hval.
  - constructor; [reflexivity|].
    eapply Forall_impl; [exact Hdig|apply digit_not_blank].
Qed.

Lemma int_of_str_str_int (n : Z) : Py.int_of_str (Py.str_int n) = inr n.
Proof.
  destruct (Z.lt_ge_cases n 0) as [Hn|Hn].
  - destruct (str_int_nonneg (- n) ltac:(lia)) as (ds & Hds & Hne & Hdig & Hval).
    rewrite (int_of_str_minus_digits _ ds (- n)); [f_equal; lia|..]; try assumption.
    now rewrite str_int_neg, Hds.
  - destruct (str_int_nonneg n Hn) as (ds & <- & Hne & Hdig & Hval).
    now apply int_of_str_digits.
Qed.

Lemma digits_val_zeros (k : nat) (ds : list ascii) :
  Py.digits_val 0 (replicate k "0"%char ++ ds) = Py.digits_val 0 ds.
Proof. induction k as [|k IH]; [reflexivity|exact IH]. Qed.

Lemma chars_zfill (width : nat) (digits : string) :
  chars (Py.zfill width digits)
  = replicate (width - String.length digits) "0"%char ++ chars digits.
Proof. unfold Py.zfill. now rewrite chars_app, chars_of_list. Qed.

Lemma zfill_digits (width : nat) (s : string) (n : Z) :
  chars s <> [] -> Forall (fun c => is_digit c = true) (chars s) ->
  Py.digits_val 0 (chars s) = Some n ->
  chars (Py.zfill width s) <> []
  /\ Forall (fun c => is_digit c = true) (chars (Py.zfill width s))
  /\ Py.digits_val 0 (chars (Py.zfill width s)) = Some n.
Proof.
  intros Hne Hdig Hval. rewrite chars_zfill. repeat split.
  - intros H. apply app_eq_nil in H as [_ H]. contradiction.
  - apply Forall_app. split; [|assumption].
    apply Forall_replicate. reflexivity.
  - now rewrite digits_val_zeros.
Qed.

Lemma int_of_str_fmt_04d (n : Z) : Py.int_of_str (Py.fmt_04d n) = inr n.
Proof.
  unfold Py.fmt_04d. destruct (Z.ltb_spec n 0) as [Hn|Hn].
  - destruct (str_int_nonneg (Z.abs n) ltac:(lia)) as (ds & Hds & Hne & Hdig & Hval).
    unfold Py.str_int in Hds. subst ds.
    destruct (zfill_digits 3 _ _ Hne Hdig Hval) as (Hne' & Hdig' & Hval').
    rewrite (int_of_str_minus_digits _ _ (Z.abs n) (chars_app "-" _)
               Hne' Hdig' Hval').
    f_equal. lia.
  - destruct (str_int_nonneg n Hn) as (ds & Hds & Hne & Hdig & Hval).
    unfold Py.str_int in Hds. subst ds.
    destruct (zfill_digits 4 _ _ Hne Hdig Hval) as (Hne' & Hdig' & Hval').
    now apply int_of_str_digits.
Qed.

Lemma fmt_04d_inj (n m : Z) : Py.fmt_04d n = Py.fmt_04d m -> n = m.
Proof.
  intros H. apply (f_equal Py.int_of_str) in H.
  rewrite !int_of_str_fmt_04d in H. congruence.
Qed.



Lemma str_int_chars (n : Z) :
  Forall (fun c => is_digit c = true \/ c = "-"%char) (chars (Py.str_int n)).
Proof.
  destruct (Z.lt_ge_cases n 0) as [Hn|Hn].
  - rewrite str_int_neg by assumption. constructor; [now right|].
    destruct (str_int_nonneg (- n) ltac:(lia)) as (ds & -> & _ & Hdig & _).
    eapply Forall_impl; [exact Hdig|]. intros c Hc. now left.
  - destruct (str_int_nonneg n Hn) as (ds & -> & _ & Hdig & _).
    eapply Forall_impl; [exact Hdig|]. intros c Hc. now left.
Qed.

Lemma str_int_free_of (sep : ascii) (n : Z) :
  is_digit sep = false -> sep <> "-"%char -> free_of sep (Py.str_int n).
Proof.
  intros Hd Hm. eapply Forall_impl; [apply str_int_chars|].
  intros c Hc. destruct (Ascii.eqb_spec c sep) as [->|]; [|reflexivity].
  destruct Hc; congruence.
Qed.

(** A run of digits that ends at a character which is no digit is
    determined by the string it starts. *)
Lemma digits_prefix_unique (ds ds' : list ascii) (x x' : ascii) (r r' : list ascii) :
  Forall (fun c => is_digit c = true) ds ->
  Forall (fun c => is_digit c = true) ds' ->
  is_digit x = false -> is_digit x' = false ->
  ds ++ x :: r = ds' ++ x' :: r' -> ds = ds' /\ x = x' /\ r = r'.
Proof.
  intros Hds. revert ds'.
  induction Hds as [|d ds Hd _ IH]; intros ds' Hds' Hx Hx' E.
  - destruct Hds' as [|d' ds' Hd' _]; cbn in E.
    + injection E as -> ->. auto.
    + injection E as -> _. congruence.
  - destruct Hds' as [|d' ds' Hd' Hds']; cbn in E.
    + injection E as -> _. congruence.
    + injection E as -> E. destruct (IH ds' Hds' Hx Hx' E) as (-> & -> & ->). auto.
Qed.

Lemma str_int_inj (n m : Z) : Py.str_int n = Py.str_int m -> n = m.
Proof. apply (inj pretty). Qed.

Lemma subdirectory_label_inj (k c c' : Z) :
  0 < k -> 0 <= c -> 0 <= c' ->
  subdirectory_label k c = subdirectory_label k c' -> c = c'.
Proof.
  intros Hk Hc Hc' E. apply (f_equal chars) in E.
  unfold subdirectory_label in E. rewrite !chars_app in E.
  destruct (str_int_nonneg (c * k + 1) ltac:(nia)) as (ds & Hds & _ & Hdig & _).
  destruct (str_int_nonneg (c' * k + 1) ltac:(nia)) as (ds' & Hds' & _ & Hdig' & _).
  rewrite Hds, Hds' in E. change (chars "-") with ["-"%char] in E. cbn [app] in E.
  apply digits_prefix_unique in E as (E & _); try assumption; try reflexivity.
  rewrite <- Hds, <- Hds' in E. apply chars_inj, str_int_inj in E. nia.
Qed.

(** ** The FastPM header, continued *)

Section Header.
Context {F : Type} `{!PyFloat F}.

Lemma getHeader_inv (bf_header : gmap string (FastPM.Attr F)) header :
  FastPM.getHeader bf_header = inr header ->
  exists nc om bs m0,
    FastPM.attr_int bf_header "NC" = inr nc
    /\ FastPM.attr_float bf_header "OmegaM" = inr om
    /\ FastPM.attr_float bf_header "BoxSize" = inr bs
    /\ FastPM.attr_float bf_header "M0" = inr m0
    /\ header
       = <["masses" := FastPM.HArray
             [flit 0; (m0 ⊗ flit (72 # 100))%flt; flit 0; flit 0; flit 0; flit 0]]>
         (<["box_size" := FastPM.HFloat (bs ⊗ flit 1000)%flt]>
         (<["h" := FastPM.HFloat (flit (72 # 100))]>
         (<["wa" := FastPM.HFloat (flit 0)]>
         (<["w0" := FastPM.HFloat (flit (-1))]>
         (<["Ode0" := FastPM.HFloat (flit 1 ⊖ om)%flt]>
         (<["Om0" := FastPM.HFloat om]>
         (<["num_files" := FastPM.HInt 1]>
         (<["num_particles_total" := FastPM.HInt (nc ^ 3)]>
         (<["num_particles_file" := FastPM.HInt (nc ^ 3)]> ∅))))))))).
Proof.
  unfold FastPM.getHeader.
  destruct (FastPM.attr_int bf_header "NC") as [e|nc]; [discriminate|].
  destruct (FastPM.attr_float bf_header "OmegaM") as [e|om]; [discriminate|].
  destruct (FastPM.attr_float bf_header "BoxSize") as [e|bs]; [discriminate|].
  destruct (FastPM.attr_float bf_header "M0") as [e|m0]; [discriminate|].
  cbn. intros [= <-]. exists nc, om, bs, m0. auto.
Qed.

(** X2. A header that [getHeader] returns has exactly the ten keys that
    lines 57-76 write, and every key that the class announces in
    [_header_keys] is among them. *)
Theorem getHeader_keys (bf_header : gmap string (FastPM.Attr F)) header :
  FastPM.getHeader bf_header = inr header ->
  (forall k, is_Some (header !! k)
             <-> k ∈ ["num_particles_file"; "num_particles_total"; "num_files";
                      "Om0"; "Ode0"; "w0"; "wa"; "h"; "box_size"; "masses"])
  /\ Forall (fun k => is_Some (header !! k)) FastPMSnapshot._header_keys.
Proof.
  intros H. apply getHeader_inv in H as (nc & om & bs & m0 & _ & _ & _ & _ & ->).
  split.
  - intros k. rewrite !lookup_insert_is_Some, lookup_empty, is_Some_alt.
    rewrite !elem_of_cons, elem_of_nil. intuition congruence.
  - unfold FastPMSnapshot._header_keys.
    repeat (constructor; [by simplify_map_eq|]). constructor.
Qed.

Lemma attr_int_agree (bf1 bf2 : gmap string (FastPM.Attr F)) k :
  bf1 !! k = bf2 !! k -> FastPM.attr_int bf1 k = FastPM.attr_int bf2 k.
Proof. unfold FastPM.attr_int. now intros ->. Qed.

Lemma attr_float_agree (bf1 bf2 : gmap string (FastPM.Attr F)) k :
  bf1 !! k = bf2 !! k -> FastPM.attr_float bf1 k = FastPM.attr_float bf2 k.
Proof. unfold FastPM.attr_float. now intros ->. Qed.

(** X3. [getHeader] reads the attributes [NC], [OmegaM], [BoxSize] and
    [M0] of the file and nothing else: two attribute sets that agree on
    these four give the same result, header or exception.  They are read
    in this order, and the first one that the file does not have is the
    one that the [KeyError] names. *)
Theorem getHeader_reads_four_attributes (bf1 bf2 : gmap string (FastPM.Attr F)) :
  ((forall k, k ∈ ["NC"; "OmegaM"; "BoxSize"; "M0"] -> bf1 !! k = bf2 !! k) ->
   FastPM.getHeader bf1 = FastPM.getHeader bf2)
  /\ let present_int k :=
       exists n ns, bf1 !! k = Some (FastPM.IntAttr (n :: ns)) in
     let present_float k :=
       exists x xs, bf1 !! k = Some (FastPM.FloatAttr (x :: xs)) in
     (bf1 !! "NC" = None -> FastPM.getHeader bf1 = inl (Py.KeyError "NC"))
     /\ (present_int "NC" -> bf1 !! "OmegaM" = None ->
         FastPM.getHeader bf1 = inl (Py.KeyError "OmegaM"))
     /\ (present_int "NC" -> present_float "OmegaM" -> bf1 !! "BoxSize" = None ->
         FastPM.getHeader bf1 = inl (Py.KeyError "BoxSize"))
     /\ (present_int "NC" -> present_float "OmegaM" -> present_float "BoxSize" ->
         bf1 !! "M0" = None ->
         FastPM.getHeader bf1 = inl (Py.KeyError "M0")).
Proof.
  split.
  - intros H. unfold FastPM.getHeader.
    rewrite (attr_int_agree bf1 bf2 "NC"),
      (attr_float_agree bf1 bf2 "OmegaM"),
      (attr_float_agree bf1 bf2 "BoxSize"),
      (attr_float_agree bf1 bf2 "M0");
      [reflexivity|apply H; set_solver..].
  - cbn zeta. unfold FastPM.getHeader, FastPM.attr_int, FastPM.attr_float.
    repeat apply conj.
    + intros ->. reflexivity.
    + intros (n & ns & ->) ->. reflexivity.
    + intros (n & ns & ->) (x & xs & ->) ->. reflexivity.
    + intros (n & ns & ->) (x & xs & ->) (y & ys & ->) ->. reflexivity.
Qed.

End Header.

(** ** The subdirectories of a catalog run *)

(** X4. What [_subdirectories] does on every input: a subdirectory size
    of zero is a [ZeroDivisionError]; a size that does not divide the
    number of realizations is the [AssertionError]; a size equal to the
    number of realizations gives no subdirectory; otherwise (size [k > 0])
    there are [R // k] labels, no two of them equal, and the label of
    bucket [r // k] is ["first-last"] with [first <= r + 1 <= last] and
    [k] realizations between them. *)
Theorem subdirectories_outcome (R k : Z) :
  (k = 0 -> _subdirectories R k = inl Py.ZeroDivisionError)
  /\ (k <> 0 -> R mod k <> 0 ->
      _subdirectories R k
      = inl (Py.AssertionError
               "The number of realizations in each subdirectory must be the same!"))
  /\ (k <> 0 -> R = k -> _subdirectories R k = inr [])
  /\ (0 < k -> R mod k = 0 -> R <> k ->
      exists subdirs,
        _subdirectories R k = inr subdirs
        /\ length subdirs = Z.to_nat (R / k)
        /\ NoDup subdirs
        /\ forall r, 0 <= r < R ->
             exists first last,
               subdirs !! Z.to_nat (r / k)
               = Some (Py.str_int first +:+ "-" +:+ Py.str_int last)
               /\ first <= r + 1 <= last /\ last - first + 1 = k).
Proof.
  unfold _subdirectories, Py.mod_, Py.floordiv. repeat apply conj.
  - intros ->. reflexivity.
  - intros Hk Hm. destruct (Z.eqb_spec k 0); [contradiction|]. cbn.
    destruct (Z.eqb_spec (R mod k) 0); [contradiction|]. reflexivity.
  - intros Hk ->. destruct (Z.eqb_spec k 0); [contradiction|]. cbn.
    rewrite Z.mod_same by assumption. cbn. now rewrite Z.eqb_refl.
  - intros Hk Hm HRk. destruct (Z.eqb_spec k 0); [lia|]. cbn.
    rewrite Hm. cbn. destruct (Z.eqb_spec R k); [contradiction|]. cbn.
    eexists. split; [reflexivity|]. unfold Py.range. rewrite Z.sub_0_r.
    split; [now rewrite length_fmap, length_seqZ|]. split.
    + apply NoDup_fmap_2_strong; [|apply NoDup_seqZ].
      intros c c' Hc Hc' E. apply elem_of_seqZ in Hc, Hc'.
      apply (subdirectory_label_inj k); [lia..|exact E].
    + intros r Hr.
      assert (R = k * (R / k)) as HR by (pose proof (Z.div_mod R k); lia).
      assert (0 <= r / k) by (apply Z.div_pos; lia).
      assert (r / k < R / k) by (apply Z.div_lt_upper_bound; lia).
      pose proof (Z.div_mod r k ltac:(lia)) as Hdm.
      pose proof (Z.mod_pos_bound r k Hk) as Hmod.
      exists (r / k * k + 1), ((r / k + 1) * k).
      split; [|lia].
      rewrite list_lookup_fmap, lookup_seqZ_lt by lia. cbn.
      now rewrite Z2Nat.id by lia.
Qed.

(** ** The lines of the plane summary *)

Section Manifest.
Context {F U : Type} `{!PyFloat F} `{!Units U}.

Lemma plain_free_of (s : string) :
  plain s -> free_of "," s /\ free_of "=" s /\ free_of " " s.
Proof.
  intros H. repeat split; (eapply Forall_impl; [exact H|]); intros c Hc;
    unfold is_separator in Hc; apply orb_false_elim in Hc as [Hc H3];
    apply orb_false_elim in Hc as [H1 H2]; assumption.
Qed.

Lemma str_int_plain (n : Z) : plain (Py.str_int n).
Proof.
  eapply Forall_impl; [apply str_int_chars|]. intros c [Hc| ->]; [|reflexivity].
  unfold is_separator.
  repeat match goal with
         | |- context [Ascii.eqb c ?x] =>
             destruct (Ascii.eqb_spec c x) as [->|_]; [discriminate Hc|]
         end.
  reflexivity.
Qed.

Lemma plain_app (a b : string) : plain (a +:+ b) <-> plain a /\ plain b.
Proof. unfold plain. rewrite chars_app. apply Forall_app. Qed.

Lemma split_field (key value : string) :
  free_of "=" key -> free_of "=" value ->
  Py.index (Py.split "=" (manifest_field key value)) 1 = inr value.
Proof.
  intros Hk Hv. unfold manifest_field.
  change ("=" +:+ value) with (String "=" value).
  rewrite split_app, split_free by assumption. reflexivity.
Qed.

Lemma free_of_field (sep : ascii) (key value : string) :
  free_of sep key -> Ascii.eqb "=" sep = false -> free_of sep value ->
  free_of sep (manifest_field key value).
Proof.
  intros Hk Hs Hv. unfold manifest_field.
  apply free_of_app. split; [assumption|].
  apply free_of_app. split; [|assumption].
  constructor; [assumption|constructor].
Qed.

(** X5. The manifest parser of lines 224-235 (and 512-521) accepts every
    line of three comma-separated [key=value] fields whose second value
    is a number followed by [" Mpc/h"]: it returns the snapshot number,
    the distance in the model's [Mpc/h] and the redshift.  The keys are
    not looked at: any names without separators do. *)
Theorem parse_info_line_accepts (model : Model.t F U)
    (key0 key1 key2 : string) (snapshot_number : Z)
    (distance redshift : string) (d z : F) :
  plain key0 -> plain key1 -> plain key2 ->
  plain distance -> plain redshift ->
  float_of_str distance = Some d -> float_of_str redshift = Some z ->
  parse_info_line model
    (manifest_line key0 key1 key2 snapshot_number distance "Mpc/h" redshift)
  = inr (snapshot_number, mkQuantity d (Model.Mpc_over_h model), z).
Proof.
  intros H0 H1 H2 Hd Hz Ed Ez.
  apply plain_free_of in H0 as (H0c & H0e & _).
  apply plain_free_of in H1 as (H1c & H1e & _).
  apply plain_free_of in H2 as (H2c & H2e & _).
  apply plain_free_of in Hd as (Hdc & Hde & Hds).
  apply plain_free_of in Hz as (Hzc & Hze & _).
  destruct (plain_free_of _ (str_int_plain snapshot_number)) as (Hnc & Hne & _).
  assert (free_of "," (distance +:+ " " +:+ "Mpc/h")) as Hvc.
  { apply free_of_app. split; [assumption|]. repeat constructor. }
  assert (free_of "=" (distance +:+ " " +:+ "Mpc/h")) as Hve.
  { apply free_of_app. split; [assumption|]. repeat constructor. }
  unfold parse_info_line, manifest_line.
  repeat change ("," +:+ ?x) with (String "," x).
  rewrite split_app by (now apply free_of_field).
  rewrite split_app by (now apply free_of_field).
  rewrite split_free by (now apply free_of_field).
  change (Py.index [?a; ?b; ?c] 0) with (@inr Py.Exn _ a).
  change (Py.index [?a; ?b; ?c] 1) with (@inr Py.Exn _ b).
  change (Py.index [?a; ?b; ?c] 2) with (@inr Py.Exn _ c).
  cbn [mbind Res_bind].
  rewrite !split_field by assumption. cbn [mbind Res_bind].
  rewrite int_of_str_str_int. cbn [mbind Res_bind].
  change (" " +:+ "Mpc/h") with (String " " "Mpc/h").
  rewrite split_app by assumption.
  rewrite split_free by (repeat constructor).
  cbn [unpack2 mbind Res_bind]. rewrite String.eqb_refl.
  unfold float. rewrite Ed, Ez. reflexivity.
Qed.

(** X6. A line with fewer than three comma-separated fields is never
    turned into a lens: the parser raises. *)
Theorem parse_info_line_short_line (model : Model.t F U) (line : string) :
  (length (Py.split "," line) < 3)%nat ->
  exists e, parse_info_line model line = inl e.
Proof.
  intros Hlen. unfold parse_info_line.
  assert (Py.index (Py.split "," line) 2 = inl Py.IndexError) as E2.
  { unfold Py.index. cbn [Z.ltb Z.compare].
    destruct (Z.ltb_spec 2 (Z.of_nat (length (Py.split "," line)))); [lia|].
    now rewrite andb_false_r. }
  rewrite E2.
  repeat match goal with
         | |- context [mbind _ ?r] =>
             lazymatch r with
             | inl _ => fail
             | _ => destruct r as [?|?]; cbn [mbind Res_bind]; eauto
             end
         | |- context [let '(_, _) := ?p in _] => destruct p
         | |- context [if ?b then _ else _] => destruct b
         end.
  all: cbn; eauto.
Qed.

End Manifest.

(** ** The collection of a lens *)

Section Collections.
Context {F U G : Type} `{!PyFloat F} `{!Units U} `{!Rng G}.

Lemma select_collection_app (cuts : list F) (q : F) (z : F) (c : option nat) :
  select_collection (cuts ++ [q]) z c
  = if fge z q then Some (length cuts) else select_collection cuts z c.
Proof.
  unfold select_collection. rewrite imap_app, fold_left_app. cbn.
  now rewrite Nat.add_0_r.
Qed.

Lemma select_collection_below (cuts : list F) (z : F) (c : option nat) :
  Forall (fun q => fge z q = false) cuts -> select_collection cuts z c = c.
Proof.
  induction cuts as [|q cuts IH] using rev_ind; [reflexivity|].
  intros Hall. apply Forall_app in Hall as [Hcuts Hq].
  apply List.Forall_inv in Hq. cbn beta in Hq.
  rewrite select_collection_app, Hq. auto.
Qed.

Lemma select_collection_last (cuts : list F) (z : F) (c : option nat) (n : nat) (q : F) :
  cuts !! n = Some q -> fge z q = true ->
  (forall m q', (n < m)%nat -> cuts !! m = Some q' -> fge z q' = false) ->
  select_collection cuts z c = Some n.
Proof.
  revert n q. induction cuts as [|q0 cuts IH] using rev_ind; intros n q Hn Hz Hafter.
  - discriminate.
  - rewrite select_collection_app.
    destruct (decide (n = length cuts)) as [->|Hne].
    + rewrite lookup_app_r, Nat.sub_diag in Hn by lia.
      injection Hn as ->. now rewrite Hz.
    + pose proof (lookup_lt_Some _ _ _ Hn) as Hlt.
      rewrite length_app in Hlt. cbn in Hlt.
      rewrite lookup_app_l in Hn by lia.
      rewrite (Hafter (length cuts) q0)
        by (lia || (rewrite lookup_app_r, Nat.sub_diag by lia; reflexivity)).
      apply (IH n q Hn Hz). intros m q' Hm Hq'.
      apply (Hafter m q' Hm). rewrite lookup_app_l; [assumption|].
      now apply lookup_lt_Some in Hq'.
Qed.

(** X7. The loop of lines 238-240 leaves in [c] the index of the last
    cut redshift that the lens redshift reaches; when the lens lies below
    every cut, [c] keeps the value it had before the loop. *)
Theorem select_collection_spec (cut_redshifts : list F) (lens_redshift : F)
    (c : option nat) :
  (Forall (fun z => fge lens_redshift z = false) cut_redshifts ->
   select_collection cut_redshifts lens_redshift c = c)
  /\ (forall n z,
        cut_redshifts !! n = Some z -> fge lens_redshift z = true ->
        (forall m z', (n < m)%nat -> cut_redshifts !! m = Some z' ->
                      fge lens_redshift z' = false) ->
        select_collection cut_redshifts lens_redshift c = Some n).
Proof.
  split; [apply select_collection_below|].
  intros n z. apply select_collection_last.
Qed.

Lemma add_lenses_unbound (run : MapRun) (line : string) (rest : list string)
    (snapshot_number : Z) (distance : Quantity F U) (lens_redshift : F)
    lenses (g : G) :
  line <> "" ->
  parse_info_line (run_model run) line
  = inr (snapshot_number, distance, lens_redshift) ->
  Forall (fun z => fge lens_redshift z = false) (run_cut_redshifts run) ->
  add_lenses run (line :: rest) None lenses g
  = mkOut (inl (Py.UnboundLocalError "c")) g [].
Proof.
  intros Hline Hparse Hbelow. cbn [add_lenses].
  destruct (String.eqb_spec line ""); [contradiction|].
  rewrite Hparse, lift_inr_bind.
  rewrite (select_collection_below _ _ None Hbelow).
  cbn [read_local]. now rewrite lift_inl_bind.
Qed.

(** X8. When the first lens of the manifest lies below every cut
    redshift, a task that is not the master stops in its first
    realization with [UnboundLocalError] for [c], before any random draw
    and before any lens is added: only the master's logging loop of lines
    173-175 has bound [c].  The master goes on with the value that loop
    left, the index of the last collection. *)
Theorem first_lens_below_every_cut tracer (settings : MapSettings.t F U)
    (run : MapRun) (pool : option Pool.t) (line : string) (rest : list string)
    (snapshot_number : Z) (distance : Quantity F U) (lens_redshift : F)
    (r : Z) (g : G) :
  line <> "" ->
  parse_info_line (run_model run) line
  = inr (snapshot_number, distance, lens_redshift) ->
  Forall (fun z => fge lens_redshift z = false) (run_cut_redshifts run) ->
  (is_master pool = false ->
   let out := map_realization tracer settings run (line :: rest) r
                (initial_c pool (run_collection run)) g in
   res out = inl (Py.UnboundLocalError "c") /\ evs out = [ENewTracer r])
  /\ (is_master pool = true -> run_collection run <> [] ->
      select_collection (run_cut_redshifts run) lens_redshift
        (initial_c pool (run_collection run))
      = Some (length (run_collection run) - 1)%nat).
Proof.
  intros Hline Hparse Hbelow. split.
  - intros Hmaster. cbn zeta. unfold initial_c. rewrite Hmaster.
    unfold map_realization. rewrite emit_bind. cbn [res evs].
    rewrite (bind_inl _ _ _ (Py.UnboundLocalError "c"));
      rewrite (add_lenses_unbound run line rest _ _ _ [] g Hline Hparse Hbelow);
      auto.
  - intros Hmaster Hne. unfold initial_c. rewrite Hmaster.
    rewrite select_collection_below by assumption.
    now destruct (run_collection run).
Qed.

End Collections.

(** ** The planes of a map run *)

Section Planes.
Context {F U G : Type} `{!PyFloat F} `{!Units U} `{!Rng G}.

Lemma index_inv {A} (l : list A) (i : Z) (x : A) :
  Py.index l i = inr x ->
  l !! Z.to_nat (if i <? 0 then i + Z.of_nat (length l) else i) = Some x.
Proof.
  unfold Py.index. destruct (_ && _); [|discriminate].
  destruct (l !! _) eqn:E; [|discriminate]. now intros [= <-].
Qed.

Lemma index_nat_inv {A} (l : list A) (n : nat) (x : A) :
  Py.index l (Z.of_nat n) = inr x -> l !! n = Some x.
Proof.
  intros H. apply index_inv in H.
  destruct (Z.ltb_spec (Z.of_nat n) 0); [lia|]. now rewrite Nat2Z.id in H.
Qed.

Lemma index_elem_of {A} (l : list A) (i : Z) (x : A) :
  Py.index l i = inr x -> x ∈ l.
Proof. intros H. apply index_inv in H. eapply list_elem_of_lookup_2, H. Qed.

Lemma emits_lift_bind {A B} (P : Event F U -> Prop) (r : Py.Res A)
    (k : A -> M F U G B) :
  (forall a, r = inr a -> emits P (k a)) -> emits P (lift r ≫= k).
Proof.
  intros Hk g. destruct r as [e|a].
  - rewrite lift_inl_bind. constructor.
  - rewrite lift_inr_bind. now apply Hk.
Qed.

Lemma add_lenses_planes (run : MapRun) lines c lenses :
  emits (fun e => match e with
                  | EAddLens lens => exists n, candidate_plane run n lens.1.1
                  | _ => True
                  end)
        (add_lenses (G:=G) run lines c lenses).
Proof.
  revert c lenses.
  induction lines as [|line rest IH]; intros c lenses; cbn [add_lenses].
  - apply emits_ret.
  - destruct (String.eqb line ""); [apply emits_ret|].
    apply emits_lift_bind. intros [[sn distance] z] _.
    apply emits_lift_bind. intros ci Hci.
    destruct (select_collection (run_cut_redshifts run) z c) as [n|];
      [|discriminate]. injection Hci as <-.
    apply emits_lift_bind. intros nb Hnb%index_nat_inv.
    apply emits_bind; [now apply emits_randint|intros nbody].
    apply emits_lift_bind. intros cp Hcp%index_nat_inv.
    apply emits_bind; [now apply emits_randint|intros cut].
    apply emits_lift_bind. intros nm Hnm%index_nat_inv.
    apply emits_bind; [now apply emits_randint|intros normal].
    apply emits_lift_bind. intros coll Hcoll%index_nat_inv.
    apply emits_lift_bind. intros ic Hic%index_elem_of.
    apply emits_lift_bind. intros ps Hps%index_nat_inv.
    apply emits_lift_bind. intros cut_point Hcut%index_elem_of.
    apply emits_lift_bind. intros normal_axis Hnormal%index_elem_of.
    apply emits_bind; [|intros _; apply IH].
    apply emits_emit. exists n. cbn.
    exists coll, ps, nb, cp, nm, ic, cut_point, normal_axis, sn. auto 10.
Qed.

(** X9. Every lens that a map run hands to the tracer names a plane
    file built from one collection of the run: the storage and the plane
    set of that collection, and an N-body realization, a cut point and a
    normal taken from the candidates that the settings in force list for
    the same collection. *)
Theorem map_planes_are_candidates tracer disk pool batch
    (settings : MapSettings.t F U) id :
  emits (fun e => forall lens, e = EAddLens lens ->
                  exists h s run n,
                    read_handles batch settings id = inr h
                    /\ map_settings_in_force disk batch settings id = Some s
                    /\ read_plane_choice id h s = inr run
                    /\ candidate_plane run n lens.1.1)
        (singleRedshift (G:=G) tracer disk pool batch settings id).
Proof.
  unfold singleRedshift, map_settings_in_force.
  apply emits_lift_bind. intros h ->.
  apply emits_lift_bind. intros s ->.
  apply emits_bind; [apply emits_seed; discriminate|intros _].
  apply emits_lift_bind. intros run Hrun.
  apply emits_lift_bind. intros [first last] _.
  apply emits_lift_bind. intros info_filename _.
  apply emits_lift_bind. intros lines _.
  apply emits_bind; [|intros; apply emits_barrier; discriminate].
  apply emits_for. intros r c. unfold map_realization.
  apply emits_bind; [apply emits_emit; discriminate|intros _].
  apply emits_bind.
  { intros g. eapply Forall_impl; [apply add_lenses_planes|].
    intros e He lens ->. destruct He as [n Hn]. eauto 10. }
  intros [c' lenses].
  apply emits_bind; [apply emits_call_reorder; discriminate|intros _].
  apply emits_bind; [apply emits_call_shoot; discriminate|intros jacobian].
  apply emits_bind; [|intros; apply emits_ret].
  apply emits_save_maps; discriminate.
Qed.

End Planes.

(** ** The map files of a run *)

Section MapFiles.
Context {F U G : Type} `{!PyFloat F} `{!Units U} `{!Rng G}.

Lemma evs_bind {A B} (m : M F U G A) (f : A -> M F U G B) (g : G) :
  evs ((m ≫= f) g)
  = evs (m g) ++ match res (m g) with
                 | inl _ => []
                 | inr a => evs (f a (rng (m g)))
                 end.
Proof.
  destruct (res (m g)) as [e|a] eqn:E.
  - rewrite (bind_inl _ _ _ _ E). cbn. now rewrite app_nil_r.
  - now rewrite (bind_inr _ _ _ _ E).
Qed.

Lemma path_join2_inj (path b b' : string) :
  Py.starts_with_slash b = false -> Py.starts_with_slash b' = false ->
  Py.path_join2 path b = Py.path_join2 path b' -> b = b'.
Proof.
  unfold Py.path_join2. intros -> ->.
  destruct (_ || _); intros E.
  - now apply (inj (String.app path)) in E.
  - apply (inj (String.app path)) in E. now apply (inj (String.app "/")) in E.
Qed.

Lemma map_savename_inj (save_path kind kind' : string) (z : F) (r r' : Z)
    (format : string) :
  kind ∈ ["conv"; "shear"; "omega"] -> kind' ∈ ["conv"; "shear"; "omega"] ->
  map_savename save_path kind z r format = map_savename save_path kind' z r' format ->
  kind = kind' /\ r = r'.
Proof.
  intros Hk Hk' E. unfold map_savename, Py.path_join in E. cbn [fold_left] in E.
  apply path_join2_inj in E; [|reflexivity..].
  apply (inj (String.app "WL")) in E.
  assert (kind = kind') as <-.
  { rewrite !elem_of_cons, elem_of_nil in Hk, Hk'.
    destruct Hk as [->|[->|[->|[]]]]; destruct Hk' as [->|[->|[->|[]]]];
      try reflexivity; cbv [String.append] in E; discriminate E. }
  split; [reflexivity|].
  apply (inj (String.app kind)) in E.
  apply (inj (String.app "_z")) in E.
  apply (inj (String.app (fmt_2f z))) in E.
  apply (inj (String.app "_")) in E.
  apply app_inv_suffix, fmt_04d_inj in E. lia.
Qed.

Lemma map_names_NoDup (save_path : string) (settings : MapSettings.t F U) (r : Z) :
  NoDup (map_names save_path settings r).
Proof.
  unfold map_names. apply NoDup_fmap_2_strong.
  - intros k k' Hk Hk' E. now apply map_savename_inj in E.
  - repeat (apply NoDup_cons; split;
              [rewrite ?elem_of_cons, elem_of_nil; intuition discriminate|]).
    constructor.
Qed.

Lemma map_names_disjoint (save_path : string) (settings : MapSettings.t F U)
    (r r' : Z) (name : string) :
  name ∈ map_names save_path settings r ->
  name ∈ map_names save_path settings r' -> r = r'.
Proof.
  unfold map_names. intros H1 H2.
  apply list_elem_of_fmap in H1 as (k & -> & Hk).
  apply list_elem_of_fmap in H2 as (k' & E & Hk').
  now apply map_savename_inj in E.
Qed.

Lemma map_names_concat_NoDup (save_path : string) (settings : MapSettings.t F U)
    (rs : list Z) :
  NoDup rs -> NoDup (concat (map_names save_path settings <$> rs)).
Proof.
  induction 1 as [|r rs Hr Hrs IH]; cbn [fmap list_fmap concat]; [constructor|].
  apply NoDup_app. split; [apply map_names_NoDup|]. split; [|exact IH].
  intros name Hn Hin. apply list_elem_of_In, in_concat in Hin as (l & Hl & Hin).
  apply list_elem_of_In, list_elem_of_fmap in Hl as (r' & -> & Hr').
  apply list_elem_of_In in Hin.
  rewrite (map_names_disjoint _ _ _ _ _ Hn Hin) in Hr. contradiction.
Qed.

Lemma map_files_app (l1 l2 : list (Event F U)) :
  map_files (l1 ++ l2) = map_files l1 ++ map_files l2.
Proof. apply omap_app. Qed.

Lemma map_files_none (l : list (Event F U)) :
  Forall (fun e => is_map_save e = false) l -> map_files l = [].
Proof.
  induction 1 as [|e l He _ IH]; [reflexivity|].
  destruct e; try discriminate; exact IH.
Qed.

Lemma files_bind_quiet {A B} (m : M F U G A) (f : A -> M F U G B) (g : G) :
  emits (fun e => is_map_save e = false) m ->
  map_files (evs ((m ≫= f) g))
  = match res (m g) with
    | inl _ => []
    | inr a => map_files (evs (f a (rng (m g))))
    end.
Proof.
  intros Hm. rewrite evs_bind, map_files_app, (map_files_none _ (Hm g)).
  now destruct (res (m g)).
Qed.

Lemma save_maps_files (settings : MapSettings.t F U) save_path r jacobian (g : G) :
  map_files (evs (save_maps settings save_path r jacobian g))
  `sublist_of` map_names save_path settings r.
Proof.
  assert (Hstep : forall (b : bool) (m : M F U G ()) n,
             (forall g', map_files (evs (m g')) `sublist_of` [n]) ->
             forall g', map_files (evs ((if b then m else mret ()) g'))
                        `sublist_of` [n]).
  { intros b m n Hm g'. destruct b; [apply Hm|apply sublist_nil_l]. }
  unfold save_maps, map_names. cbn [fmap list_fmap].
  rewrite evs_bind, map_files_app. apply (sublist_app _ [_] _ [_; _]).
  { apply Hstep. intros g'.
    repeat match goal with
           | |- context [lift ?r ≫= _] =>
               destruct r;
               [rewrite lift_inl_bind; apply sublist_nil_l | rewrite lift_inr_bind]
           end.
    reflexivity. }
  match goal with |- context [match ?r with _ => _ end] => destruct r end;
    [apply sublist_nil_l|].
  rewrite evs_bind, map_files_app. apply (sublist_app _ [_] _ [_]).
  { apply Hstep. intros g'.
    repeat match goal with
           | |- context [lift ?r ≫= _] =>
               destruct r;
               [rewrite lift_inl_bind; apply sublist_nil_l | rewrite lift_inr_bind]
           end.
    reflexivity. }
  match goal with |- context [match ?r with _ => _ end] => destruct r end;
    [apply sublist_nil_l|].
  apply Hstep. intros g'.
  repeat match goal with
         | |- context [lift ?r ≫= _] =>
             destruct r;
             [rewrite lift_inl_bind; apply sublist_nil_l | rewrite lift_inr_bind]
         end.
  reflexivity.
Qed.

Lemma map_realization_files tracer (settings : MapSettings.t F U) run lines
    r c (g : G) :
  map_files (evs (map_realization tracer settings run lines r c g))
  `sublist_of` map_names (MapSet.storage (run_map_batch run)) settings r.
Proof.
  unfold map_realization.
  rewrite files_bind_quiet by (now apply emits_emit). cbn [res emit].
  rewrite files_bind_quiet by (now apply emits_add_lenses).
  destruct (res (add_lenses _ _ _ _ _)) as [e|[c' lenses]]; [apply sublist_nil_l|].
  rewrite files_bind_quiet by (now apply emits_call_reorder). cbn [res call_reorder].
  rewrite files_bind_quiet by (now apply emits_call_shoot).
  destruct (res (call_shoot _ _ _ _)) as [e|jacobian]; [apply sublist_nil_l|].
  rewrite evs_bind, map_files_app.
  rewrite <- (app_nil_r (map_names _ _ _)). apply sublist_app.
  - apply save_maps_files.
  - destruct (res _); apply sublist_nil_l.
Qed.

Lemma for_files {S} (body : Z -> S -> M F U G S) (names : Z -> list string) :
  (forall r s g, map_files (evs (body r s g)) `sublist_of` names r) ->
  forall xs s g,
    map_files (evs (for_ xs body s g)) `sublist_of` concat (names <$> xs).
Proof.
  intros Hbody. induction xs as [|r xs IH]; intros s g; cbn [for_].
  - apply sublist_nil_l.
  - rewrite evs_bind, map_files_app. cbn [fmap list_fmap concat].
    apply sublist_app; [apply Hbody|].
    destruct (res (body r s g)); [apply sublist_nil_l|apply IH].
Qed.

Lemma read_plane_choice_batch id (h : MapHandles) (settings : MapSettings.t F U) run :
  read_plane_choice id h settings = inr run -> run_map_batch run = h_map_batch h.
Proof.
  unfold read_plane_choice.
  destruct (Py.split "|" id) as [|a [|b [|c l]]];
    destruct (MapSettings.planes settings); try discriminate.
  - destruct (_ || _); [discriminate|]. now intros [= <-].
  - now intros [= <-].
Qed.

(** The map files of a run are among the maps of the realizations of
    its task. *)
Lemma singleRedshift_files tracer disk pool batch
    (settings : MapSettings.t F U) id (g : G) :
  map_files (evs (singleRedshift tracer disk pool batch settings id g))
  `sublist_of`
  match read_handles batch settings id,
        map_settings_in_force disk batch settings id with
  | inr h, Some s =>
      concat (map_names (MapSet.storage (h_map_batch h)) s
              <$> task_range pool (MapSettings.lens_map_realizations s)
                    "Perfect load-balancing enforced, map_realizations must be a multiple of the number of MPI tasks!")
  | _, _ => []
  end.
Proof.
  unfold singleRedshift, map_settings_in_force, task_range.
  destruct (read_handles batch settings id) as [e|h];
    [rewrite lift_inl_bind; apply sublist_nil_l|].
  rewrite lift_inr_bind.
  destruct (override_map_settings _ _ _) as [e|s];
    [rewrite lift_inl_bind; apply sublist_nil_l|].
  rewrite lift_inr_bind.
  rewrite files_bind_quiet by (now apply emits_seed).
  destruct (res (np_random_seed _ _)); [apply sublist_nil_l|].
  destruct (read_plane_choice id h s) as [e|run] eqn:Hrun;
    [rewrite lift_inl_bind; apply sublist_nil_l|].
  rewrite lift_inr_bind.
  destruct (task_realizations _ _ _) as [e|[first last]];
    [rewrite lift_inl_bind; apply sublist_nil_l|].
  rewrite lift_inr_bind.
  destruct (map_info_filename s run) as [e|info_filename];
    [rewrite lift_inl_bind; apply sublist_nil_l|].
  rewrite lift_inr_bind.
  destruct (open_lines disk info_filename) as [e|lines];
    [rewrite lift_inl_bind; apply sublist_nil_l|].
  rewrite lift_inr_bind.
  rewrite evs_bind, map_files_app.
  rewrite <- (app_nil_r (concat _)). apply sublist_app.
  - rewrite <- (read_plane_choice_batch _ _ _ _ Hrun).
    apply for_files. intros r c g'. apply map_realization_files.
  - destruct (res _); [apply sublist_nil_l|].
    rewrite map_files_none; [apply sublist_nil_l|].
    now apply emits_barrier.
Qed.

Lemma task_range_disjoint (rank1 rank2 size : Z) (m1 m2 : bool) (R r : Z) msg :
  rank1 <> rank2 ->
  r ∈ task_range (Some (Pool.mk rank1 size m1)) R msg ->
  r ∈ task_range (Some (Pool.mk rank2 size m2)) R msg -> False.
Proof.
  intros Hne. unfold task_range, task_realizations, Py.mod_, Py.floordiv.
  cbn [Pool.size Pool.rank].
  destruct (size + 1 =? 0); [cbn; intros H; inversion H|]. cbn.
  destruct (R mod (size + 1) =? 0); [|cbn; intros H; inversion H]. cbn.
  unfold Py.range. rewrite !elem_of_seqZ. intros H1 H2.
  assert (rank1 < rank2 \/ rank2 < rank1) as [Hlt|Hlt] by lia; nia.
Qed.

Lemma task_range_NoDup pool (R : Z) msg : NoDup (task_range pool R msg).
Proof.
  unfold task_range. destruct (task_realizations _ _ _) as [e|[first last]];
    [constructor|apply NoDup_seqZ].
Qed.

(** X10. A map run never writes a map file twice, and two tasks of
    different rank never write the same map file: the names of the
    convergence, shear and omega maps of different realizations are all
    different, and the realizations of different ranks do not overlap. *)
Theorem map_files_written_once tracer disk batch
    (settings : MapSettings.t F U) id :
  (forall pool (g : G),
     NoDup (map_files (evs (singleRedshift tracer disk pool batch settings id g))))
  /\ (forall rank1 rank2 size m1 m2 (g1 g2 : G) name,
        rank1 <> rank2 ->
        name ∈ map_files (evs (singleRedshift tracer disk
                                 (Some (Pool.mk rank1 size m1)) batch settings id g1)) ->
        name ∈ map_files (evs (singleRedshift tracer disk
                                 (Some (Pool.mk rank2 size m2)) batch settings id g2)) ->
        False).
Proof.
  split.
  - intros pool g. eapply sublist_NoDup; [|apply singleRedshift_files].
    destruct (read_handles batch settings id) as [e|h]; [constructor|].
    destruct (map_settings_in_force disk batch settings id) as [s|]; [|constructor].
    apply map_names_concat_NoDup, task_range_NoDup.
  - intros rank1 rank2 size m1 m2 g1 g2 name Hne H1 H2.
    eapply elem_of_sublist in H1; [|apply singleRedshift_files].
    eapply elem_of_sublist in H2; [|apply singleRedshift_files].
    destruct (read_handles batch settings id) as [e|h]; [inversion H1|].
    destruct (map_settings_in_force disk batch settings id) as [s|]; [|inversion H1].
    apply list_elem_of_In, in_concat in H1 as (l1 & Hl1 & H1).
    apply list_elem_of_In, in_concat in H2 as (l2 & Hl2 & H2).
    apply list_elem_of_In, list_elem_of_fmap in Hl1 as (r1 & -> & Hr1).
    apply list_elem_of_In, list_elem_of_fmap in Hl2 as (r2 & -> & Hr2).
    apply list_elem_of_In in H1, H2.
    rewrite (map_names_disjoint _ _ _ _ _ H1 H2) in Hr1.
    exact (task_range_disjoint _ _ _ _ _ _ _ _ Hne Hr1 Hr2).
Qed.

End MapFiles.

(** ** The galaxies handed to the tracer *)

Section Contents.
Context {F U G : Type} `{!PyFloat F} `{!Units U} `{!Rng G}.

Lemma slice_assign_explicit {A} (arr src : list A) (a : Z) :
  0 <= a -> a + Z.of_nat (length src) <= Z.of_nat (length arr) ->
  Py.slice_assign arr a (a + Z.of_nat (length src)) src
  = inr (take (Z.to_nat a) arr ++ src
         ++ drop (Z.to_nat a + length src) arr).
Proof.
  intros Ha Hb. unfold Py.slice_assign.
  rewrite !clip_inside by lia.
  replace (Z.to_nat (a + Z.of_nat (length src)) - Z.to_nat a)%nat
    with (length src) by lia.
  now rewrite Nat.eqb_refl.
Qed.

Lemma length_columns (col : PositionCatalog.t F -> list F)
    (cats : list (PositionCatalog.t F)) :
  (forall c, Z.of_nat (length (col c)) = PositionCatalog.len c) ->
  Z.of_nat (length (concat (col <$> cats)))
  = sum_counts (PositionCatalog.len <$> cats).
Proof.
  intros Hcol. induction cats as [|c cats IH]; [reflexivity|].
  cbn [fmap list_fmap concat]. rewrite length_app, Nat2Z.inj_add, IH, Hcol.
  reflexivity.
Qed.

Lemma fill_column (col : PositionCatalog.t F -> list F) (n : nat)
    (loaded : list (PositionCatalog.t F)) (c : PositionCatalog.t F) :
  (forall c, Z.of_nat (length (col c)) = PositionCatalog.len c) ->
  sum_counts (PositionCatalog.len <$> loaded) + PositionCatalog.len c
  <= Z.of_nat n ->
  Py.slice_assign
    (concat (col <$> loaded)
     ++ replicate (n - length (concat (col <$> loaded))) (flit 0))
    (sum_counts (PositionCatalog.len <$> loaded))
    (sum_counts (PositionCatalog.len <$> loaded) + PositionCatalog.len c)
    (col c)
  = inr (concat (col <$> (loaded ++ [c]))
         ++ replicate (n - length (concat (col <$> (loaded ++ [c])))) (flit 0)).
Proof.
  intros Hcol Hfit.
  pose proof (length_columns col loaded Hcol) as Hlen.
  pose proof (len_nonneg c) as Hc. pose proof (Hcol c) as Hcc.
  set (pre := concat (col <$> loaded)) in *.
  rewrite <- (Hcol c), <- Hlen.
  rewrite slice_assign_explicit
    by (rewrite ?length_app, ?length_replicate; lia).
  rewrite Nat2Z.id.
  rewrite take_app_length.
  rewrite drop_app_add', drop_replicate by reflexivity.
  rewrite fmap_app, concat_app. cbn [fmap list_fmap concat].
  rewrite app_nil_r, <- app_assoc. do 3 f_equal.
  apply (f_equal (fun k => replicate k (flit 0))).
  fold pre. rewrite length_app. lia.
Qed.

Lemma load_catalog_file_holds disk pool (settings : CatalogSettings.t U)
    save_path file (c : PositionCatalog.t F) (n : nat)
    (loaded : list (PositionCatalog.t F)) (st st' : Galaxies) (g : G) :
  read_catalog disk file = Some c ->
  holds n loaded st ->
  sum_counts (PositionCatalog.len <$> loaded) + PositionCatalog.len c
  <= Z.of_nat n ->
  res (load_catalog_file disk pool settings save_path file st g) = inr st' ->
  holds n (loaded ++ [c]) st'.
Proof.
  intros Hread (Hx & Hy & Hz & Hcounts) Hfit.
  unfold load_catalog_file, catalog_read.
  rewrite galaxies_before_of_sum, Hread, lift_inr_bind, Hcounts, Hx, Hy, Hz.
  rewrite (fill_column PositionCatalog.x) by (apply length_x || assumption).
  rewrite (fill_column PositionCatalog.y) by (apply length_y || assumption).
  rewrite (fill_column PositionCatalog.z) by (apply length_z || assumption).
  repeat step_lift.
  destruct (is_master pool); [rewrite emit_bind; cbn [res]|rewrite ret_bind].
  all: repeat step_lift.
  all: cbn; intros [= <-].
  all: repeat match goal with H : inr _ = inr _ |- _ => injection H as <- end.
  all: unfold holds; cbn; repeat split; rewrite ?fmap_app; reflexivity.
Qed.

Lemma load_loop_holds disk pool (settings : CatalogSettings.t U) save_path
    files (cats : list (PositionCatalog.t F)) (n : nat) :
  Forall2 (fun f c => read_catalog disk f = Some c) files cats ->
  forall (loaded : list (PositionCatalog.t F)) (st st' : Galaxies) (g : G),
    holds n loaded st ->
    sum_counts (PositionCatalog.len <$> loaded)
    + sum_counts (PositionCatalog.len <$> cats) <= Z.of_nat n ->
    res (for_ files (load_catalog_file disk pool settings save_path) st g)
    = inr st' ->
    holds n (loaded ++ cats) st'.
Proof.
  induction 1 as [|file c files cats Hc Hread IH];
    intros loaded st st' g Hst Hfit.
  - cbn. intros [= <-]. now rewrite app_nil_r.
  - assert (0 <= sum_counts (PositionCatalog.len <$> cats)) as Hrest.
    { apply sum_counts_nonneg, Forall_fmap, Forall_forall.
      intros; apply len_nonneg. }
    cbn [fmap list_fmap] in Hfit. unfold sum_counts in Hfit at 2.
    cbn [foldr] in Hfit. fold (sum_counts (PositionCatalog.len <$> cats)) in Hfit.
    cbn [for_].
    destruct (res (load_catalog_file disk pool settings save_path file st g))
      as [e|st1] eqn:E1.
    + rewrite (bind_inl _ _ _ _ E1). discriminate.
    + rewrite (bind_inr _ _ _ _ E1). cbn [res]. intros E'.
      replace (loaded ++ c :: cats) with ((loaded ++ [c]) ++ cats)
        by now rewrite <- app_assoc.
      eapply IH; [| |exact E'].
      * eapply load_catalog_file_holds; eauto. lia.
      * rewrite fmap_app, sum_counts_app. cbn [fmap list_fmap].
        unfold sum_counts at 2. cbn [foldr]. lia.
Qed.

(** X11. When the loading of lines 376-418 succeeds, the arrays handed
    to the tracer are the [x], [y] and [z] columns of the input catalogs
    one after the other, in the order of [settings.input_files], and they
    have [total_num_galaxies] entries: no row is dropped, repeated or
    left at zero. *)
Theorem load_galaxies_contents disk pool (settings : CatalogSettings.t U)
    save_path (cats : list (PositionCatalog.t F)) galaxies (g : G) :
  Forall2 (fun f c => read_catalog disk f = Some c)
          (CatalogSettings.input_files settings) cats ->
  res (load_galaxies disk pool settings save_path g) = inr galaxies ->
  initial_positions_x galaxies = concat (PositionCatalog.x <$> cats)
  /\ initial_positions_y galaxies = concat (PositionCatalog.y <$> cats)
  /\ galaxy_redshift galaxies = concat (PositionCatalog.z <$> cats)
  /\ galaxies_in_catalog galaxies = PositionCatalog.len <$> cats
  /\ Z.of_nat (length (galaxy_redshift galaxies))
     = CatalogSettings.total_num_galaxies settings.
Proof.
  intros Hread. unfold load_galaxies, np_zeros.
  set (total := CatalogSettings.total_num_galaxies settings).
  destruct (Z.ltb_spec total 0) as [|Htotal];
    [rewrite lift_inl_bind; discriminate|].
  rewrite lift_inr_bind.
  match goal with
  | |- context [for_ ?fs ?b ?s ≫= _] =>
      destruct (res (for_ fs b s g)) as [e|st] eqn:E
  end.
  { rewrite (bind_inl _ _ _ _ E). discriminate. }
  rewrite (bind_inr _ _ _ _ E). cbn [res].
  pose proof (load_loop_count _ _ _ _ _ _ Hread _ _ _ E) as Hcounts.
  cbn in Hcounts.
  destruct (galaxies_in_catalog st) as [|x xs] eqn:Ec.
  { cbn [Py.reduce_add]. rewrite lift_inl_bind. discriminate. }
  rewrite reduce_add_sum by discriminate. rewrite lift_inr_bind, Hcounts.
  destruct (Z.eqb_spec (sum_counts (PositionCatalog.len <$> cats)) total)
    as [Hsum|]; [|cbn [assert_]; rewrite lift_inl_bind; discriminate].
  cbn [assert_]. rewrite lift_inr_bind. cbn. intros [= <-].
  assert (Hh : holds (Z.to_nat total) ([] ++ cats) st).
  { eapply load_loop_holds; [exact Hread| | |exact E].
    - unfold holds. cbn. now rewrite Nat.sub_0_r.
    - cbn. lia. }
  destruct Hh as (Hx & Hy & Hz & Hc). cbn [app] in *.
  pose proof (length_columns PositionCatalog.x cats length_x) as Lx.
  pose proof (length_columns PositionCatalog.y cats length_y) as Ly.
  pose proof (length_columns PositionCatalog.z cats length_z) as Lz.
  replace (Z.to_nat total - length (concat (PositionCatalog.x <$> cats)))%nat
    with 0%nat in Hx by lia.
  replace (Z.to_nat total - length (concat (PositionCatalog.y <$> cats)))%nat
    with 0%nat in Hy by lia.
  replace (Z.to_nat total - length (concat (PositionCatalog.z <$> cats)))%nat
    with 0%nat in Hz by lia.
  cbn [replicate] in Hx, Hy, Hz. rewrite app_nil_r in Hx, Hy, Hz.
  rewrite Hx, Hy, Hz, Hc, Lz. auto.
Qed.

End Contents.

(** ** Directories and position catalogs *)

Section Directories.
Context {F U G : Type} `{!PyFloat F} `{!Units U} `{!Rng G}.

Lemma emits_load_galaxies_quiet disk pool (settings : CatalogSettings.t U)
    save_path (P : Event F U -> Prop) :
  is_master pool = false ->
  emits P (load_galaxies (F:=F) (G:=G) disk pool settings save_path).
Proof.
  intros Hm. unfold load_galaxies.
  apply emits_bind; [apply emits_lift|intros zeros].
  apply emits_bind; [|emits_go].
  apply emits_for. intros file st. unfold load_catalog_file. rewrite Hm.
  emits_go.
Qed.

Lemma emits_make_subdirectories_quiet (disk : Disk F U) pool save_path subdirs
    (P : Event F U -> Prop) :
  is_master pool = false ->
  emits P (make_subdirectories (G:=G) disk pool save_path subdirs).
Proof. intros Hm. unfold make_subdirectories. rewrite Hm. apply emits_ret. Qed.

(** X12. In a catalog run every directory creation and every copy of a
    position catalog comes before the first barrier, the first
    realization and the first shear catalog; a task that is not the
    master creates no directory and writes no position catalog at all. *)
Theorem catalog_directories_first tracer disk pool (batch : Batch.t F U)
    (settings : CatalogSettings.t U) id :
  two_phases
    (fun e => is_barrier e = false /\ is_new_tracer e = false
              /\ is_save_catalog e = false)
    (fun e => is_mkdir e = false /\ is_write_positions e = false)
    (simulatedCatalog (G:=G) tracer disk pool batch settings id)
  /\ (is_master pool = false ->
      emits (fun e => is_mkdir e = false /\ is_write_positions e = false)
        (simulatedCatalog (G:=G) tracer disk pool batch settings id)).
Proof.
  split.
  - unfold simulatedCatalog.
    apply two_phases_bind; [apply emits_lift|intros [[model coll] cat]].
    apply two_phases_bind; [apply emits_lift|intros s].
    apply two_phases_bind; [now apply emits_seed|intros _].
    apply two_phases_bind; [now apply emits_load_galaxies|intros galaxies].
    apply two_phases_bind; [apply emits_lift|intros subdirs].
    apply two_phases_bind; [now apply emits_make_subdirectories|intros _].
    apply two_phases_second.
    apply emits_bind; [now apply emits_barrier|intros _].
    apply emits_bind; [apply emits_lift|intros [first last]].
    apply emits_bind; [apply emits_lift|intros info_filename].
    apply emits_bind; [apply emits_lift|intros lines].
    apply emits_bind; [now apply emits_draw_randomizer|intros randomizer].
    apply emits_bind; [|intros; now apply emits_barrier].
    apply emits_for. intros r c. now apply emits_catalog_realization.
  - intros Hm. unfold simulatedCatalog.
    apply emits_bind; [apply emits_lift|intros [[model coll] cat]].
    apply emits_bind; [apply emits_lift|intros s].
    apply emits_bind; [now apply emits_seed|intros _].
    apply emits_bind; [now apply emits_load_galaxies_quiet|intros galaxies].
    apply emits_bind; [apply emits_lift|intros subdirs].
    apply emits_bind; [now apply emits_make_subdirectories_quiet|intros _].
    apply emits_bind; [now apply emits_barrier|intros _].
    apply emits_bind; [apply emits_lift|intros [first last]].
    apply emits_bind; [apply emits_lift|intros info_filename].
    apply emits_bind; [apply emits_lift|intros lines].
    apply emits_bind; [now apply emits_draw_randomizer|intros randomizer].
    apply emits_bind; [|intros; now apply emits_barrier].
    apply emits_for. intros r c. now apply emits_catalog_realization.
Qed.

Lemma directories_made_app (l1 l2 : list (Event F U)) :
  directories_made (l1 ++ l2) = directories_made l1 ++ directories_made l2.
Proof. apply omap_app. Qed.



End Directories.

(** ** Collection names *)

Section Geometry.
Context {F U : Type} `{!PyFloat F} `{!Units U}.

Lemma split_geometry_id (nside box : Z) :
  Py.split "b" (Simulation.geometry_id nside box)
  = [Py.str_int nside; Py.str_int box].
Proof.
  unfold Simulation.geometry_id.
  change ("b" +:+ ?x) with (String "b" x).
  rewrite split_app, split_free; [reflexivity|..];
    now apply str_int_free_of.
Qed.

(** X14. The directory name that [SimulationCollection.__init__] builds
    (line 209) is read back: [collections] recovers the box size and the
    side from it, and [simulatedCatalog] called with
    [cosmo_id|geometry_id] asks the model for the collection with this
    box size in [Mpc/h] and this side (the side as the text it was
    written with). *)
Theorem geometry_id_roundtrip (nside box : Z) (b : F) :
  float_of_str (Py.str_int box) = Some b ->
  Simulation.collection_of_name (Simulation.geometry_id nside box)
  = Some (b, nside)
  /\ forall (batch : Batch.t F U) (settings : CatalogSettings.t U)
            (cosmo_id : string),
       free_of "|" cosmo_id ->
       let model := Batch.getModel batch cosmo_id in
       let collection :=
         Model.getCollection_box model (mkQuantity b (Model.Mpc_over_h model))
           (Py.str_int nside) in
       read_catalog_handles batch settings
         (cosmo_id +:+ "|" +:+ Simulation.geometry_id nside box)
       = inr (model, collection,
              Collection.getCatalog collection
                (CatalogSettings.directory_name settings)).
Proof.
  intros Hb. split.
  - unfold Simulation.collection_of_name.
    rewrite split_geometry_id. cbn [unpack2]. unfold float. rewrite Hb.
    now rewrite int_of_str_str_int.
  - intros batch settings cosmo_id Hfree. cbn zeta.
    unfold read_catalog_handles.
    change ("|" +:+ ?x) with (String "|" x).
    rewrite split_app by assumption.
    rewrite split_free.
    + cbn [unpack2 mbind Res_bind]. rewrite split_geometry_id.
      cbn [unpack2 mbind Res_bind]. unfold float. now rewrite Hb.
    + unfold Simulation.geometry_id. apply free_of_app. split.
      * now apply str_int_free_of.
      * apply free_of_app. split; [repeat constructor|].
        now apply str_int_free_of.
Qed.

End Geometry.

(** ** The shear catalog files of a run *)

Section CatalogFiles.
Context {F U G : Type} `{!PyFloat F} `{!Units U} `{!Rng G}.

Lemma string_app_assoc (a b c : string) : (a +:+ b) +:+ c = a +:+ b +:+ c.
Proof. apply chars_inj. now rewrite !chars_app, app_assoc. Qed.

Lemma path_join2_relative (path : string) (c : ascii) (rest : string) :
  Ascii.eqb c "/" = false ->
  exists prefix, forall rest',
    Py.path_join2 path (String c rest') = prefix +:+ String c rest'.
Proof.
  intros Hc. unfold Py.path_join2, Py.starts_with_slash. rewrite Hc.
  destruct (_ || _).
  - exists path. reflexivity.
  - exists (path +:+ "/"). intros rest'. now rewrite string_app_assoc.
Qed.

(** The name of a shear catalog: a prefix that depends on the
    realization only, then the stem of the input file, the realization
    and the format. *)
Lemma shear_catalog_savename_shape (save_path : string) (subdirs : list string)
    (k r : Z) (format : string) :
  exists prefix, forall file name,
    shear_catalog_savename save_path subdirs k file r format = inr name ->
    name = prefix +:+ "WLshear_" +:+ file_stem file +:+ "_"
           +:+ Py.fmt_04d (r + 1) +:+ "r." +:+ format.
Proof.
  unfold shear_catalog_savename, file_stem.
  destruct (negb (length subdirs =? 0)%nat).
  - destruct (Py.floordiv r k) as [e|c];
      [exists ""; intros file name; cbn; discriminate|].
    cbn [mbind Res_bind].
    destruct (Py.index subdirs c) as [e|d];
      [exists ""; intros file name; cbn; discriminate|].
    cbn [mbind Res_bind Py.path_join fold_left].
    destruct (path_join2_relative (Py.path_join2 save_path d) "W" "" eq_refl)
      as [prefix Hprefix].
    exists prefix. intros file name.
    destruct (Py.index (Py.split "." file) 0) as [e|stem]; [discriminate|].
    cbn [mbind Res_bind mret Res_ret]. intros [= <-]. apply Hprefix.
  - cbn [mbind Res_bind Py.path_join fold_left].
    destruct (path_join2_relative save_path "W" "" eq_refl)
      as [prefix Hprefix].
    exists prefix. intros file name.
    destruct (Py.index (Py.split "." file) 0) as [e|stem]; [discriminate|].
    cbn [mbind Res_bind mret Res_ret]. intros [= <-]. apply Hprefix.
Qed.

Lemma fmt_04d_digits (n : Z) :
  0 <= n -> Forall (fun c => is_digit c = true) (chars (Py.fmt_04d n)).
Proof.
  intros Hn. unfold Py.fmt_04d. destruct (Z.ltb_spec n 0); [lia|].
  destruct (str_int_nonneg n Hn) as (ds & Hds & Hne & Hdig & Hval).
  unfold Py.str_int in Hds. subst ds.
  now destruct (zfill_digits 4 _ _ Hne Hdig Hval) as (_ & Hdig' & _).
Qed.

Lemma shear_catalog_savename_inj (save_path : string) (subdirs : list string)
    (k : Z) (format file file' : string) (r r' : Z) (name : string) :
  0 <= r -> 0 <= r' ->
  shear_catalog_savename save_path subdirs k file r format = inr name ->
  shear_catalog_savename save_path subdirs k file' r' format = inr name ->
  r = r' /\ file_stem file = file_stem file'.
Proof.
  intros Hr Hr' E E'.
  assert (r = r') as <-.
  { destruct (shear_catalog_savename_shape save_path subdirs k r format)
      as [p Hp].
    destruct (shear_catalog_savename_shape save_path subdirs k r' format)
      as [p' Hp'].
    apply Hp in E. apply Hp' in E'. rewrite E in E'.
    apply (f_equal chars) in E'. rewrite !chars_app in E'.
    rewrite !app_assoc in E'. apply app_inv_tail in E'.
    apply app_inv_tail in E'. apply (f_equal (@rev ascii)) in E'.
    rewrite !(rev_app_distr _ (chars (Py.fmt_04d _))) in E'.
    rewrite !(rev_app_distr _ (chars "_")) in E'.
    change (rev (chars "_")) with ["_"%char] in E'.
    rewrite <- !app_assoc in E'. cbn [app] in E'.
    apply digits_prefix_unique in E' as (E' & _);
      try reflexivity; try (apply List.Forall_rev, fmt_04d_digits; lia).
    apply (f_equal (@rev ascii)) in E'. rewrite !rev_involutive in E'.
    apply chars_inj, fmt_04d_inj in E'. lia. }
  split; [reflexivity|].
  destruct (shear_catalog_savename_shape save_path subdirs k r format)
    as [p Hp].
  apply Hp in E. apply Hp in E'. rewrite E in E'.
  apply (inj (String.app p)) in E'. apply (inj (String.app "WLshear_")) in E'.
  now apply app_inv_suffix in E'.
Qed.

Lemma catalog_files_app (l1 l2 : list (Event F U)) :
  catalog_files (l1 ++ l2) = catalog_files l1 ++ catalog_files l2.
Proof. unfold catalog_files, saved_catalogs. now rewrite omap_app, fmap_app. Qed.

Lemma catalog_files_none (l : list (Event F U)) :
  Forall (fun e => is_save_catalog e = false) l -> catalog_files l = [].
Proof.
  induction 1 as [|e l He _ IH]; [reflexivity|].
  destruct e; try discriminate; exact IH.
Qed.

Lemma catalog_files_quiet {A B} (m : M F U G A) (f : A -> M F U G B) (g : G) :
  emits (fun e => is_save_catalog e = false) m ->
  catalog_files (evs ((m ≫= f) g))
  = match res (m g) with
    | inl _ => []
    | inr a => catalog_files (evs (f a (rng (m g))))
    end.
Proof.
  intros Hm. rewrite evs_bind, catalog_files_app, (catalog_files_none _ (Hm g)).
  now destruct (res (m g)).
Qed.

Lemma catalog_names_cons (save_path : string) (subdirs : list string) (k : Z)
    (format file : string) (files : list string) (r : Z) :
  catalog_names save_path subdirs k format (file :: files) r
  = match shear_catalog_savename save_path subdirs k file r format with
    | inr name => name :: catalog_names save_path subdirs k format files r
    | inl _ => catalog_names save_path subdirs k format files r
    end.
Proof.
  unfold catalog_names. cbn.
  now destruct (shear_catalog_savename save_path subdirs k file r format).
Qed.

Lemma save_catalogs_files (settings : CatalogSettings.t U) save_path subdirs k
    counts (shear_catalog : list (F * F)) r (g : G) :
  catalog_files (evs (save_catalogs settings save_path subdirs k counts
                        shear_catalog r g))
  `sublist_of` catalog_names save_path subdirs k (CatalogSettings.format settings)
                 (CatalogSettings.input_files settings) r.
Proof.
  unfold save_catalogs. generalize 0. revert g.
  induction (CatalogSettings.input_files settings) as [|file files IH];
    intros g n; cbn [for_enumerate].
  - apply sublist_nil_l.
  - rewrite evs_bind, catalog_files_app, catalog_names_cons.
    unfold save_file_catalog at 1 2.
    destruct (shear_catalog_savename _ _ _ file r _) as [e|name].
    { rewrite lift_inl_bind. apply sublist_nil_l. }
    rewrite lift_inr_bind.
    destruct (Py.index counts n) as [e|count].
    { rewrite lift_inl_bind. apply sublist_nil_l. }
    rewrite lift_inr_bind. cbn [emit evs res rng].
    apply (sublist_skip name). apply IH.
Qed.

Lemma catalog_realization_files tracer model (settings : CatalogSettings.t U)
    storage save_path subdirs k galaxies randomizer lines r u (g : G) :
  catalog_files (evs (catalog_realization tracer model settings storage save_path
                        subdirs k galaxies randomizer lines r u g))
  `sublist_of` catalog_names save_path subdirs k (CatalogSettings.format settings)
                 (CatalogSettings.input_files settings) r.
Proof.
  unfold catalog_realization.
  rewrite catalog_files_quiet by (now apply emits_emit). cbn [res emit].
  rewrite catalog_files_quiet by (now apply emits_add_catalog_lenses).
  destruct (res (add_catalog_lenses _ _ _ _ _ _ _ _ _)) as [e|lenses];
    [apply sublist_nil_l|].
  rewrite catalog_files_quiet by (now apply emits_call_reorder).
  cbn [res call_reorder].
  rewrite catalog_files_quiet by (now apply emits_call_shoot).
  destruct (res (call_shoot _ _ _ _)) as [e|jacobian]; [apply sublist_nil_l|].
  destruct (shear_catalog_of jacobian) as [e|shear_catalog];
    [rewrite lift_inl_bind; apply sublist_nil_l|].
  rewrite lift_inr_bind. apply save_catalogs_files.
Qed.

Lemma for_catalog_files {S} (body : Z -> S -> M F U G S) (names : Z -> list string) :
  (forall r s g, catalog_files (evs (body r s g)) `sublist_of` names r) ->
  forall xs s g,
    catalog_files (evs (for_ xs body s g)) `sublist_of` concat (names <$> xs).
Proof.
  intros Hbody. induction xs as [|r xs IH]; intros s g; cbn [for_].
  - apply sublist_nil_l.
  - rewrite evs_bind, catalog_files_app. cbn [fmap list_fmap concat].
    apply sublist_app; [apply Hbody|].
    destruct (res (body r s g)); [apply sublist_nil_l|apply IH].
Qed.

(** The shear catalogs of a run are among those of the realizations of
    its task. *)
Lemma simulatedCatalog_files tracer disk pool (batch : Batch.t F U)
    (settings : CatalogSettings.t U) id (g : G) :
  catalog_files (evs (simulatedCatalog tracer disk pool batch settings id g))
  `sublist_of`
  match catalog_settings_in_force disk batch settings id,
        catalog_save_path_of batch settings id with
  | Some s, Some save_path =>
      match _subdirectories (CatalogSettings.lens_catalog_realizations s)
                            (realizations_in_subdir_of s) with
      | inr subdirs =>
          concat (catalog_names save_path subdirs (realizations_in_subdir_of s)
                    (CatalogSettings.format s) (CatalogSettings.input_files s)
                  <$> task_range pool (CatalogSettings.lens_catalog_realizations s)
                        "Perfect load-balancing enforced, catalog_realizations must be a multiple of the number of MPI tasks!")
      | inl _ => []
      end
  | _, _ => []
  end.
Proof.
  unfold simulatedCatalog, catalog_settings_in_force, catalog_save_path_of,
    task_range.
  destruct (read_catalog_handles batch settings id) as [e|[[model coll] cat]];
    [rewrite lift_inl_bind; apply sublist_nil_l|].
  rewrite lift_inr_bind.
  destruct (override_catalog_settings _ _ _) as [e|s];
    [rewrite lift_inl_bind; apply sublist_nil_l|].
  rewrite lift_inr_bind.
  rewrite catalog_files_quiet by (now apply emits_seed).
  destruct (res (np_random_seed _ _)); [apply sublist_nil_l|].
  rewrite catalog_files_quiet by (now apply emits_load_galaxies).
  destruct (res (load_galaxies _ _ _ _ _)) as [e|galaxies];
    [apply sublist_nil_l|].
  destruct (_subdirectories _ _) as [e|subdirs];
    [rewrite lift_inl_bind; apply sublist_nil_l|].
  rewrite lift_inr_bind.
  rewrite catalog_files_quiet by (now apply emits_make_subdirectories).
  destruct (res (make_subdirectories _ _ _ _ _)); [apply sublist_nil_l|].
  rewrite catalog_files_quiet by (now apply emits_barrier).
  destruct (res (barrier _ _)); [apply sublist_nil_l|].
  destruct (task_realizations _ _ _) as [e|[first last]];
    [rewrite lift_inl_bind; apply sublist_nil_l|].
  rewrite lift_inr_bind.
  destruct (catalog_info_filename s _) as [e|info_filename];
    [rewrite lift_inl_bind; apply sublist_nil_l|].
  rewrite lift_inr_bind.
  destruct (open_lines disk info_filename) as [e|lines];
    [rewrite lift_inl_bind; apply sublist_nil_l|].
  rewrite lift_inr_bind.
  rewrite catalog_files_quiet by (now apply emits_draw_randomizer).
  destruct (res (draw_randomizer _ _ _ _)) as [e|randomizer];
    [apply sublist_nil_l|].
  rewrite evs_bind, catalog_files_app.
  rewrite <- (app_nil_r (concat _)). apply sublist_app.
  - apply for_catalog_files. intros r c g'. apply catalog_realization_files.
  - destruct (res _); [apply sublist_nil_l|].
    rewrite catalog_files_none; [apply sublist_nil_l|].
    now apply emits_barrier.
Qed.

Lemma catalog_names_NoDup (save_path : string) (subdirs : list string) (k : Z)
    (format : string) (files : list string) (r : Z) :
  0 <= r -> NoDup (file_stem <$> files) ->
  NoDup (catalog_names save_path subdirs k format files r).
Proof.
  intros Hr.
  induction files as [|file files IH]; cbn [fmap list_fmap];
    [constructor|].
  intros Hnd. apply NoDup_cons in Hnd as [Hnew Hnd]. rewrite catalog_names_cons.
  destruct (shear_catalog_savename _ _ _ file r _) as [e|name] eqn:E; [auto|].
  apply NoDup_cons. split; [|auto].
  intros Hin. apply list_elem_of_omap in Hin as (file' & Hfile' & E').
  destruct (shear_catalog_savename _ _ _ file' r _) as [e|name'] eqn:E'';
    [discriminate|]. injection E' as ->.
  destruct (shear_catalog_savename_inj _ _ _ _ _ _ _ _ _ Hr Hr E E'')
    as [_ Hstem].
  apply Hnew. rewrite Hstem. now apply list_elem_of_fmap_2.
Qed.

Lemma catalog_names_disjoint (save_path : string) (subdirs : list string) (k : Z)
    (format : string) (files : list string) (r r' : Z) (name : string) :
  0 <= r -> 0 <= r' ->
  name ∈ catalog_names save_path subdirs k format files r ->
  name ∈ catalog_names save_path subdirs k format files r' -> r = r'.
Proof.
  unfold catalog_names. intros Hr Hr' H1 H2.
  apply list_elem_of_omap in H1 as (f1 & _ & E1).
  apply list_elem_of_omap in H2 as (f2 & _ & E2).
  destruct (shear_catalog_savename _ _ _ f1 r _) as [e|n1] eqn:E1';
    [discriminate|]. injection E1 as ->.
  destruct (shear_catalog_savename _ _ _ f2 r' _) as [e|n2] eqn:E2';
    [discriminate|]. injection E2 as ->.
  now destruct (shear_catalog_savename_inj _ _ _ _ _ _ _ _ _ Hr Hr' E1' E2').
Qed.

Lemma catalog_names_concat_NoDup (save_path : string) (subdirs : list string)
    (k : Z) (format : string) (files : list string) (rs : list Z) :
  NoDup (file_stem <$> files) -> Forall (fun r => 0 <= r) rs -> NoDup rs ->
  NoDup (concat (catalog_names save_path subdirs k format files <$> rs)).
Proof.
  intros Hfiles Hpos Hnd.
  induction Hnd as [|r rs Hr Hrs IH]; cbn [fmap list_fmap concat]; [constructor|].
  apply Forall_cons in Hpos as [Hr0 Hpos].
  apply NoDup_app. split; [now apply catalog_names_NoDup|]. split; [|auto].
  intros name Hn Hin. apply list_elem_of_In, in_concat in Hin as (l & Hl & Hin).
  apply list_elem_of_In, list_elem_of_fmap in Hl as (r' & -> & Hr').
  apply list_elem_of_In in Hin.
  assert (0 <= r') as Hr0' by (rewrite Forall_forall in Hpos; auto).
  rewrite (catalog_names_disjoint _ _ _ _ _ _ _ _ Hr0 Hr0' Hn Hin) in Hr.
  contradiction.
Qed.

Lemma task_range_nonneg pool (R : Z) msg :
  match pool with Some p => 0 <= Pool.rank p | None => True end ->
  Forall (fun r => 0 <= r) (task_range pool R msg).
Proof.
  intros Hrank. apply Forall_forall. intros r.
  unfold task_range, task_realizations, Py.mod_, Py.floordiv.
  destruct pool as [p|].
  - destruct (Pool.size p + 1 =? 0); [cbn; intros H; inversion H|]. cbn.
    destruct (R mod (Pool.size p + 1) =? 0); [|cbn; intros H; inversion H]. cbn.
    unfold Py.range. rewrite elem_of_seqZ. nia.
  - cbn. unfold Py.range. rewrite elem_of_seqZ. lia.
Qed.

(** X15. When the input files of a catalog run have different stems, the
    run never writes a shear catalog file twice, and two tasks of
    different rank never write the same file: the name of a shear catalog
    determines its realization and the stem of its input file. *)
Theorem catalog_files_written_once tracer disk (batch : Batch.t F U)
    (settings s : CatalogSettings.t U) id :
  catalog_settings_in_force disk batch settings id = Some s ->
  NoDup (file_stem <$> CatalogSettings.input_files s) ->
  (forall pool (g : G),
     match pool with Some p => 0 <= Pool.rank p | None => True end ->
     NoDup (catalog_files
              (evs (simulatedCatalog tracer disk pool batch settings id g))))
  /\ (forall rank1 rank2 size m1 m2 (g1 g2 : G) name,
        0 <= rank1 -> 0 <= rank2 -> rank1 <> rank2 ->
        name ∈ catalog_files
                 (evs (simulatedCatalog tracer disk (Some (Pool.mk rank1 size m1))
                         batch settings id g1)) ->
        name ∈ catalog_files
                 (evs (simulatedCatalog tracer disk (Some (Pool.mk rank2 size m2))
                         batch settings id g2)) ->
        False).
Proof.
  intros Hs Hstems. split.
  - intros pool g Hrank. eapply sublist_NoDup; [|apply simulatedCatalog_files].
    rewrite Hs. destruct (catalog_save_path_of batch settings id); [|constructor].
    destruct (_subdirectories _ _); [constructor|].
    apply catalog_names_concat_NoDup;
      [assumption | now apply task_range_nonneg | apply task_range_NoDup].
  - intros rank1 rank2 size m1 m2 g1 g2 name Hr1 Hr2 Hne H1 H2.
    eapply elem_of_sublist in H1; [|apply simulatedCatalog_files].
    eapply elem_of_sublist in H2; [|apply simulatedCatalog_files].
    rewrite Hs in H1, H2.
    destruct (catalog_save_path_of batch settings id); [|inversion H1].
    destruct (_subdirectories _ _); [inversion H1|].
    apply list_elem_of_In, in_concat in H1 as (l1 & Hl1 & H1).
    apply list_elem_of_In, in_concat in H2 as (l2 & Hl2 & H2).
    apply list_elem_of_In, list_elem_of_fmap in Hl1 as (r1 & -> & Hin1).
    apply list_elem_of_In, list_elem_of_fmap in Hl2 as (r2 & -> & Hin2).
    apply list_elem_of_In in H1, H2.
    assert (0 <= r1) as Hr1'.
    { eapply (proj1 (Forall_forall _ _)); [|exact Hin1].
      now apply task_range_nonneg. }
    assert (0 <= r2) as Hr2'.
    { eapply (proj1 (Forall_forall _ _)); [|exact Hin2].
      now apply task_range_nonneg. }
    rewrite (catalog_names_disjoint _ _ _ _ _ _ _ _ Hr1' Hr2' H1 H2) in Hin1.
    exact (task_range_disjoint _ _ _ _ _ _ _ _ Hne Hin1 Hin2).
Qed.

End CatalogFiles.

(** ** The models of a batch *)

Section Available.
Import Simulation.
Context {F : Type} `{!PyFloat F}.

Example parmatch_ex :
  parmatch "Om0.260" = Some ("Om", "0.260")
  /\ parmatch "w-1.000" = Some ("w", "-1.000")
  /\ parmatch "wa0.3rest" = Some ("wa", "0.3")
  /\ parmatch "scratch" = None /\ parmatch "" = None /\ parmatch "0.3" = None.
Proof. repeat split. Qed.

Example parameters_of_dirname_ex :
  parameters_of_dirname (F:=Q) "Om0.260_Ol0.740"
  = inr (["Om"; "Ol"], <["Ode0" := (37 # 50)%Q]> (<["Om0" := (13 # 50)%Q]> ∅))
  /\ parameters_of_dirname (F:=Q) "Om0.260_scratch" = inl (Py.AttributeError "groups")
  /\ parameters_of_dirname (F:=Q) "Om0.260_Oz0.5" = inl (Py.KeyError "Oz")
  /\ parameters_of_dirname (F:=Q) "Om0.2.6" = inl (Py.ValueError "could not convert string to float").
Proof. repeat split; vm_compute; reflexivity. Qed.

Lemma for_res_fails {A S} (xs : list A) (body : A -> S -> Py.Res S) (x : A) :
  x ∈ xs -> (forall s, exists e, body x s = inl e) ->
  forall s, exists e, for_res xs body s = inl e.
Proof.
  intros Hx Hbody. induction xs as [|y xs IH]; intros s; [inversion Hx|].
  cbn [for_res]. apply elem_of_cons in Hx as [<-|Hx].
  - destruct (Hbody s) as [e ->]. cbn. eauto.
  - destruct (body y s) as [e|s']; cbn; eauto.
Qed.

Lemma span_none (p : ascii -> bool) (s : list ascii) :
  Forall (fun c => p c = false) s -> span p s = ([], s).
Proof. intros H. destruct H as [|c s Hc _]; cbn; [reflexivity|now rewrite Hc]. Qed.

Lemma parmatch_no_value (piece : string) :
  Forall (fun c => is_value_char c = false) (chars piece) -> parmatch piece = None.
Proof.
  intros H. unfold parmatch. fold (chars piece).
  destruct (span is_letter (chars piece)) as [par rest] eqn:E.
  assert (Forall (fun c => is_value_char c = false) rest) as Hrest.
  { clear -H E. revert par rest E.
    induction H as [|c s Hc Hs IH]; intros par rest; cbn.
    - intros [= <- <-]. constructor.
    - destruct (is_letter c).
      + destruct (span is_letter s) as [a b]. intros [= <- <-]. now apply (IH a).
      + intros [= <- <-]. now constructor. }
  rewrite (span_none _ _ Hrest). now destruct par.
Qed.

Lemma parameters_of_dirname_stray (dirname piece : string) :
  piece ∈ Py.split "_" dirname -> parmatch piece = None ->
  exists e, parameters_of_dirname dirname = inl e.
Proof.
  intros Hin Hnone. unfold parameters_of_dirname.
  apply (for_res_fails _ _ piece Hin). intros [l d]. rewrite Hnone. eauto.
Qed.

(** X16. One entry of the home directory whose name has a piece without
    any digit, dot or dash (between underscores; [scratch], say, or a
    name that ends in an underscore) makes [available] raise instead of
    returning the models: the regular expression does not match the
    piece, [groups] is asked of [None], and the [AttributeError] is not a
    [TypeError].  It is what [available] raises when the entry comes
    first and the piece is the first of its name.  When the home or the
    storage directory is missing the list is empty. *)
Theorem available_stray_directory {A} (dirnames : list string)
    (new_model : gmap string F -> list string -> Py.Res A)
    (dirname piece : string) :
  dirname ∈ dirnames -> piece ∈ Py.split "_" dirname ->
  Forall (fun c => is_value_char c = false) (chars piece) ->
  (exists e, available true true dirnames new_model = inl e)
  /\ (forall rest pieces,
        dirnames = dirname :: rest -> Py.split "_" dirname = piece :: pieces ->
        available true true dirnames new_model = inl (Py.AttributeError "groups"))
  /\ forall isdir, available false isdir dirnames new_model = inr []
                   /\ available isdir false dirnames new_model = inr [].
Proof.
  intros Hdir Hpiece Hchars.
  pose proof (parmatch_no_value piece Hchars) as Hnone.
  repeat apply conj.
  - unfold available. cbn [negb orb].
    apply (for_res_fails _ _ dirname Hdir). intros models.
    destruct (parameters_of_dirname_stray dirname piece Hpiece Hnone) as [e ->].
    cbn. eauto.
  - intros rest pieces -> Hsplit. unfold available. cbn [negb orb for_res].
    unfold parameters_of_dirname. rewrite Hsplit. cbn [for_res].
    now rewrite Hnone.
  - intros isdir. split; [reflexivity|]. unfold available.
    now rewrite orb_true_r.
Qed.

Lemma name2attr_keys (p attr : string) :
  name2attr !! p = Some attr ->
  p ∈ ["ns"; "si"; "Ob"; "h"; "wa"; "w"; "Ol"; "Om"].
Proof.
  unfold name2attr. intros H.
  repeat (apply lookup_insert_Some in H as [[<- _]|[_ H]]; [set_solver|]).
  discriminate.
Qed.

Lemma name2attr_inj (p p' attr : string) :
  name2attr !! p = Some attr -> name2attr !! p' = Some attr -> p = p'.
Proof.
  intros H H'.
  pose proof (name2attr_keys _ _ H) as Hp.
  pose proof (name2attr_keys _ _ H') as Hp'.
  rewrite !elem_of_cons, elem_of_nil in Hp, Hp'.
  decompose [or] Hp; try contradiction; subst p;
    vm_compute in H; injection H as <-;
    decompose [or] Hp'; try contradiction; subst p';
    try reflexivity; vm_compute in H'; discriminate.
Qed.

Lemma name2attr_key_letters (p attr : string) :
  name2attr !! p = Some attr ->
  chars p <> [] /\ Forall (fun c => is_letter c = true) (chars p)
  /\ free_of "_" p.
Proof.
  intros H. apply name2attr_keys in H.
  rewrite !elem_of_cons, elem_of_nil in H.
  decompose [or] H; try contradiction; subst p;
    (split; [discriminate|split; repeat constructor]).
Qed.

Lemma value_not_letter (c : ascii) :
  is_value_char c = true -> is_letter c = false.
Proof.
  unfold is_value_char, is_letter.
  destruct (Ascii.eqb_spec c ".") as [->|_]; [reflexivity|].
  destruct (Ascii.eqb_spec c "-") as [->|_]; [reflexivity|].
  generalize (Z.of_nat (nat_of_ascii c)). intros n. lia.
Qed.

Lemma value_not_underscore (c : ascii) :
  is_value_char c = true -> Ascii.eqb c "_" = false.
Proof.
  intros H. destruct (Ascii.eqb_spec c "_") as [->|_]; [discriminate H|reflexivity].
Qed.

Lemma span_app (p : ascii -> bool) (l r : list ascii) :
  Forall (fun c => p c = true) l ->
  match r with c :: _ => p c = false | [] => True end ->
  span p (l ++ r) = (l, r).
Proof.
  intros Hl Hr. induction Hl as [|c l Hc _ IH]; cbn.
  - destruct r as [|c r]; [reflexivity|]. cbn. now rewrite Hr.
  - now rewrite Hc, IH.
Qed.

Lemma parmatch_piece (p s : string) :
  chars p <> [] -> Forall (fun c => is_letter c = true) (chars p) ->
  value_string s -> parmatch (p +:+ s) = Some (p, s).
Proof.
  intros Hne Hp [Hs Hv]. unfold parmatch. fold (chars (p +:+ s)).
  rewrite chars_app, span_app; [|assumption|].
  - rewrite <- (app_nil_r (chars s)) at 1. rewrite span_app by auto.
    destruct (chars p) eqn:Ep; [congruence|].
    destruct (chars s) eqn:Es; [congruence|].
    rewrite <- Ep, <- Es. unfold chars.
    now rewrite !string_of_list_ascii_of_string.
  - destruct Hv as [|c l Hc _]; [congruence|]. now apply value_not_letter.
Qed.

Lemma split_concat (sep : ascii) (pieces : list string) :
  pieces <> [] -> Forall (free_of sep) pieces ->
  Py.split sep (String.concat (String sep "") pieces) = pieces.
Proof.
  intros Hne Hfree. induction Hfree as [|x xs Hx Hxs IH]; [congruence|].
  destruct xs as [|y ys].
  - cbn. now apply split_free.
  - cbn [String.concat].
    change (String sep "" +:+ ?t) with (String sep t).
    rewrite split_app by assumption. f_equal. now apply IH.
Qed.

Lemma cosmo_piece_free (fmt_3f : F -> string) cosmology p piece :
  cosmo_piece fmt_3f cosmology p piece -> free_of "_" piece.
Proof.
  intros (attr & v & Hattr & _ & -> & [_ Hv] & _).
  apply free_of_app. split; [now apply (name2attr_key_letters p attr)|].
  eapply Forall_impl; [exact Hv|apply value_not_underscore].
Qed.

Lemma cosmo_id_loop (fmt_3f : F -> string) cosmology parameters pieces :
  Forall2 (cosmo_piece fmt_3f cosmology) parameters pieces ->
  forall acc,
    for_res parameters
      (fun p pieces =>
         attr ← name2attr_get p;
         mret (match cosmology !! attr with
               | Some v => pieces ++ [p +:+ fmt_3f v]
               | None => pieces
               end)) acc
    = inr (acc ++ pieces).
Proof.
  induction 1 as [|p piece ps pieces (attr & v & Hattr & Hv & -> & _) _ IH];
    intros acc; cbn [for_res].
  - now rewrite app_nil_r.
  - unfold name2attr_get. rewrite Hattr. cbn [mbind Res_bind mret Res_ret].
    rewrite Hv, IH, <- app_assoc. reflexivity.
Qed.

Lemma dirname_loop (fmt_3f : F -> string) cosmology parameters pieces :
  Forall2 (cosmo_piece fmt_3f cosmology) parameters pieces ->
  forall (l : list string) (d : gmap string F),
  exists d',
    for_res pieces
      (fun parameter '(parameters_list, parameters_dict) =>
         match parmatch parameter with
         | None => inl (Py.AttributeError "groups")
         | Some (par, val) =>
             v ← float val;
             attr ← name2attr_get par;
             mret (parameters_list ++ [par], <[attr := v]> parameters_dict)
         end) (l, d)
    = inr (l ++ parameters, d')
    /\ (forall p attr v,
          p ∈ parameters -> name2attr !! p = Some attr ->
          cosmology !! attr = Some v ->
          d' !! attr = float_of_str (fmt_3f v))
    /\ (forall attr,
          (forall p, p ∈ parameters -> name2attr !! p <> Some attr) ->
          d' !! attr = d !! attr).
Proof.
  induction 1 as [|p piece ps pieces Hp _ IH]; intros l d; cbn [for_res].
  - exists d. rewrite app_nil_r. split; [reflexivity|]. split; [|reflexivity].
    intros p attr v Hin. inversion Hin.
  - destruct Hp as (attr & v & Hattr & Hv & -> & Hvs & [x Hx]).
    destruct (name2attr_key_letters p attr Hattr) as (Hne & Hletters & _).
    rewrite (parmatch_piece p (fmt_3f v) Hne Hletters Hvs).
    assert (Hf : float (fmt_3f v) = inr x) by (unfold float; now rewrite Hx).
    assert (Hn : name2attr_get p = inr attr)
      by (unfold name2attr_get; now rewrite Hattr).
    rewrite Hf. cbn [mbind Res_bind]. rewrite Hn.
    cbn [mbind Res_bind mret Res_ret].
    destruct (IH (l ++ [p]) (<[attr := x]> d)) as (d' & Hloop & Hin & Hout).
    exists d'. rewrite Hloop, <- app_assoc. split; [reflexivity|]. split.
    + intros p' attr' v' Hp' Hattr' Hv'.
      destruct (decide (p' ∈ ps)) as [Hps|Hps]; [now apply (Hin p')|].
      apply elem_of_cons in Hp' as [->|Hp']; [|contradiction].
      rewrite Hattr in Hattr'. injection Hattr' as <-.
      rewrite Hv in Hv'. injection Hv' as <-.
      rewrite Hout, lookup_insert_eq, Hx; [reflexivity|].
      intros p' Hp' Hattr'. apply Hps.
      now rewrite (name2attr_inj _ _ _ Hattr Hattr').
    + intros attr' Hnone. rewrite Hout.
      * apply lookup_insert_ne. intros <-. apply (Hnone p); [|assumption].
        apply elem_of_cons. now left.
      * intros p' Hp'. apply Hnone. apply elem_of_cons. now right.
Qed.

(** X17. The [cosmo_id] that [SimulationModel.__init__] builds (line 134)
    is read back by the loop of [available]: for parameters that
    [name2attr] knows and whose attributes the cosmology has, the
    directory name gives back the parameter list and, under each
    attribute, the number that its three decimals read as.  The
    parameter list must not be empty: the empty name has one piece, the
    empty one, which does not match. *)
Theorem cosmo_id_roundtrip (fmt_3f : F -> string) (cosmology : gmap string F)
    (parameters pieces : list string) :
  parameters <> [] ->
  Forall2 (cosmo_piece fmt_3f cosmology) parameters pieces ->
  exists dict,
    cosmo_id fmt_3f cosmology parameters = inr (String.concat "_" pieces)
    /\ parameters_of_dirname (String.concat "_" pieces) = inr (parameters, dict)
    /\ forall p attr v,
         p ∈ parameters -> name2attr !! p = Some attr ->
         cosmology !! attr = Some v ->
         dict !! attr = float_of_str (fmt_3f v).
Proof.
  intros Hne Hpieces.
  destruct (dirname_loop fmt_3f cosmology parameters pieces Hpieces [] ∅)
    as (dict & Hloop & Hin & _).
  exists dict. split; [|split; [|exact Hin]].
  - unfold cosmo_id. rewrite (cosmo_id_loop _ _ _ _ Hpieces). reflexivity.
  - unfold parameters_of_dirname. rewrite split_concat; [exact Hloop| |].
    + destruct Hpieces; congruence.
    + clear -Hpieces. induction Hpieces; constructor; [|assumption].
      eapply cosmo_piece_free; eassumption.
Qed.

End Available.

(** ** Identifiers and settings that the scripts refuse *)

Section Ids.
Context {F U G : Type} `{!PyFloat F} `{!Units U} `{!Rng G}.

(** X18. An identifier of the wrong shape stops a run before it does
    anything.  With more than one [|] in the identifier [singleRedshift]
    leaves through [sys.exit(1)]; [simulatedCatalog] unpacks
    [id.split("|")] into two names, and the geometry [split("b")] into two
    more, so that an identifier without [|] or with more than one, or a
    geometry without [b] or with more than one, is a [ValueError].  In
    each case no seed has been set, no directory made and no file
    written. *)
Theorem malformed_id_stops_the_run tracer disk pool (batch : Batch.t F U)
    (id : string) (g : G) :
  (forall settings : MapSettings.t F U,
     (2 < length (Py.split "|" id))%nat ->
     singleRedshift tracer disk pool batch settings id g
     = mkOut (inl (Py.SystemExit 1)) g [])
  /\ (forall settings : CatalogSettings.t U,
        length (Py.split "|" id) <> 2%nat ->
        simulatedCatalog tracer disk pool batch settings id g
        = mkOut (inl (Py.ValueError "wrong number of values to unpack")) g [])
  /\ (forall (settings : CatalogSettings.t U) cosmo_id geometry_id,
        Py.split "|" id = [cosmo_id; geometry_id] ->
        length (Py.split "b" geometry_id) <> 2%nat ->
        simulatedCatalog tracer disk pool batch settings id g
        = mkOut (inl (Py.ValueError "wrong number of values to unpack")) g []).
Proof.
  repeat apply conj.
  - intros settings Hlen. unfold singleRedshift, read_handles.
    destruct (Py.split "|" id) as [|a [|b [|c l]]]; cbn in Hlen; try lia.
    now rewrite lift_inl_bind.
  - intros settings Hlen. unfold simulatedCatalog, read_catalog_handles.
    destruct (Py.split "|" id) as [|a [|b [|c l]]]; cbn in Hlen; try lia;
      cbn [unpack2 mbind Res_bind]; now rewrite lift_inl_bind.
  - intros settings cosmo_id geometry_id Hid Hlen.
    unfold simulatedCatalog, read_catalog_handles. rewrite Hid.
    cbn [unpack2 mbind Res_bind].
    destruct (Py.split "b" geometry_id) as [|a [|b [|c l]]]; cbn in Hlen; try lia;
      cbn [unpack2 mbind Res_bind]; now rewrite lift_inl_bind.
Qed.

(** X19. A telescopic run (an identifier without [|]) checks its settings
    against the collections of the map set: when one of [plane_set],
    [mix_nbody_realizations], [mix_cut_points] and [mix_normals] has not
    one entry for each collection, the run leaves through [sys.exit(1)],
    having seeded the generator and done nothing else. *)
Theorem telescopic_settings_are_checked tracer disk pool (batch : Batch.t F U)
    (settings s : MapSettings.t F U) (id : string) (h : MapHandles)
    plane_set mix_nbody_realizations mix_cut_points mix_normals (g : G) :
  length (Py.split "|" id) = 1%nat ->
  read_handles batch settings id = inr h ->
  map_settings_in_force disk batch settings id = Some s ->
  MapSettings.planes s
  = PerCollection plane_set mix_nbody_realizations mix_cut_points mix_normals ->
  let n := length (h_collection h) in
  length plane_set <> n \/ length mix_nbody_realizations <> n
  \/ length mix_cut_points <> n \/ length mix_normals <> n ->
  let out := singleRedshift tracer disk pool batch settings id g in
  Forall (fun e => is_seed e = true) (evs out)
  /\ (0 <= task_seed pool (MapSettings.seed s) < 2 ^ 32 ->
      res out = inl (Py.SystemExit 1)).
Proof.
  intros Hlen Hh Hs Hplanes n Hbad. cbn zeta.
  unfold map_settings_in_force in Hs. rewrite Hh in Hs.
  unfold singleRedshift. rewrite Hh, lift_inr_bind.
  destruct (override_map_settings _ _ _) as [e|s0]; [discriminate|].
  injection Hs as ->. rewrite lift_inr_bind, seed_bind.
  assert (Hchoice : read_plane_choice id h s = inl (Py.SystemExit 1)).
  { unfold read_plane_choice. rewrite Hplanes.
    destruct (Py.split "|" id) as [|a [|b l]]; try discriminate.
    fold n.
    destruct (Nat.eqb_spec (length plane_set) n);
      destruct (Nat.eqb_spec (length mix_nbody_realizations) n);
      destruct (Nat.eqb_spec (length mix_cut_points) n);
      destruct (Nat.eqb_spec (length mix_normals) n);
      try reflexivity.
    exfalso. intuition. }
  rewrite Hchoice, lift_inl_bind.
  destruct (Z.leb_spec 0 (task_seed pool (MapSettings.seed s)));
    destruct (Z.ltb_spec (task_seed pool (MapSettings.seed s)) (2 ^ 32));
    cbn; (split; [repeat constructor|]); try reflexivity; lia.
Qed.

End Ids.

(** ** Initial conditions: what is made is what is listed *)

Section InitialConditions.
Import Simulation.

Example newInitialCondition_ex :
  let st0 := mkCollectionDirs ∅ (<["Maps" := Dir ∅]> ∅) in
  (newInitialConditions [7; 0; -3] st0).1 = inr [(1, 7); (2, 0); (3, -3)]
  /\ exists l, ics (newInitialConditions [7; 0; -3] st0).2 = inr l
               /\ l ≡ₚ [(1, 7); (2, 0); (3, -3)].
Proof.
  split; [vm_compute; reflexivity|].
  eexists. split; [vm_compute; reflexivity|].
  apply (bool_decide_unpack _). vm_compute. exact I.
Qed.

Lemma prefix_app (p s : string) : String.prefix p (p +:+ s) = true.
Proof.
  induction p as [|c p IH]; [now destruct s|].
  change (String c p +:+ s) with (String c (p +:+ s)). cbn.
  destruct (ascii_dec c c); [exact IH|congruence].
Qed.

Lemma ic_name_inj (i j : Z) : ic_name i = ic_name j -> i = j.
Proof.
  unfold ic_name. intros H. apply (inj (String.app "ic")) in H.
  now apply str_int_inj.
Qed.

Lemma lstrip_chars_app (set pre t : list ascii) :
  Forall (fun c => existsb (Ascii.eqb c) set = true) pre ->
  match t with c :: _ => existsb (Ascii.eqb c) set = false | [] => True end ->
  lstrip_chars set (pre ++ t) = t.
Proof.
  intros Hpre Ht. induction Hpre as [|c pre Hc _ IH]; cbn.
  - destruct t as [|c t]; [reflexivity|]. cbn. now rewrite Ht.
  - now rewrite Hc.
Qed.

Lemma strip_chars_prefix (set pre t : string) :
  Forall (fun c => existsb (Ascii.eqb c) (chars set) = true) (chars pre) ->
  Forall (fun c => existsb (Ascii.eqb c) (chars set) = false) (chars t) ->
  strip_chars set (pre +:+ t) = t.
Proof.
  intros Hpre Ht. unfold strip_chars. fold (chars set) (chars (pre +:+ t)).
  rewrite chars_app, lstrip_chars_app; [|assumption|now destruct Ht].
  rewrite <- (app_nil_l (rev (chars t))), lstrip_chars_app.
  - rewrite rev_involutive. apply string_of_list_ascii_of_string.
  - constructor.
  - apply List.Forall_rev in Ht. now destruct Ht.
Qed.

Lemma str_int_not_in (set : string) (n : Z) :
  Forall (fun c => is_digit c = false /\ c <> "-"%char) (chars set) ->
  Forall (fun c => existsb (Ascii.eqb c) (chars set) = false)
         (chars (Py.str_int n)).
Proof.
  intros Hset. eapply Forall_impl; [apply str_int_chars|].
  intros c Hc. apply not_true_is_false. intros Hex.
  apply existsb_exists in Hex as (x & Hx & Heq).
  apply Ascii.eqb_eq in Heq as <-.
  apply list_elem_of_In in Hx.
  rewrite Forall_forall in Hset. destruct (Hset c Hx) as [Hd Hm].
  destruct Hc; congruence.
Qed.

Lemma strip_ic_name (j : Z) : strip_chars "ic" (ic_name j) = Py.str_int j.
Proof.
  apply strip_chars_prefix; [repeat constructor|].
  apply str_int_not_in. repeat constructor; discriminate.
Qed.

Lemma strip_seed_name (seed : Z) :
  strip_chars "seed" ("seed" +:+ Py.str_int seed) = Py.str_int seed.
Proof.
  apply strip_chars_prefix; [repeat constructor|].
  apply str_int_not_in. repeat constructor; discriminate.
Qed.

Lemma glob_none (prefix : string) (names : list string) :
  (forall name, name ∈ names -> String.prefix prefix name = false) ->
  glob prefix names = [].
Proof.
  intros H. induction names as [|x xs IH]; [reflexivity|].
  unfold glob. rewrite filter_cons.
  rewrite decide_False.
  - apply IH. intros name Hn. apply H. now right.
  - rewrite (H x) by now left. discriminate.
Qed.

Lemma tracks_fresh (st : CollectionDirs) : without_ics st -> tracks [] st.
Proof.
  intros Hst. repeat split.
  - rewrite glob_none; [reflexivity|].
    intros name Hn. apply Hst. right. now apply elem_of_elements in Hn.
  - intros ic Hic. inversion Hic.
  - intros name Hn Hp. rewrite (Hst name) in Hp by now left. discriminate.
Qed.

Lemma tracks_count (created : list (Z * Z)) (st : CollectionDirs) :
  tracks created st ->
  length (glob "ic" (elements (dom (storage_subdir st)))) = length created.
Proof. intros (_ & Hglob & _). now rewrite Hglob, length_fmap. Qed.

Lemma tracks_new (created : list (Z * Z)) (st : CollectionDirs) (ic : Z * Z) :
  tracks created st -> ic ∈ created ->
  ic.1 <> Z.of_nat (length created) + 1.
Proof.
  intros (Hidx & _) Hic.
  apply (list_elem_of_fmap_2 fst) in Hic. rewrite Hidx in Hic.
  apply elem_of_seqZ in Hic. lia.
Qed.

(** One more initial condition on directories that show those created
    so far. *)
Lemma newInitialCondition_tracks (created : list (Z * Z)) (st : CollectionDirs)
    (seed : Z) :
  tracks created st ->
  let ic := (Z.of_nat (length created) + 1, seed) in
  exists st',
    newInitialCondition seed st = (inr ic, st') /\ tracks (created ++ [ic]) st'.
Proof.
  intros Htracks ic.
  pose proof (tracks_count _ _ Htracks) as Hcount.
  pose proof (fun ic' => tracks_new created st ic' Htracks) as Hnew.
  destruct Htracks as (Hidx & Hglob & Hdirs & Hhome).
  unfold newInitialCondition. rewrite Hcount. fold ic.
  set (name := ic_name (Z.of_nat (length created) + 1)).
  assert (Hfresh : forall ic', ic' ∈ created -> ic_name ic'.1 <> name).
  { intros ic' Hic' E. apply ic_name_inj in E. now apply (Hnew ic'). }
  assert (Hprefix : String.prefix "ic" name = true) by apply prefix_app.
  rewrite decide_False.
  2:{ intros Hin. destruct (Hhome name Hin Hprefix) as (ic' & Hic' & E).
      now apply (Hfresh ic'). }
  cbn [storage_subdir home_subdir].
  assert (Hout : name ∉ dom (storage_subdir st)).
  { intros Hin. apply elem_of_elements in Hin.
    assert (name ∈ glob "ic" (elements (dom (storage_subdir st)))) as Hg
      by (apply list_elem_of_filter; auto).
    rewrite Hglob in Hg. apply list_elem_of_fmap in Hg as (ic' & E & Hic').
    now apply (Hfresh ic'). }
  rewrite decide_False by assumption.
  eexists. split; [reflexivity|].
  repeat split; cbn [storage_subdir home_subdir].
  - rewrite fmap_app, Hidx, length_app. cbn [length fmap list_fmap fst].
    replace (Z.of_nat (length created + 1))
      with (Z.of_nat (S (length created))) by lia.
    rewrite seqZ_S. f_equal. f_equal. cbn. lia.
  - rewrite dom_insert_L. unfold glob.
    rewrite elements_union_singleton by assumption.
    rewrite filter_cons_True by assumption.
    fold (glob "ic" (elements (dom (storage_subdir st)))).
    rewrite Hglob, fmap_app. cbn [fmap list_fmap fst].
    now rewrite Permutation_app_comm.
  - intros ic' Hic'. apply elem_of_app in Hic' as [Hic'|Hic'].
    + rewrite lookup_insert_ne by (intros E; now apply (Hfresh ic')).
      now apply Hdirs.
    + apply list_elem_of_singleton in Hic' as ->. apply lookup_insert_eq.
  - intros name' Hin Hp. apply elem_of_union in Hin as [Hin|Hin].
    + apply elem_of_singleton in Hin as ->. exists ic.
      split; [apply elem_of_app; right; now left|reflexivity].
    + destruct (Hhome name' Hin Hp) as (ic' & Hic' & E).
      exists ic'. split; [apply elem_of_app; now left|assumption].
Qed.

Lemma glob_singleton (prefix name : string) :
  String.prefix prefix name = true -> glob prefix [name] = [name].
Proof.
  intros Hp. unfold glob. now rewrite filter_cons_True, filter_nil.
Qed.

Lemma newInitialConditions_tracks (seeds : list Z) :
  forall (created : list (Z * Z)) (st : CollectionDirs),
    tracks created st ->
    exists st',
      newInitialConditions seeds st
      = (inr (numbered (Z.of_nat (length created) + 1) seeds), st')
      /\ tracks (created ++ numbered (Z.of_nat (length created) + 1) seeds) st'.
Proof.
  induction seeds as [|seed seeds IH]; intros created st Htracks.
  - exists st. cbn. now rewrite app_nil_r.
  - destruct (newInitialCondition_tracks created st seed Htracks)
      as (st1 & Hstep & Htracks1).
    destruct (IH _ _ Htracks1) as (st' & Hrest & Htracks').
    rewrite length_app in Hrest, Htracks'. cbn [length] in Hrest, Htracks'.
    replace (Z.of_nat (length created + 1) + 1)
      with (Z.of_nat (length created) + 1 + 1) in Hrest, Htracks' by lia.
    exists st'. cbn [newInitialConditions numbered].
    rewrite Hstep, Hrest. split; [reflexivity|].
    now rewrite <- app_assoc in Htracks'.
Qed.

Lemma ics_tracks (created : list (Z * Z)) (st : CollectionDirs) :
  tracks created st -> exists l, ics st = inr l /\ l ≡ₚ created.
Proof.
  intros (_ & Hglob & Hdirs & _).
  change (fmap ?f ?l) with (map f l) in Hglob.
  apply Permutation_map_inv in Hglob as (found & Hfound & Hperm).
  exists found. split; [|now symmetry].
  change (map ?f ?l) with (fmap (M:=list) f l) in Hfound.
  unfold ics. rewrite Hfound.
  assert (Hall : forall ic, ic ∈ found -> ic ∈ created)
    by (intros ic Hic; now rewrite Hperm).
  clear Hfound Hperm.
  enough (forall acc : list (Z * Z),
    for_res (strip_chars "ic" <$> ((fun ic : Z * Z => ic_name ic.1) <$> found))
      (fun ic ic_list =>
         seed_file ← Py.index
           match storage_subdir st !! ("ic" +:+ ic) with
           | Some (Dir names) => glob "seed" (elements names)
           | _ => []
           end 0;
         seed ← Py.int_of_str (strip_chars "seed" seed_file);
         ic_index ← Py.int_of_str ic;
         mret (ic_list ++ [(ic_index, seed)]))
      acc = inr (acc ++ found)) as Hloop by apply (Hloop []).
  induction found as [|[j seed] found IH]; intros acc; cbn [fmap list_fmap for_res].
  - now rewrite app_nil_r.
  - cbn [fst]. rewrite strip_ic_name. fold (ic_name j).
    pose proof (Hdirs (j, seed) ltac:(apply Hall; now left)) as Hdir.
    cbn [fst snd] in Hdir. rewrite Hdir.
    rewrite elements_singleton, glob_singleton by apply prefix_app.
    change (Py.index [?x] 0) with (@inr Py.Exn _ x).
    cbn [mbind Res_bind]. rewrite strip_seed_name, !int_of_str_str_int.
    cbn [mbind Res_bind mret Res_ret].
    rewrite IH by (intros ic Hic; apply Hall; now right).
    now rewrite <- app_assoc.
Qed.

(** X20. What [newInitialCondition] makes, [ics] lists.  In a collection
    whose two directories hold no name that starts with [ic], one call for
    each seed succeeds and numbers the initial conditions 1, 2, ... in
    the order of the calls; [ics] then finds (in the order of the
    directory listing) exactly these, each with the index and the seed it
    was made with: [strip("ic")] and [strip("seed")] give back what
    [str] has written, for negative seeds as well. *)
Theorem initial_conditions_roundtrip (seeds : list Z) (st : CollectionDirs) :
  without_ics st ->
  exists st' found,
    newInitialConditions seeds st = (inr (numbered 1 seeds), st')
    /\ ics st' = inr found /\ found ≡ₚ numbered 1 seeds.
Proof.
  intros Hst.
  destruct (newInitialConditions_tracks seeds [] st (tracks_fresh st Hst))
    as (st' & Hnew & Htracks).
  cbn in Hnew, Htracks.
  destruct (ics_tracks _ _ Htracks) as (found & Hics & Hperm).
  exists st', found. auto.
Qed.

End InitialConditions.

(** * The further properties at work on the concrete instance *)

Lemma snapshot_header :
  exists header, FastPM.getHeader snapshot_attrs = inr header.
Proof.
  assert (Hnc : snapshot_attrs !! "NC" = Some (FastPM.IntAttr [128]))
    by (vm_compute; reflexivity).
  assert (Hom : snapshot_attrs !! "OmegaM" = Some (FastPM.FloatAttr [(26 # 100)%Q]))
    by (vm_compute; reflexivity).
  assert (Hbs : snapshot_attrs !! "BoxSize" = Some (FastPM.FloatAttr [240%Q]))
    by (vm_compute; reflexivity).
  assert (Hm0 : snapshot_attrs !! "M0" = Some (FastPM.FloatAttr [(5 # 1)%Q]))
    by (vm_compute; reflexivity).
  unfold FastPM.getHeader, FastPM.attr_int, FastPM.attr_float.
  rewrite Hnc, Hom, Hbs, Hm0. cbn. eauto.
Qed.

Lemma getHeader_keys_witness :
  exists header,
    FastPM.getHeader snapshot_attrs = inr header
    /\ is_Some (header !! "masses") /\ ~ is_Some (header !! "NC").
Proof.
  destruct snapshot_header as [header E].
  exists header. split; [exact E|].
  destruct (getHeader_keys snapshot_attrs header E) as [Hkeys _].
  rewrite !Hkeys, !elem_of_cons, elem_of_nil. split; [auto 20|].
  intros H. decompose [or] H; easy.
Defined.

(** One more attribute in the file changes nothing. *)
Lemma getHeader_reads_four_attributes_witness :
  FastPM.getHeader snapshot_attrs
  = FastPM.getHeader (<["Time" := FastPM.FloatAttr [1%Q]]> snapshot_attrs)
  /\ FastPM.getHeader (delete "OmegaM" snapshot_attrs)
     = inl (Py.KeyError "OmegaM").
Proof.
  split.
  - apply (proj1 (getHeader_reads_four_attributes snapshot_attrs _)).
    intros k Hk. rewrite lookup_insert_ne; [reflexivity|].
    intros <-. rewrite !elem_of_cons, elem_of_nil in Hk.
    decompose [or] Hk; easy.
  - apply (proj2 (getHeader_reads_four_attributes
                    (delete "OmegaM" snapshot_attrs) snapshot_attrs)).
    + exists 128, []. vm_compute. reflexivity.
    + vm_compute. reflexivity.
Defined.

(** Six realizations in subdirectories of two. *)
Lemma subdirectories_outcome_witness :
  _subdirectories 6 2 = inr ["1-2"; "3-4"; "5-6"]
  /\ exists subdirs,
       _subdirectories 6 2 = inr subdirs /\ NoDup subdirs
       /\ length subdirs = 3%nat.
Proof.
  split; [reflexivity|].
  destruct (proj2 (proj2 (proj2 (subdirectories_outcome 6 2)))
              ltac:(lia) ltac:(reflexivity) ltac:(lia))
    as (subdirs & E & Hlen & Hnd & _).
  exists subdirs. auto.
Defined.

Lemma plain_witness (s : string) :
  forallb (fun c => negb (is_separator c)) (chars s) = true -> plain s.
Proof.
  intros H. apply Forall_forall. intros c Hc.
  rewrite forallb_forall in H. apply negb_true_iff, H.
  now apply list_elem_of_In.
Qed.

(** The first line of the plane summary of the examples, under other
    keys. *)
Lemma parse_info_line_accepts_witness :
  parse_info_line Demo.model "s=58,d=120.5 Mpc/h,z=0.04"
  = inr (58, mkQuantity (241 # 2)%Q "Mpc/h", (1 # 25)%Q).
Proof.
  exact (parse_info_line_accepts Demo.model "s" "d" "z" 58 "120.5" "0.04"
           (241 # 2)%Q (1 # 25)%Q
           (plain_witness "s" eq_refl) (plain_witness "d" eq_refl)
           (plain_witness "z" eq_refl) (plain_witness "120.5" eq_refl)
           (plain_witness "0.04" eq_refl) eq_refl eq_refl).
Defined.

Lemma parse_info_line_short_line_witness :
  exists e, parse_info_line Demo.model "snapshot=58,distance=120.5 Mpc/h" = inl e.
Proof.
  apply (parse_info_line_short_line Demo.model
           "snapshot=58,distance=120.5 Mpc/h").
  cbn. lia.
Defined.

(** A lens at redshift 0.7 between the cuts at 0.5 and 1. *)
Lemma select_collection_spec_witness :
  select_collection [(1 # 2)%Q; 1%Q] (7 # 10)%Q None = Some 0%nat
  /\ select_collection [(1 # 2)%Q; 1%Q] (1 # 4)%Q (Some 1%nat) = Some 1%nat.
Proof.
  split.
  - apply (proj2 (select_collection_spec [(1 # 2)%Q; 1%Q] (7 # 10)%Q None)
             0%nat (1 # 2)%Q); [reflexivity | reflexivity |].
    intros m z' Hm Hz'. destruct m as [|[|m]]; [lia| |discriminate].
    injection Hz' as <-. reflexivity.
  - apply (proj1 (select_collection_spec [(1 # 2)%Q; 1%Q] (1 # 4)%Q (Some 1%nat))).
    repeat constructor.
Defined.

(** The first plane of the examples lies at redshift 0.04, below the
    cuts of [deep_run]. *)
Lemma first_lens_below_every_cut_witness :
  let out := map_realization Demo.free_tracer (Demo.telescopic_settings 4)
               deep_run Demo.info_txt 2
               (initial_c (Some (Pool.mk 1 1 false)) (run_collection deep_run)) 0 in
  res out = inl (Py.UnboundLocalError "c") /\ evs out = [ENewTracer 2].
Proof.
  exact (proj1 (first_lens_below_every_cut Demo.free_tracer
                  (Demo.telescopic_settings 4) deep_run
                  (Some (Pool.mk 1 1 false))
                  "snapshot=58,distance=120.5 Mpc/h,redshift=0.04"
                  ["snapshot=46,distance=2240.25 Mpc/h,redshift=1.0"]
                  58 (mkQuantity (241 # 2)%Q "Mpc/h") (1 # 25)%Q 2 0
                  ltac:(discriminate) eq_refl ltac:(repeat constructor))
           eq_refl).
Defined.

(** Four realizations on two tasks. *)
Lemma map_files_written_once_witness :
  let run rank :=
    singleRedshift Demo.free_tracer Demo.disk (Some (Pool.mk rank 1 (rank =? 0)))
      Demo.batch (Demo.map_settings 4) "cosmo|512b240" 0 in
  map_files (evs (run 0))
  = ["/sim/512b240/Maps/WLconv_z1.00_0001r.fits";
     "/sim/512b240/Maps/WLshear_z1.00_0001r.fits";
     "/sim/512b240/Maps/WLomega_z1.00_0001r.fits";
     "/sim/512b240/Maps/WLconv_z1.00_0002r.fits";
     "/sim/512b240/Maps/WLshear_z1.00_0002r.fits";
     "/sim/512b240/Maps/WLomega_z1.00_0002r.fits"]
  /\ "/sim/512b240/Maps/WLconv_z1.00_0002r.fits" ∉ map_files (evs (run 1)).
Proof.
  cbn zeta. split; [vm_compute; reflexivity|].
  intros H.
  apply (proj2 (map_files_written_once Demo.free_tracer Demo.disk Demo.batch
                  (Demo.map_settings 4) "cosmo|512b240")
           0 1 1 true false 0 0 "/sim/512b240/Maps/WLconv_z1.00_0002r.fits"
           ltac:(lia)); [|exact H].
  apply list_elem_of_In. vm_compute. auto 10.
Defined.

(** The 400 galaxies of the three catalogs of the examples. *)
Lemma load_galaxies_contents_witness :
  exists galaxies,
    res (load_galaxies Demo.disk None (Demo.catalog_settings 400 4 None)
           "/sim/512/Catalog" 0) = inr galaxies
    /\ initial_positions_x galaxies = replicate 400 (1 # 2)%Q
    /\ length (galaxy_redshift galaxies) = 400%nat.
Proof.
  destruct (res (load_galaxies Demo.disk None (Demo.catalog_settings 400 4 None)
                   "/sim/512/Catalog" 0)) as [e|galaxies] eqn:E;
    [vm_compute in E; discriminate|].
  exists galaxies. split; [reflexivity|].
  destruct (load_galaxies_contents Demo.disk None (Demo.catalog_settings 400 4 None)
              "/sim/512/Catalog"
              [Demo.galaxies 100; Demo.galaxies 250; Demo.galaxies 50]
              galaxies 0 ltac:(repeat constructor) E)
    as (Hx & _ & _ & _ & Hlen).
  split; [rewrite Hx; vm_compute; reflexivity|].
  apply Nat2Z.inj. rewrite Hlen. reflexivity.
Defined.

(** The second of two tasks writes no directory and no position
    catalog. *)
Lemma catalog_directories_first_witness :
  Forall (fun e => is_mkdir e = false /\ is_write_positions e = false)
    (evs (simulatedCatalog Demo.free_tracer Demo.disk (Some (Pool.mk 1 1 false))
            Demo.batch (Demo.catalog_settings 400 4 (Some 2)) "cosmo|512b240" 0)).
Proof.
  exact (proj2 (catalog_directories_first Demo.free_tracer Demo.disk
                  (Some (Pool.mk 1 1 false)) Demo.batch
                  (Demo.catalog_settings 400 4 (Some 2)) "cosmo|512b240")
           eq_refl 0).
Defined.


(** The collection of the examples: [512b240]. *)
Lemma geometry_id_roundtrip_witness :
  Simulation.collection_of_name (F:=Q) "512b240" = Some (240%Q, 512)
  /\ exists handles,
       read_catalog_handles Demo.batch (Demo.catalog_settings 400 4 None)
         "Om0.260_Ol0.740|512b240" = inr handles.
Proof.
  assert (Hbox : float_of_str (Py.str_int 240) = Some 240%Q)
    by (vm_compute; reflexivity).
  destruct (geometry_id_roundtrip (U:=string) 512 240 240%Q Hbox)
    as [Hname Hid].
  split; [exact Hname|].
  eexists. apply (Hid Demo.batch (Demo.catalog_settings 400 4 None)
                    "Om0.260_Ol0.740").
  repeat constructor.
Defined.

(** The three input files of the examples have the stems [a], [b] and
    [c]. *)
Lemma catalog_files_written_once_witness :
  NoDup (catalog_files
           (evs (simulatedCatalog Demo.free_tracer Demo.disk None Demo.batch
                   (Demo.catalog_settings 400 4 (Some 2)) "cosmo|512b240" 0))).
Proof.
  assert (Hforce : catalog_settings_in_force Demo.disk Demo.batch
                     (Demo.catalog_settings 400 4 (Some 2)) "cosmo|512b240"
                   = Some (Demo.catalog_settings 400 4 (Some 2)))
    by reflexivity.
  assert (Hstems : NoDup (file_stem <$> CatalogSettings.input_files
                                          (Demo.catalog_settings 400 4 (Some 2)))).
  { change (NoDup ["a"; "b"; "c"]).
    repeat (apply NoDup_cons; split;
            [rewrite ?elem_of_cons, elem_of_nil; intuition discriminate|]).
    constructor. }
  exact (proj1 (catalog_files_written_once Demo.free_tracer Demo.disk Demo.batch
                  (Demo.catalog_settings 400 4 (Some 2))
                  (Demo.catalog_settings 400 4 (Some 2)) "cosmo|512b240"
                  Hforce Hstems) None 0 I).
Defined.

(** A home directory with one model and one directory of another kind. *)
Lemma available_stray_directory_witness :
  exists e,
    Simulation.available (F:=Q) true true ["Om0.260_Ol0.740"; "scratch"]
      (fun parameters_dict parameters_list => inr parameters_list)
    = inl e.
Proof.
  apply (proj1 (available_stray_directory (F:=Q)
                  ["Om0.260_Ol0.740"; "scratch"]
                  (fun parameters_dict parameters_list => inr parameters_list)
                  "scratch" "scratch"
                  ltac:(apply elem_of_cons; right; apply elem_of_cons; now left)
                  ltac:(apply elem_of_cons; now left)
                  ltac:(repeat constructor))).
Defined.

(** A flat cosmology with [Om0 = 0.26]. *)
Lemma cosmo_id_roundtrip_witness :
  let cosmology : gmap string Q :=
    <["Om0" := (13 # 50)%Q]> (<["Ode0" := (37 # 50)%Q]> ∅) in
  Simulation.cosmo_id Q_fmt_3f cosmology ["Om"; "Ol"] = inr "Om0.260_Ol0.740"
  /\ exists dict,
       Simulation.parameters_of_dirname (F:=Q) "Om0.260_Ol0.740"
       = inr (["Om"; "Ol"], dict)
       /\ dict !! "Om0" = Some (13 # 50)%Q.
Proof.
  cbn zeta.
  set (cosmology := <["Om0" := (13 # 50)%Q]> (<["Ode0" := (37 # 50)%Q]> ∅)
                    : gmap string Q).
  assert (Hpieces : Forall2 (cosmo_piece Q_fmt_3f cosmology)
                      ["Om"; "Ol"] ["Om0.260"; "Ol0.740"]).
  { constructor; [|constructor; [|constructor]].
    - exists "Om0", (13 # 50)%Q.
      split; [vm_compute; reflexivity|]. split; [vm_compute; reflexivity|].
      split; [vm_compute; reflexivity|].
      split; [split; [discriminate|repeat constructor]|].
      eexists. vm_compute. reflexivity.
    - exists "Ode0", (37 # 50)%Q.
      split; [vm_compute; reflexivity|]. split; [vm_compute; reflexivity|].
      split; [vm_compute; reflexivity|].
      split; [split; [discriminate|repeat constructor]|].
      eexists. vm_compute. reflexivity. }
  destruct (cosmo_id_roundtrip Q_fmt_3f cosmology ["Om"; "Ol"]
              ["Om0.260"; "Ol0.740"] ltac:(discriminate) Hpieces)
    as (dict & Hid & Hdir & Hdict).
  split; [exact Hid|]. exists dict. split; [exact Hdir|].
  rewrite (Hdict "Om" "Om0" (13 # 50)%Q);
    [vm_compute; reflexivity | apply elem_of_cons; now left
    | vm_compute; reflexivity | vm_compute; reflexivity].
Defined.

(** Two bars in a map identifier; no bar, and no [b], in a catalog
    identifier. *)
Lemma malformed_id_stops_the_run_witness :
  singleRedshift Demo.free_tracer Demo.disk None Demo.batch
    (Demo.map_settings 4) "cosmo|512b240|ic1" 0
  = mkOut (inl (Py.SystemExit 1)) 0 []
  /\ simulatedCatalog Demo.free_tracer Demo.disk None Demo.batch
       (Demo.catalog_settings 400 4 None) "cosmo" 0
     = mkOut (inl (Py.ValueError "wrong number of values to unpack")) 0 []
  /\ simulatedCatalog Demo.free_tracer Demo.disk None Demo.batch
       (Demo.catalog_settings 400 4 None) "cosmo|512" 0
     = mkOut (inl (Py.ValueError "wrong number of values to unpack")) 0 [].
Proof.
  split; [|split].
  - apply (proj1 (malformed_id_stops_the_run Demo.free_tracer Demo.disk None
                    Demo.batch "cosmo|512b240|ic1" 0)).
    vm_compute. lia.
  - apply (proj1 (proj2 (malformed_id_stops_the_run Demo.free_tracer Demo.disk
                           None Demo.batch "cosmo" 0))).
    vm_compute. discriminate.
  - apply (proj2 (proj2 (malformed_id_stops_the_run Demo.free_tracer Demo.disk
                           None Demo.batch "cosmo|512" 0))
             (Demo.catalog_settings 400 4 None) "cosmo" "512").
    + vm_compute. reflexivity.
    + vm_compute. discriminate.
Defined.

(** One plane set for two collections. *)
Lemma telescopic_settings_are_checked_witness :
  let out := singleRedshift Demo.free_tracer Demo.disk None Demo.batch
               short_telescopic_settings "cosmo" 0 in
  Forall (fun e => is_seed e = true) (evs out)
  /\ res out = inl (Py.SystemExit 1).
Proof.
  cbn zeta.
  destruct (read_handles Demo.batch short_telescopic_settings "cosmo")
    as [e|h] eqn:Hh; [vm_compute in Hh; discriminate|].
  assert (Hn : length (h_collection h) = 2%nat).
  { vm_compute in Hh. injection Hh as <-. reflexivity. }
  destruct (telescopic_settings_are_checked Demo.free_tracer Demo.disk None
              Demo.batch short_telescopic_settings short_telescopic_settings
              "cosmo" h ["Wide"] [[1; 2]; [5]] [[0; 1]; [2]] [[0]; [1; 2]] 0)
    as [Hevs Hres].
  - vm_compute. reflexivity.
  - exact Hh.
  - unfold map_settings_in_force. rewrite Hh. vm_compute. reflexivity.
  - reflexivity.
  - left. rewrite Hn. cbn. lia.
  - split; [exact Hevs|]. apply Hres. vm_compute. split; [discriminate|reflexivity].
Defined.

(** Three initial conditions beside a directory of maps. *)
Lemma initial_conditions_roundtrip_witness :
  let st0 := Simulation.mkCollectionDirs ∅ (<["Maps" := Simulation.Dir ∅]> ∅) in
  exists st' found,
    Simulation.newInitialConditions [7; 0; -3] st0
    = (inr [(1, 7); (2, 0); (3, -3)], st')
    /\ Simulation.ics st' = inr found
    /\ found ≡ₚ [(1, 7); (2, 0); (3, -3)].
Proof.
  cbn zeta.
  apply (initial_conditions_roundtrip [7; 0; -3]
           (Simulation.mkCollectionDirs ∅ (<["Maps" := Simulation.Dir ∅]> ∅))).
  intros name [H|H]; cbn in H.
  - now apply elem_of_empty in H.
  - rewrite dom_insert_L, dom_empty_L in H.
    apply elem_of_union in H as [H|H]; [|now apply elem_of_empty in H].
    apply elem_of_singleton in H as ->. reflexivity.
Defined.
